(** * greenfield-relayer: the BSC -> Greenfield oracle relay pipeline

    A shallow embedding of
      - [db/dao/greenfield_dao.go]   (the latest-sequence query),
      - [executor/greenfield_executor.go] (validator cache, claim submission),
      - [assembler/bsc_assembler.go] (the assembler pass [process] and the
        batch processor [processPkgs]),
    followed by the properties of the relay pipeline that are established
    on it.

    Conventions.  Go's fixed-width integers are [Z] with the wrap-around
    written out ([uint64], [int64], ...).  Functions that return
    [(T, error)] are computations in the monad [M], whose outcomes tell a
    value from a returned error, an early [return nil], a run-time panic
    and an exhausted iteration budget.  Everything outside the process
    (RPC answers, the clock, database failures, the signature aggregator)
    is read from a [World]. *)

From stdpp Require Import base list gmap sets strings numbers.
From Stdlib Require Import ZArith Lia Ascii.

Local Open Scope Z_scope.

(* ===================================================================== *)
(** ** Machine integers *)
(* ===================================================================== *)

Definition two64 : Z := 2 ^ 64.
Definition two63 : Z := 2 ^ 63.

(** Conversion to [uint64], [uint32], [uint8]: reduction modulo the width. *)
Definition uint64 (x : Z) : Z := x mod two64.
Definition uint32 (x : Z) : Z := x mod 2 ^ 32.
Definition uint8 (x : Z) : Z := x mod 2 ^ 8.

(** Conversion to [int64]: two's complement reading of the low 64 bits. *)
Definition int64 (x : Z) : Z := (x + two63) mod two64 - two63.

(** [int64] arithmetic as Go performs it. *)
Definition add64 (x y : Z) : Z := int64 (x + y).
Definition sub64 (x y : Z) : Z := int64 (x - y).

Definition is_uint64 (x : Z) : Prop := 0 <= x < two64.
Definition is_int64 (x : Z) : Prop := - two63 <= x < two63.

(* ===================================================================== *)
(** ** Errors and results *)
(* ===================================================================== *)

(** The [error] values that the modelled code creates itself are told
    apart by constructor; errors handed back by collaborators (RPC,
    database, aggregation) are opaque and carry their message. *)
Inductive error : Type :=
  | ErrExternal (msg : string)
  | ErrHexDecode
  | ErrClockSkew (now start : Z)
      (* "blockchain time and relayer time is not consistent, now %d should be after %d" *)
  | ErrNotEnoughVotes (sequence : Z)
      (* "packages with oracle sequence %d does not get enough votes yet" *)
  | ErrClaim (code : Z) (rawLog : string).
      (* "claim error, code=%d, log=%s" *)

#[global] Instance error_eq_dec : EqDecision error.
Proof. solve_decision. Defined.

(** A Go result pair [(T, error)] produced by a collaborator. *)
Inductive Result (A : Type) : Type :=
  | Ok (a : A)
  | Err (e : error).
Arguments Ok {A} a.
Arguments Err {A} e.

(* ===================================================================== *)
(** ** db: transaction status *)
(* ===================================================================== *)

(** Modelled from the spec: [db.TxStatus] is declared outside the modelled
    files; the status lifecycle is [Saved -> AllVoted -> Delivered]. *)
Inductive TxStatus : Type := Saved | AllVoted | Delivered.

#[global] Instance TxStatus_eq_dec : EqDecision TxStatus.
Proof. solve_decision. Defined.

(* ===================================================================== *)
(** ** db/dao/greenfield_dao.go *)
(* ===================================================================== *)

(** A row of table [greenfield_relay_transaction], with the columns the
    queries of [GreenfieldDao] mention. *)
Record GreenfieldRelayTransaction : Type := {
  gtx_Id : Z;
  gtx_ChannelId : Z;
  gtx_Sequence : Z;
  gtx_Height : Z;
  gtx_Status : TxStatus;
  gtx_UpdatedTime : Z;
  gtx_ClaimedTxHash : string
}.

(** [sql.NullInt64]. *)
Record NullInt64 : Type := { Int64 : Z; Valid : bool }.

Definition sql_null : NullInt64 := {| Int64 := 0; Valid := false |}.

(** The rows selected by [Where("channel_id = ? and status = ?", ...)]. *)
Definition where_channel_status (channelId : Z) (status : TxStatus)
    (rows : list GreenfieldRelayTransaction) : list GreenfieldRelayTransaction :=
  filter (λ r, gtx_ChannelId r = channelId ∧ gtx_Status r = status) rows.

(** The aggregate [MAX(column)] over the selected values: SQL NULL on the
    empty selection. *)
Definition sql_max (vals : list Z) : NullInt64 :=
  match vals with
  | [] => sql_null
  | v :: vs => {| Int64 := foldr Z.max v vs; Valid := true |}
  end.

(** [GreenfieldDao.GetLatestSequenceByChannelIdAndStatus]
    (greenfield_dao.go, lines 61-72).  [scanErr] is the error, if any, of
    [res.Row().Scan(&result)]. *)
Definition GetLatestSequenceByChannelIdAndStatus
    (scanErr : option error) (table : list GreenfieldRelayTransaction)
    (channelId : Z) (status : TxStatus) : Z * option error :=
  let result := sql_max (gtx_Sequence <$> where_channel_status channelId status table) in
  match scanErr with
  | Some err => (0, Some err)
  | None =>
      if negb (Valid result) then (-1, None)
      else (Int64 result, None)
  end.

(** The reading of the query in the specification: the greatest sequence
    of the channel all of whose rows are in the given status, [-1] when
    there is none. *)
Definition all_rows_in_status (table : list GreenfieldRelayTransaction)
    (channelId : Z) (status : TxStatus) (s : Z) : Prop :=
  (∃ r, r ∈ table ∧ gtx_ChannelId r = channelId ∧ gtx_Sequence r = s) ∧
  (∀ r, r ∈ table → gtx_ChannelId r = channelId → gtx_Sequence r = s →
        gtx_Status r = status).

Definition spec_latest_sequence (table : list GreenfieldRelayTransaction)
    (channelId : Z) (status : TxStatus) (res : Z) : Prop :=
  (¬ (∃ r, r ∈ table ∧ gtx_ChannelId r = channelId ∧ gtx_Status r = status) →
     res = -1) ∧
  ((∃ r, r ∈ table ∧ gtx_ChannelId r = channelId ∧ gtx_Status r = status) →
     all_rows_in_status table channelId status res ∧
     ∀ s, all_rows_in_status table channelId status s → s <= res).

(* ===================================================================== *)
(** ** Byte strings and [encoding/hex] *)
(* ===================================================================== *)

(** A byte slice: each element is an 8-bit value. *)
Abbreviation bytes := (list Z).

(** [hex.fromHexChar]. *)
Definition fromHexChar (c : ascii) : option Z :=
  let n := Z.of_nat (nat_of_ascii c) in
  if (48 <=? n) && (n <=? 57) then Some (n - 48)
  else if (97 <=? n) && (n <=? 102) then Some (n - 97 + 10)
  else if (65 <=? n) && (n <=? 70) then Some (n - 65 + 10)
  else None.

(** [hex.DecodeString]: two digits per byte; an invalid digit or an odd
    length is an error. *)
Fixpoint hex_DecodeString (s : string) : Result bytes :=
  match s with
  | EmptyString => Ok []
  | String _ EmptyString => Err ErrHexDecode
  | String a (String b rest) =>
      match fromHexChar a, fromHexChar b with
      | Some hi, Some lo =>
          match hex_DecodeString rest with
          | Ok bs => Ok (hi * 16 + lo :: bs)
          | Err e => Err e
          end
      | _, _ => Err ErrHexDecode
      end
  end.

Definition hexDigit (n : Z) : ascii :=
  ascii_of_nat (Z.to_nat (if n <? 10 then 48 + n else 97 + (n - 10))).

(** [hex.EncodeToString]. *)
Fixpoint hex_EncodeToString (bs : bytes) : string :=
  match bs with
  | [] => EmptyString
  | b :: bs' => String (hexDigit (b / 16)) (String (hexDigit (b mod 16)) (hex_EncodeToString bs'))
  end.

(** [bytes.Equal]. *)
Definition bytes_Equal (a b : bytes) : bool := bool_decide (a = b).

(* ===================================================================== *)
(** ** Data of the pipeline *)
(* ===================================================================== *)

(** [tmtypes.Validator], the fields the relayer reads. *)
Record Validator : Type := {
  val_BlsKey : bytes;
  val_VotingPower : Z;
  val_RelayerAddress : bytes
}.

(** [model.Vote], the fields the assembler reads. *)
Record Vote : Type := {
  vote_PubKey : string;
  vote_Signature : string;
  vote_ClaimPayload : bytes
}.

(** [model.BscRelayPackage]: a row of table [bsc_relay_package]. *)
Record BscRelayPackage : Type := {
  Id : Z;
  ChannelId : Z;
  OracleSequence : Z;
  Height : Z;
  TxTime : Z;
  Status : TxStatus;
  ClaimedTxHash : string
}.

(** [oracletypes.QueryInturnRelayerResponse]. *)
Record RelayInterval : Type := { Start : Z; End_ : Z }.
Record QueryInturnRelayerResponse : Type := {
  BlsPubKey : string;
  RelayInterval_ : RelayInterval
}.

(** [oracletypes.MsgClaim], as built by [oracletypes.NewMsgClaim]. *)
Record MsgClaim : Type := {
  FromAddress : string;
  SrcChainId : Z;
  DestChainId : Z;
  Sequence : Z;
  Timestamp : Z;
  Payload : bytes;
  VoteAddressSet : list Z;
  AggSignature : bytes
}.

(** [sdktypes.TxOption]. *)
Record TxOption : Type := {
  NoSimulate : bool;
  opt_GasLimit : Z;
  opt_FeeAmount : Z;
  Nonce : Z
}.

(** [TxResponse] of a broadcast. *)
Record TxResponse : Type := { Code : Z; RawLog : string; TxHash : string }.

(** [types.SequenceStatus]. *)
Record SequenceStatus : Type := {
  HasRetrieved : bool;
  NextDeliverySeq : Z
}.

(** [BSCAssembler]: the fields that change, and the relayer's own key. *)
Record BSCAssembler : Type := {
  blsPubKey : bytes;
  inturnRelayerSequenceStatus : SequenceStatus;
  relayerNonce : Z;
  alertSet : gset Z
}.

(** [GreenfieldExecutor]: the validator cache.  [validatorsRequests]
    counts the [Validators] RPC requests issued so far; it exists only to
    pick the answer of the next request from the [World]. *)
Record GreenfieldExecutor : Type := {
  validators : list Validator;
  validatorsRequests : nat
}.

(** What a pass does to its surroundings, in order. *)
Inductive Event : Type :=
  | EvSetGnfdInturnRelayerMetrics (isInturn : bool) (start end_ : Z)
  | EvSetNextReceiveSequenceForChannel (channelId seq : Z)
  | EvSetNextSendSequenceForChannel (channelId seq : Z)
  | EvSetHasTxDelay (b : bool)
  | EvSetBSCProcessedBlockHeight (h : Z)
  | EvSleep (seconds : Z)
  | EvGetPackages (sequence : Z)
      (* the store is asked for the rows of an oracle sequence *)
  | EvBroadcast (msg : MsgClaim) (opt : TxOption) (rows : list BscRelayPackage).
      (* a claim transaction is broadcast; [rows] is the content of table
         [bsc_relay_package] at that moment *)

(** The surroundings of a pass: configuration, clock and collaborators.
    A collaborator that is asked at several places of [process] has one
    field per place. *)
Record World : Type := {
  (* configuration *)
  GreenfieldSequenceUpdateLatency : Z;
  BSCToGreenfieldInturnRelayerTimeout : Z;
  BSCConfig_ChainId : Z;
  GreenfieldConfig_ChainId : Z;
  GreenfieldConfig_GasLimit : Z;
  GreenfieldConfig_FeeAmount : Z;
  address : string;
  (* clock *)
  now_cursor : Z;
      (* [time.Now().Unix()] when a fresh in-turn cursor is considered *)
  now_timeout : Z → Z;
      (* [time.Now().Unix()] at the stand-by timeout test of sequence [i] *)
  txDelayed : Z → Z → bool;
      (* [time.Since(time.Unix(pkgTime, 0)).Seconds() > common.TxDelayAlertThreshHold]
         at sequence [i] for [pkgTime] *)
  (* destination chain *)
  GetInturnRelayer : Result QueryInturnRelayerResponse;
  GetNonce : Result Z;
  GetNonceOnNextBlock : Result Z;
  Validators_rpc : nat → Result (list Validator);
  BroadcastTx : MsgClaim → TxOption → Result TxResponse;
  (* source chain *)
  GetNextDeliveryOracleSequenceWithRetry : Result Z;
      (* when the cursor is established *)
  GetNextDeliveryOracleSequenceWithRetry_calibration : Result Z;
      (* when the in-turn relayer recalibrates *)
  GetNextSendSequenceForChannelWithRetry_metrics : Result Z;
      (* in [updateMetrics] *)
  GetNextSendSequenceForChannelWithRetry : Result Z;
      (* when the stand-by window end is chosen *)
  (* store *)
  GetLatestOracleSequenceByStatus : list BscRelayPackage → TxStatus → Result Z;
  GetPackagesByOracleSequence_err : Z → option error;
  UpdateBatchPackages_err : list Z → string → option error;
      (* failure, if any, of the update of the rows [ids] with [txHash] *)
  GetVotesByChannelIdAndSequence : Z → Z → Result (list Vote);
  (* vote *)
  AggregateSignatureAndValidatorBitSet :
    list Vote → list Validator → Result (bytes * list Z)
}.

(** The state a pass works on. *)
Record St : Type := {
  asm : BSCAssembler;
  exec : GreenfieldExecutor;
  store : list BscRelayPackage;
  trace : list Event
}.

(* ===================================================================== *)
(** ** The monad of a pass *)
(* ===================================================================== *)

Inductive Outcome (A : Type) : Type :=
  | Val (a : A)           (* the statement completed *)
  | Fail (e : error)      (* [return err] *)
  | Halt                  (* [return nil] before the end of the function *)
  | Panic                 (* run-time panic (index out of range) *)
  | OutOfFuel.            (* the iteration budget of the model ran out *)
Arguments Val {A} a.
Arguments Fail {A} e.
Arguments Halt {A}.
Arguments Panic {A}.
Arguments OutOfFuel {A}.

Definition M (A : Type) : Type := St → Outcome A * St.

Definition ret {A} (a : A) : M A := λ st, (Val a, st).

Definition bind {A B} (m : M A) (k : A → M B) : M B :=
  λ st,
    match m st with
    | (Val a, st') => k a st'
    | (Fail e, st') => (Fail e, st')
    | (Halt, st') => (Halt, st')
    | (Panic, st') => (Panic, st')
    | (OutOfFuel, st') => (OutOfFuel, st')
    end.

Declare Scope pass_scope.
Delimit Scope pass_scope with pass.
Notation "x <- m ;; k" := (bind m (λ x, k))
  (at level 100, m at next level, k at level 200, right associativity) : pass_scope.
Notation "m ;; k" := (bind m (λ _, k))
  (at level 100, k at level 200, right associativity) : pass_scope.
Local Open Scope pass_scope.

Definition fail {A} (e : error) : M A := λ st, (Fail e, st).
Definition halt {A} : M A := λ st, (Halt, st).
Definition panic {A} : M A := λ st, (Panic, st).
Definition outOfFuel {A} : M A := λ st, (OutOfFuel, st).

(** [v, err := f(); if err != nil { return err }] for a collaborator. *)
Definition try {A} (r : Result A) : M A :=
  match r with
  | Ok a => ret a
  | Err e => fail e
  end.

(** [if err := f(); err != nil { return err }] for a store operation. *)
Definition check (r : option error) : M unit :=
  match r with
  | None => ret tt
  | Some e => fail e
  end.

(** Calling a function that returns [error] and keeping the error in
    hand: [err := f(...)]. *)
Definition call (m : M unit) : M (option error) :=
  λ st,
    match m st with
    | (Val _, st') => (Val None, st')
    | (Halt, st') => (Val None, st')
    | (Fail e, st') => (Val (Some e), st')
    | (Panic, st') => (Panic, st')
    | (OutOfFuel, st') => (OutOfFuel, st')
    end.

Definition get : M St := λ st, (Val st, st).

(** The state after one more event, and after an assignment to one of
    its components. *)
Definition logged (ev : Event) (st : St) : St :=
  {| asm := asm st; exec := exec st; store := store st; trace := trace st ++ [ev] |}.
Definition withAsm (a : BSCAssembler) (st : St) : St :=
  {| asm := a; exec := exec st; store := store st; trace := trace st |}.
Definition withExec (e : GreenfieldExecutor) (st : St) : St :=
  {| asm := asm st; exec := e; store := store st; trace := trace st |}.
Definition withStore (rows : list BscRelayPackage) (st : St) : St :=
  {| asm := asm st; exec := exec st; store := rows; trace := trace st |}.

Definition emit (ev : Event) : M unit := λ st, (Val tt, logged ev st).
Definition setExec (e : GreenfieldExecutor) : M unit := λ st, (Val tt, withExec e st).
Definition setStore (rows : list BscRelayPackage) : M unit :=
  λ st, (Val tt, withStore rows st).

(** Assignments to the fields of the assembler. *)
Definition set_relayerNonce (n : Z) (a : BSCAssembler) : BSCAssembler :=
  {| blsPubKey := blsPubKey a;
     inturnRelayerSequenceStatus := inturnRelayerSequenceStatus a;
     relayerNonce := n; alertSet := alertSet a |}.
Definition set_HasRetrieved (b : bool) (a : BSCAssembler) : BSCAssembler :=
  {| blsPubKey := blsPubKey a;
     inturnRelayerSequenceStatus :=
       {| HasRetrieved := b;
          NextDeliverySeq := NextDeliverySeq (inturnRelayerSequenceStatus a) |};
     relayerNonce := relayerNonce a; alertSet := alertSet a |}.
Definition set_NextDeliverySeq (s : Z) (a : BSCAssembler) : BSCAssembler :=
  {| blsPubKey := blsPubKey a;
     inturnRelayerSequenceStatus :=
       {| HasRetrieved := HasRetrieved (inturnRelayerSequenceStatus a);
          NextDeliverySeq := s |};
     relayerNonce := relayerNonce a; alertSet := alertSet a |}.
Definition set_alertSet (s : gset Z) (a : BSCAssembler) : BSCAssembler :=
  {| blsPubKey := blsPubKey a;
     inturnRelayerSequenceStatus := inturnRelayerSequenceStatus a;
     relayerNonce := relayerNonce a; alertSet := s |}.

Definition modifyAsm (f : BSCAssembler → BSCAssembler) : M unit :=
  λ st, (Val tt, withAsm (f (asm st)) st).

(* ===================================================================== *)
(** ** executor/greenfield_executor.go *)
(* ===================================================================== *)

(** The refresh loop of the validator cache runs beside the assembler; a
    pass reads the cache as it finds it. *)

(** [queryLatestValidators] (lines 242-248): one [Validators] request. *)
Definition queryLatestValidators (w : World) (e : GreenfieldExecutor)
    : Result (list Validator) * GreenfieldExecutor :=
  (Validators_rpc w (validatorsRequests e),
   {| validators := validators e;
      validatorsRequests := S (validatorsRequests e) |}).

(** [QueryCachedLatestValidators] (lines 259-268). *)
Definition QueryCachedLatestValidators (w : World) (e : GreenfieldExecutor)
    : Result (list Validator) * GreenfieldExecutor :=
  if negb (Nat.eqb (length (validators e)) 0) then (Ok (validators e), e)
  else
    match queryLatestValidators w e with
    | (Err err, e') => (Err err, e')
    | (Ok vals, e') => (Ok vals, e')
    end.

(** One tick of [UpdateCachedLatestValidatorsLoop] (lines 272-279): the
    body of the loop over the ticker. *)
Definition UpdateCachedLatestValidators_tick (w : World) (e : GreenfieldExecutor)
    : GreenfieldExecutor :=
  match queryLatestValidators w e with
  | (Err _, e') => e'
  | (Ok vals, e') =>
      {| validators := vals; validatorsRequests := validatorsRequests e' |}
  end.

(** [UpdateCachedLatestValidatorsLoop] run for a number of ticks. *)
Fixpoint UpdateCachedLatestValidatorsLoop (ticks : nat) (w : World)
    (e : GreenfieldExecutor) : GreenfieldExecutor :=
  match ticks with
  | O => e
  | S n => UpdateCachedLatestValidatorsLoop n w (UpdateCachedLatestValidators_tick w e)
  end.

(** [GetValidatorsBlsPublicKey] (lines 282-292). *)
Definition GetValidatorsBlsPublicKey (w : World) (e : GreenfieldExecutor)
    : Result (list string) * GreenfieldExecutor :=
  match QueryCachedLatestValidators w e with
  | (Err err, e') => (Err err, e')
  | (Ok vals, e') => (Ok ((λ v, hex_EncodeToString (val_BlsKey v)) <$> vals), e')
  end.

Definition getDestChainId (w : World) : Z := uint32 (GreenfieldConfig_ChainId w).
Definition getSrcChainId (w : World) : Z := uint32 (BSCConfig_ChainId w).

(** Running an operation of the executor inside a pass. *)
Definition liftExec {A} (f : GreenfieldExecutor → Result A * GreenfieldExecutor) : M A :=
  st <- get;;
  setExec (snd (f (exec st)));;
  try (fst (f (exec st))).

(** [ClaimPackages] (lines 298-325). *)
Definition ClaimPackages (w : World) (payloadBts aggregatedSig : bytes)
    (voteAddressSet : list Z) (claimTs oracleSeq nonce : Z) : M string :=
  let msgClaim :=
    {| FromAddress := address w;
       SrcChainId := getSrcChainId w;
       DestChainId := getDestChainId w;
       Sequence := oracleSeq;
       Timestamp := uint64 claimTs;
       Payload := payloadBts;
       VoteAddressSet := voteAddressSet;
       AggSignature := aggregatedSig |} in
  let opt :=
    {| NoSimulate := true;
       opt_GasLimit := GreenfieldConfig_GasLimit w;
       opt_FeeAmount := int64 (GreenfieldConfig_FeeAmount w);
       Nonce := nonce |} in
  st <- get;;
  emit (EvBroadcast msgClaim opt (store st));;
  txRes <- try (BroadcastTx w msgClaim opt);;
  if negb (Code txRes =? 0) then fail (ErrClaim (Code txRes) (RawLog txRes))
  else ret (TxHash txRes).

(* ===================================================================== *)
(** ** db/dao: the package store used by the assembler *)
(* ===================================================================== *)

(** Modelled from the spec: [BSCDao.GetPackagesByOracleSequence] is
    outside the modelled files; [packages_by_sequence] "returns all
    packages sharing an oracle sequence". *)
Definition packages_by_sequence (rows : list BscRelayPackage) (sequence : Z)
    : list BscRelayPackage :=
  filter (λ p, OracleSequence p = sequence) rows.

Definition GetPackagesByOracleSequence (w : World) (sequence : Z)
    : M (list BscRelayPackage) :=
  emit (EvGetPackages sequence);;
  check (GetPackagesByOracleSequence_err w sequence);;
  st <- get;;
  ret (packages_by_sequence (store st) sequence).

Definition with_ClaimedTxHash (txHash : string) (p : BscRelayPackage) : BscRelayPackage :=
  {| Id := Id p; ChannelId := ChannelId p; OracleSequence := OracleSequence p;
     Height := Height p; TxTime := TxTime p; Status := Status p;
     ClaimedTxHash := txHash |}.

Definition with_Status (status : TxStatus) (p : BscRelayPackage) : BscRelayPackage :=
  {| Id := Id p; ChannelId := ChannelId p; OracleSequence := OracleSequence p;
     Height := Height p; TxTime := TxTime p; Status := status;
     ClaimedTxHash := ClaimedTxHash p |}.

(** Modelled from the spec: [BSCDao.UpdateBatchPackagesClaimedTxHash] is
    outside the modelled files; [mark_batch_claimed_tx_hash(ids, tx_hash)]
    records the hash on the rows of the batch, in one transaction. *)
Definition mark_batch_claimed_tx_hash (ids : list Z) (txHash : string)
    (rows : list BscRelayPackage) : list BscRelayPackage :=
  (λ p, if bool_decide (Id p ∈ ids) then with_ClaimedTxHash txHash p else p) <$> rows.

(** Modelled from the spec: [BSCDao.UpdateBatchPackagesStatusAndClaimedTxHash]
    is outside the modelled files; [mark_batch_delivered(ids, tx_hash)]
    sets status and hash on the rows of the batch, in one transaction. *)
Definition mark_batch_status_and_claimed_tx_hash (ids : list Z)
    (status : TxStatus) (txHash : string)
    (rows : list BscRelayPackage) : list BscRelayPackage :=
  (λ p, if bool_decide (Id p ∈ ids)
        then with_ClaimedTxHash txHash (with_Status status p) else p) <$> rows.

(** A failed transaction leaves the table as it was. *)
Definition UpdateBatchPackagesClaimedTxHash (w : World) (pkgIds : list Z)
    (txHash : string) : M unit :=
  check (UpdateBatchPackages_err w pkgIds txHash);;
  st <- get;;
  setStore (mark_batch_claimed_tx_hash pkgIds txHash (store st)).

Definition UpdateBatchPackagesStatusAndClaimedTxHash (w : World) (pkgIds : list Z)
    (status : TxStatus) (txHash : string) : M unit :=
  check (UpdateBatchPackages_err w pkgIds txHash);;
  st <- get;;
  setStore (mark_batch_status_and_claimed_tx_hash pkgIds status txHash (store st)).

(* ===================================================================== *)
(** ** assembler/bsc_assembler.go *)
(* ===================================================================== *)

(** [s[0]]: a run-time panic on the empty slice. *)
Definition index0 {A} (l : list A) : M A :=
  match l with
  | [] => panic
  | x :: _ => ret x
  end.

(** [BSCAssembler.processPkgs] (lines 203-245). *)
Definition processPkgs (w : World) (pkgs : list BscRelayPackage)
    (channelId sequence nonce : Z) (isInturnRelyer : bool) : M unit :=
  votes <- try (GetVotesByChannelIdAndSequence w channelId sequence);;
  validators <- liftExec (QueryCachedLatestValidators w);;
  agg <- try (AggregateSignatureAndValidatorBitSet w votes validators);;
  let aggregatedSignature := fst agg in
  let valBitSet := snd agg in
  vote0 <- index0 votes;;
  pkg0 <- index0 pkgs;;
  txHash <- ClaimPackages w (vote_ClaimPayload vote0) aggregatedSignature valBitSet
              (TxTime pkg0) sequence nonce;;
  let pkgIds := Id <$> pkgs in
  emit (EvSetBSCProcessedBlockHeight (Height pkg0));;
  if negb isInturnRelyer then
    UpdateBatchPackagesClaimedTxHash w pkgIds txHash
  else
    UpdateBatchPackagesStatusAndClaimedTxHash w pkgIds Delivered txHash;;
    modifyAsm (set_NextDeliverySeq (uint64 (sequence + 1))).

(** [BSCAssembler.updateMetrics] (lines 247-255). *)
Definition updateMetrics (w : World) (channelId nextDeliveryOracleSeq : Z) : M unit :=
  emit (EvSetNextReceiveSequenceForChannel channelId nextDeliveryOracleSeq);;
  nextSendOracleSeq <- try (GetNextSendSequenceForChannelWithRetry_metrics w);;
  emit (EvSetNextSendSequenceForChannel channelId nextSendOracleSeq).

(** [process], lines 62-72: who is in turn. *)
Definition resolveRole (w : World) : M (bool * QueryInturnRelayerResponse) :=
  inturnRelayer <- try (GetInturnRelayer w);;
  inturnRelayerPubkey <- try (hex_DecodeString (BlsPubKey inturnRelayer));;
  st <- get;;
  let isInturnRelyer := bytes_Equal (blsPubKey (asm st)) inturnRelayerPubkey in
  emit (EvSetGnfdInturnRelayerMetrics isInturnRelyer
          (Start (RelayInterval_ inturnRelayer)) (End_ (RelayInterval_ inturnRelayer)));;
  ret (isInturnRelyer, inturnRelayer).

(** [process], lines 79-117: the cursor and the start of the window. *)
Definition establishCursor (w : World) (isInturnRelyer : bool)
    (inturnRelayer : QueryInturnRelayerResponse) : M Z :=
  if isInturnRelyer then
    st <- get;;
    (if negb (HasRetrieved (inturnRelayerSequenceStatus (asm st))) then
       let now := now_cursor w in
       let timeDiff := sub64 now (int64 (Start (RelayInterval_ inturnRelayer))) in
       if timeDiff <? GreenfieldSequenceUpdateLatency w then
         if timeDiff <? 0
         then fail (ErrClockSkew now (Start (RelayInterval_ inturnRelayer)))
         else halt
       else
         inTurnRelayerStartSeq <- try (GetNextDeliveryOracleSequenceWithRetry w);;
         nonce <- try (GetNonce w);;
         modifyAsm (set_relayerNonce nonce);;
         modifyAsm (set_HasRetrieved true);;
         modifyAsm (set_NextDeliverySeq inTurnRelayerStartSeq)
     else ret tt);;
    st' <- get;;
    ret (NextDeliverySeq (inturnRelayerSequenceStatus (asm st')))
  else
    modifyAsm (set_HasRetrieved false);;
    emit (EvSleep (GreenfieldSequenceUpdateLatency w));;
    startSeq <- try (GetNextDeliveryOracleSequenceWithRetry w);;
    startNonce <- try (GetNonce w);;
    modifyAsm (set_relayerNonce startNonce);;
    ret startSeq.

(** [process], lines 122-136: the end of the window, an [int64]. *)
Definition selectEndSequence (w : World) (isInturnRelyer : bool) : M Z :=
  if isInturnRelyer then
    st <- get;;
    endSequence <- try (GetLatestOracleSequenceByStatus w (store st) AllVoted);;
    if endSequence =? -1 then halt else ret endSequence
  else
    endSeq <- try (GetNextSendSequenceForChannelWithRetry w);;
    ret (int64 endSeq).

(** [process], lines 139-150: the delay alerts. *)
Definition reconcileAlerts (startSeq : Z) : M unit :=
  st <- get;;
  if negb (Nat.eqb (size (alertSet (asm st))) 0) then
    let maxTxSeqOfAlert :=
      set_fold (λ k m, if m <? k then k else m) 0 (alertSet (asm st)) in
    if maxTxSeqOfAlert <? startSeq then
      emit (EvSetHasTxDelay false);;
      modifyAsm (set_alertSet ∅)
    else ret tt
  else ret tt.

(** [process], lines 163-166: a package older than the alert threshold
    raises the delay flag and enters the alert set. *)
Definition raiseDelayAlert (w : World) (i pkgTime : Z) : M unit :=
  if txDelayed w i pkgTime then
    emit (EvSetHasTxDelay true);;
    modifyAsm (λ a, set_alertSet ({[ i ]} ∪ alertSet a) a)
  else ret tt.

(** [process], lines 176-198: the claim of one oracle sequence, the
    calibration of the in-turn relayer when it fails, the next nonce when
    it succeeds. *)
Definition claimOrCalibrate (w : World) (channelId : Z) (isInturnRelyer : bool)
    (i : Z) (pkgs : list BscRelayPackage) : M unit :=
  st <- get;;
  r <- call (processPkgs w pkgs (uint8 channelId) i (relayerNonce (asm st))
               isInturnRelyer);;
  match r with
  | Some err =>
      if negb isInturnRelyer then fail err
      else
        newNonce <- try (GetNonceOnNextBlock w);;
        modifyAsm (set_relayerNonce newNonce);;
        newNextDeliveryOracleSeq <-
          try (GetNextDeliveryOracleSequenceWithRetry_calibration w);;
        modifyAsm (set_NextDeliverySeq newNextDeliveryOracleSeq);;
        fail err
  | None =>
      modifyAsm (λ a, set_relayerNonce (uint64 (relayerNonce a + 1)) a)
  end.

(** [process], lines 154-198: the body of the loop over the window. *)
Definition loopBody (w : World) (channelId : Z) (isInturnRelyer : bool) (i : Z)
    : M unit :=
  pkgs <- GetPackagesByOracleSequence w i;;
  match pkgs with
  | [] => halt
  | pkg0 :: _ =>
      let status := Status pkg0 in
      let pkgTime := TxTime pkg0 in
      raiseDelayAlert w i pkgTime;;
      if bool_decide (status ≠ AllVoted) && bool_decide (status ≠ Delivered) then
        fail (ErrNotEnoughVotes i)
      else if negb isInturnRelyer
              && (now_timeout w i <? add64 pkgTime (BSCToGreenfieldInturnRelayerTimeout w))
      then halt
      else claimOrCalibrate w channelId isInturnRelyer i pkgs
  end.

(** [process], line 153: [for i := startSeq; i <= uint64(endSequence); i++].
    The counter is a [uint64], so [i++] wraps; [fuel] bounds the number
    of iterations the model follows. *)
Fixpoint forLoop (fuel : nat) (w : World) (channelId : Z) (isInturnRelyer : bool)
    (endSequence : Z) (i : Z) : M unit :=
  if i <=? uint64 endSequence then
    match fuel with
    | O => outOfFuel
    | S fuel' =>
        loopBody w channelId isInturnRelyer i;;
        forLoop fuel' w channelId isInturnRelyer endSequence (uint64 (i + 1))
    end
  else ret tt.

(** A Go function that ends in [return nil]: leaving early with [nil] and
    reaching the end are the same to the caller. *)
Definition returning (m : M unit) : M unit :=
  λ st,
    match m st with
    | (Halt, st') => (Val tt, st')
    | r => r
    end.

(** [process], lines 62-150: role, cursor, metrics, window end and
    alerts; the result is the role and the window of the loop. *)
Definition window (w : World) (channelId : Z) : M (bool * Z * Z) :=
  role <- resolveRole w;;
  let isInturnRelyer := fst role in
  let inturnRelayer := snd role in
  startSeq <- establishCursor w isInturnRelyer inturnRelayer;;
  updateMetrics w (uint8 channelId) startSeq;;
  endSequence <- selectEndSequence w isInturnRelyer;;
  reconcileAlerts startSeq;;
  ret (isInturnRelyer, startSeq, endSequence).

(** [BSCAssembler.process] (lines 61-201): one pass of the assembler. *)
Definition process (fuel : nat) (w : World) (channelId : Z) : M unit :=
  returning (
    win <- window w channelId;;
    let isInturnRelyer := fst (fst win) in
    let startSeq := snd (fst win) in
    let endSequence := snd win in
    forLoop fuel w channelId isInturnRelyer endSequence startSeq).

(* ===================================================================== *)
(** ** Concrete tables, worlds and states *)
(* ===================================================================== *)

Definition mkTx (id channelId sequence : Z) (status : TxStatus)
    : GreenfieldRelayTransaction :=
  {| gtx_Id := id; gtx_ChannelId := channelId; gtx_Sequence := sequence;
     gtx_Height := 100 + id; gtx_Status := status; gtx_UpdatedTime := 0;
     gtx_ClaimedTxHash := "" |}.

(** Channel 1 holds sequence 3 (voted) and sequence 5 with two rows, one
    voted and one only saved. *)
Definition table_mixed : list GreenfieldRelayTransaction :=
  [mkTx 1 1 5 AllVoted; mkTx 2 1 5 Saved; mkTx 3 1 3 AllVoted].

(** One row per sequence. *)
Definition table_plain : list GreenfieldRelayTransaction :=
  [mkTx 1 1 3 AllVoted; mkTx 2 1 4 AllVoted; mkTx 3 1 5 Saved; mkTx 4 2 9 AllVoted].

Definition validator1 : Validator :=
  {| val_BlsKey := [1; 2]; val_VotingPower := 10; val_RelayerAddress := [7] |}.
Definition validator2 : Validator :=
  {| val_BlsKey := [3; 4]; val_VotingPower := 10; val_RelayerAddress := [8] |}.

(** An executor whose validator cache has not been filled yet. *)
Definition executor_cold : GreenfieldExecutor :=
  {| validators := []; validatorsRequests := 0 |}.

Definition mkPkg (id sequence txTime : Z) (status : TxStatus) : BscRelayPackage :=
  {| Id := id; ChannelId := 0; OracleSequence := sequence; Height := 1000 + id;
     TxTime := txTime; Status := status; ClaimedTxHash := "" |}.

(** The relayer's own BLS key, hex "abcd". *)
Definition own_key : bytes := [171; 205].

Definition vote1 : Vote :=
  {| vote_PubKey := "0102"; vote_Signature := "aa"; vote_ClaimPayload := [9] |}.

(** A destination chain that accepts every claim, and one that rejects
    every claim with a non-zero code. *)
Definition accept_all : MsgClaim → TxOption → Result TxResponse :=
  λ _ _, Ok {| Code := 0; RawLog := ""; TxHash := "c1a1" |}.
Definition reject_all : MsgClaim → TxOption → Result TxResponse :=
  λ _ _, Ok {| Code := 32; RawLog := "account sequence mismatch"; TxHash := "" |}.

(** A world in which every collaborator answers: the in-turn relayer has
    key [inturnKey] for the interval [50, 200), the clock reads [now]. *)
Definition world (inturnKey : string) (now latency timeout : Z)
    (nextDelivery nonce nextSend latestAllVoted : Z)
    (broadcast : MsgClaim → TxOption → Result TxResponse) : World :=
  {| GreenfieldSequenceUpdateLatency := latency;
     BSCToGreenfieldInturnRelayerTimeout := timeout;
     BSCConfig_ChainId := 56;
     GreenfieldConfig_ChainId := 9000;
     GreenfieldConfig_GasLimit := 1000;
     GreenfieldConfig_FeeAmount := 5;
     address := "relayer";
     now_cursor := now;
     now_timeout := λ _, now;
     txDelayed := λ _ _, false;
     GetInturnRelayer :=
       Ok {| BlsPubKey := inturnKey; RelayInterval_ := {| Start := 50; End_ := 200 |} |};
     GetNonce := Ok nonce;
     GetNonceOnNextBlock := Ok (nonce + 3);
     Validators_rpc := λ _, Ok [validator1; validator2];
     BroadcastTx := broadcast;
     GetNextDeliveryOracleSequenceWithRetry := Ok nextDelivery;
     GetNextDeliveryOracleSequenceWithRetry_calibration := Ok (nextDelivery + 1);
     GetNextSendSequenceForChannelWithRetry_metrics := Ok nextSend;
     GetNextSendSequenceForChannelWithRetry := Ok nextSend;
     GetLatestOracleSequenceByStatus := λ _ _, Ok latestAllVoted;
     GetPackagesByOracleSequence_err := λ _, None;
     UpdateBatchPackages_err := λ _ _, None;
     GetVotesByChannelIdAndSequence := λ _ _, Ok [vote1];
     AggregateSignatureAndValidatorBitSet := λ _ _, Ok ([170], [3]) |}.

(** A relayer that has just started, over a given package table. *)
Definition fresh (rows : list BscRelayPackage) : St :=
  {| asm := {| blsPubKey := own_key;
               inturnRelayerSequenceStatus :=
                 {| HasRetrieved := false; NextDeliverySeq := 0 |};
               relayerNonce := 0;
               alertSet := ∅ |};
     exec := executor_cold;
     store := rows;
     trace := [] |}.

(** A relayer whose in-turn cursor stands at [seq] with nonce [nonce]. *)
Definition inturn_at (seq nonce : Z) (rows : list BscRelayPackage) : St :=
  {| asm := {| blsPubKey := own_key;
               inturnRelayerSequenceStatus :=
                 {| HasRetrieved := true; NextDeliverySeq := seq |};
               relayerNonce := nonce;
               alertSet := ∅ |};
     exec := executor_cold;
     store := rows;
     trace := [] |}.

(** Sequences 7 and 8 are voted. *)
Definition rows_voted : list BscRelayPackage :=
  [mkPkg 1 7 50 AllVoted; mkPkg 2 8 60 AllVoted].

(** Sequence 7 is marked delivered in the table, sequence 8 is voted. *)
Definition rows_redelivered : list BscRelayPackage :=
  [mkPkg 1 7 50 Delivered; mkPkg 2 8 60 AllVoted].

(** Sequence 7 has two rows, the second of which is only saved. *)
Definition rows_partly_voted : list BscRelayPackage :=
  [mkPkg 1 7 50 AllVoted; mkPkg 3 7 50 Saved].

(** At time 100 the relayer is in turn; the destination expects
    sequence 7 next, the account nonce is 10, the source will send 9
    next, the latest voted sequence is [latest]. *)
Definition world_inturn (latest : Z) : World :=
  world "abcd" 100 30 120 7 10 9 latest accept_all.

(** Only sequence 7 has been indexed. *)
Definition rows_seq7 : list BscRelayPackage := [mkPkg 1 7 50 AllVoted].

(** At time 300 another relayer (key "ffff") is in turn; the destination
    expects sequence 7 next and the source will send sequence 8 next. *)
Definition world_standby : World :=
  world "ffff" 300 30 120 7 10 8 8 accept_all.

(** Sequences 5 and 7 are voted, sequence 6 has not been indexed. *)
Definition rows_gap : list BscRelayPackage :=
  [mkPkg 1 5 50 AllVoted; mkPkg 2 7 60 AllVoted].

(** The relayer is in turn, the destination expects sequence 5 next and
    the latest voted sequence is 7. *)
Definition world_gap : World :=
  world "abcd" 100 30 120 5 10 8 7 accept_all.

(** At time 100 another relayer is in turn and the in-turn timeout is
    120 seconds. *)
Definition world_standby_early : World :=
  world "ffff" 100 30 120 7 10 8 8 accept_all.

(** The relayer is in turn and the destination rejects its claims. *)
Definition world_collision : World :=
  world "abcd" 100 30 120 7 10 9 8 reject_all.

(** The relayer is in turn for the interval [50, 200) but its clock
    reads 40. *)
Definition world_skew : World :=
  world "abcd" 40 30 120 7 10 9 8 accept_all.

(* ===================================================================== *)
(** ** Vocabulary of the properties *)
(* ===================================================================== *)

(** The tests of lines 168-175 that a sequence must pass before its claim
    is built: the first row is voted or delivered and, for a stand-by
    relayer, the in-turn timeout of that row has elapsed. *)
Definition passes (w : World) (isInturnRelyer : bool) (i : Z) (p : BscRelayPackage)
    : Prop :=
  (Status p = AllVoted ∨ Status p = Delivered) ∧
  (isInturnRelyer = false →
   ¬ now_timeout w i < add64 (TxTime p) (BSCToGreenfieldInturnRelayerTimeout w)).

(** Events other than reads of the store and broadcasts. *)
Definition quiet (ev : Event) : Prop :=
  match ev with
  | EvGetPackages _ | EvBroadcast _ _ _ => False
  | _ => True
  end.

(** The role of the pass is [b]: the in-turn relayer is known, its key
    decodes, and it is the relayer's own key exactly when [b] holds. *)
Definition role_is (w : World) (st : St) (b : bool) : Prop :=
  ∃ r k, GetInturnRelayer w = Ok r ∧ hex_DecodeString (BlsPubKey r) = Ok k ∧
         bytes_Equal (blsPubKey (asm st)) k = b.

(** Every claim broadcast recorded in a trace was made for a sequence
    [s] over a table [rows] such that [ok rows s]. *)
Definition claims_ok (ok : list BscRelayPackage → Z → Prop) (tr : list Event) : Prop :=
  ∀ msg opt rows, EvBroadcast msg opt rows ∈ tr → ok rows (Sequence msg).

(** Every row stored for the sequence is [AllVoted]. *)
Definition all_voted (rows : list BscRelayPackage) (s : Z) : Prop :=
  ∀ p, p ∈ packages_by_sequence rows s → Status p = AllVoted.

(** The sequence has rows, and the first of them is [AllVoted] or
    [Delivered]. *)
Definition first_voted_or_delivered (rows : list BscRelayPackage) (s : Z) : Prop :=
  ∃ p ps, packages_by_sequence rows s = p :: ps ∧
          (Status p = AllVoted ∨ Status p = Delivered).

(** The claims broadcast in a trace, as pairs of oracle sequence and
    nonce, in order. *)
Definition broadcast_of (ev : Event) : option (Z * Z) :=
  match ev with
  | EvBroadcast msg opt _ => Some (Sequence msg, Nonce opt)
  | _ => None
  end.
Definition broadcasts (tr : list Event) : list (Z * Z) := omap broadcast_of tr.

(** Every read of the store recorded in a trace is for a sequence not
    above [bound]. *)
Definition loads_within (bound : Z) (tr : list Event) : Prop :=
  ∀ i, EvGetPackages i ∈ tr → i <= bound.

(** A package row without its claimed transaction hash. *)
Definition without_hash (p : BscRelayPackage) : BscRelayPackage :=
  with_ClaimedTxHash "" p.

(** The loop that started at sequence [start] in state [st0] stands at
    sequence [i] in state [st] after [n] completed iterations. *)
Inductive reaches (w : World) (ch : Z) (b : bool) (endSequence start : Z) (st0 : St)
    : nat → Z → St → Prop :=
  | reaches_start : reaches w ch b endSequence start st0 0 start st0
  | reaches_next n i st st' :
      reaches w ch b endSequence start st0 n i st →
      i <= uint64 endSequence →
      loopBody w ch b i st = (Val tt, st') →
      reaches w ch b endSequence start st0 (S n) (uint64 (i + 1)) st'.

(** The pass started in [st0] has role [b] and window end [endSequence],
    and its loop stands at sequence [i] in state [st] after [n] completed
    iterations. *)
Definition pass_at (w : World) (ch : Z) (st0 : St) (b : bool) (endSequence : Z)
    (n : nat) (i : Z) (st : St) : Prop :=
  ∃ start st1, window w ch st0 = (Val (b, start, endSequence), st1) ∧
               reaches w ch b endSequence start st1 n i st.

(** The state in which the batch processor is invoked for sequence [i]
    whose first row is [pkg0], when the loop stands at [i] in state [st]:
    the store has been read and the delay alert considered. *)
Definition atClaim (w : World) (i : Z) (pkg0 : BscRelayPackage) (st : St) : St :=
  snd (raiseDelayAlert w i (TxTime pkg0) (logged (EvGetPackages i) st)).

(** The in-turn timeout of the first row of the sequence had elapsed when
    the claim was built. *)
Definition waited (w : World) (rows : list BscRelayPackage) (s : Z) : Prop :=
  ∃ p ps, packages_by_sequence rows s = p :: ps ∧
          ¬ now_timeout w s < add64 (TxTime p) (BSCToGreenfieldInturnRelayerTimeout w).

(** A package row marked delivered by the transaction [txHash]. *)
Definition delivered_by (txHash : string) (p : BscRelayPackage) : BscRelayPackage :=
  with_ClaimedTxHash txHash (with_Status Delivered p).

(** What the query returns, read off the table: [-1] when no row of the
    channel is in the status, otherwise a sequence carried by such a row
    and above the sequence of every such row. *)
Definition latest_with_status (table : list GreenfieldRelayTransaction)
    (channelId : Z) (status : TxStatus) (res : Z) : Prop :=
  (¬ (∃ r, r ∈ table ∧ gtx_ChannelId r = channelId ∧ gtx_Status r = status) →
     res = -1) ∧
  ((∃ r, r ∈ table ∧ gtx_ChannelId r = channelId ∧ gtx_Status r = status) →
     (∃ r, r ∈ table ∧ gtx_ChannelId r = channelId ∧ gtx_Status r = status ∧
           gtx_Sequence r = res) ∧
     (∀ r, r ∈ table → gtx_ChannelId r = channelId → gtx_Status r = status →
           gtx_Sequence r <= res)).

(** Rows that share channel and sequence share their status. *)
Definition status_per_sequence (table : list GreenfieldRelayTransaction) : Prop :=
  ∀ r r', r ∈ table → r' ∈ table →
    gtx_ChannelId r = gtx_ChannelId r' → gtx_Sequence r = gtx_Sequence r' →
    gtx_Status r = gtx_Status r'.

(** The ways in which a computation ends without a value. *)
Inductive Abort : Type :=
  | AFail (e : error)
  | AHalt
  | APanic
  | AOutOfFuel.

(** [wp m Q E st]: started in [st], [m] either yields a value and a state
    that satisfy [Q], or ends otherwise (error, early return, panic, no
    fuel) in a way and a state that satisfy [E]. *)
Definition wp {A} (m : M A) (Q : A → St → Prop) (E : Abort → St → Prop) (st : St)
    : Prop :=
  match m st with
  | (Val a, st') => Q a st'
  | (Fail e, st') => E (AFail e) st'
  | (Halt, st') => E AHalt st'
  | (Panic, st') => E APanic st'
  | (OutOfFuel, st') => E AOutOfFuel st'
  end.

(* ===================================================================== *)
(** ** Vocabulary of the loop *)
(* ===================================================================== *)

#[global] Instance Abort_eq_dec : EqDecision Abort.
Proof. solve_decision. Defined.

(** [k] increments of a [uint64]. *)
Fixpoint advance (x : Z) (k : nat) : Z :=
  match k with
  | O => x
  | S k' => advance (uint64 (x + 1)) k'
  end.

(** [k] claims with consecutive oracle sequences and nonces, from
    sequence [s] and nonce [n]. *)
Fixpoint consecutive (s n : Z) (k : nat) : list (Z * Z) :=
  match k with
  | O => []
  | S k' => (s, n) :: consecutive (uint64 (s + 1)) (uint64 (n + 1)) k'
  end.

(** What one iteration of the loop at sequence [i] has done to the state
    when it completes. *)
Definition body_done (b : bool) (i : Z) (st st' : St) : Prop :=
  broadcasts (trace st') = broadcasts (trace st) ++ [(i, relayerNonce (asm st))] ∧
  relayerNonce (asm st') = uint64 (relayerNonce (asm st) + 1) ∧
  blsPubKey (asm st') = blsPubKey (asm st) ∧
  HasRetrieved (inturnRelayerSequenceStatus (asm st'))
    = HasRetrieved (inturnRelayerSequenceStatus (asm st)) ∧
  alertSet (asm st) ⊆ alertSet (asm st') ∧
  NextDeliverySeq (inturnRelayerSequenceStatus (asm st'))
    = (if b then uint64 (i + 1)
       else NextDeliverySeq (inturnRelayerSequenceStatus (asm st))).

(** What it may have done when it ends the pass instead. *)
Definition body_aborted (b : bool) (i : Z) (st : St) (ab : Abort) (st' : St) : Prop :=
  ab ≠ AOutOfFuel ∧
  (broadcasts (trace st') = broadcasts (trace st) ∨
   broadcasts (trace st') = broadcasts (trace st) ++ [(i, relayerNonce (asm st))]) ∧
  blsPubKey (asm st') = blsPubKey (asm st) ∧
  HasRetrieved (inturnRelayerSequenceStatus (asm st'))
    = HasRetrieved (inturnRelayerSequenceStatus (asm st)) ∧
  alertSet (asm st) ⊆ alertSet (asm st') ∧
  (b = false →
   inturnRelayerSequenceStatus (asm st') = inturnRelayerSequenceStatus (asm st) ∧
   relayerNonce (asm st') = relayerNonce (asm st)) ∧
  (ab = AHalt →
   broadcasts (trace st') = broadcasts (trace st) ∧
   inturnRelayerSequenceStatus (asm st') = inturnRelayerSequenceStatus (asm st) ∧
   relayerNonce (asm st') = relayerNonce (asm st)).

(** What the loop standing at sequence [i] in state [st] has done when it
    is left in state [st']; [returned] tells whether it was left with
    [nil] (the window was exhausted, or an iteration returned [nil]). *)
Definition loop_effect (b : bool) (i : Z) (st : St) (returned : bool) (st' : St)
    : Prop :=
  ∃ k : nat,
    broadcasts (trace st')
      = broadcasts (trace st) ++ consecutive i (relayerNonce (asm st)) k ∧
    blsPubKey (asm st') = blsPubKey (asm st) ∧
    HasRetrieved (inturnRelayerSequenceStatus (asm st'))
      = HasRetrieved (inturnRelayerSequenceStatus (asm st)) ∧
    alertSet (asm st) ⊆ alertSet (asm st') ∧
    (b = false →
     NextDeliverySeq (inturnRelayerSequenceStatus (asm st'))
       = NextDeliverySeq (inturnRelayerSequenceStatus (asm st))) ∧
    (returned = true →
     relayerNonce (asm st') = advance (relayerNonce (asm st)) k ∧
     NextDeliverySeq (inturnRelayerSequenceStatus (asm st'))
       = (if b && negb (Nat.eqb k 0) then advance i k
          else NextDeliverySeq (inturnRelayerSequenceStatus (asm st)))).

(** What lines 62-150 of a pass of role [b] leave of the state [st0]
    they start in: no claim is broadcast and the store and the relayer's
    key are as before; a stand-by pass has cleared [HasRetrieved] and
    kept the next delivery sequence; an in-turn pass that found the
    cursor retrieved has kept cursor and nonce. *)
Definition window_effect (b : bool) (st0 st1 : St) : Prop :=
  blsPubKey (asm st1) = blsPubKey (asm st0) ∧
  broadcasts (trace st1) = broadcasts (trace st0) ∧
  store st1 = store st0 ∧
  (if b
   then HasRetrieved (inturnRelayerSequenceStatus (asm st0)) = true →
        inturnRelayerSequenceStatus (asm st1) = inturnRelayerSequenceStatus (asm st0) ∧
        relayerNonce (asm st1) = relayerNonce (asm st0)
   else HasRetrieved (inturnRelayerSequenceStatus (asm st1)) = false ∧
        NextDeliverySeq (inturnRelayerSequenceStatus (asm st1))
          = NextDeliverySeq (inturnRelayerSequenceStatus (asm st0))).

(** The window that these lines hand to the loop: an in-turn pass starts
    at the cursor, which it has just fetched when it found it unset; a
    stand-by pass starts at the sequence and with the nonce it has
    fetched. *)
Definition window_start (w : World) (b : bool) (st0 : St) (start : Z) (st1 : St)
    : Prop :=
  if b
  then HasRetrieved (inturnRelayerSequenceStatus (asm st1)) = true ∧
       start = NextDeliverySeq (inturnRelayerSequenceStatus (asm st1)) ∧
       (HasRetrieved (inturnRelayerSequenceStatus (asm st0)) = false →
        GetNextDeliveryOracleSequenceWithRetry w = Ok start ∧
        GetNonce w = Ok (relayerNonce (asm st1)))
  else GetNextDeliveryOracleSequenceWithRetry w = Ok start ∧
       GetNonce w = Ok (relayerNonce (asm st1)).

(** The pass returned [nil]. *)
Definition returned_nil (o : Outcome unit) : bool :=
  match o with
  | Val _ => true
  | _ => false
  end.


(** The vote store hands out an empty list of votes for some sequence of
    the channel, and the aggregation accepts an empty list. *)
Definition empty_votes_accepted (w : World) (channelId : Z) : Prop :=
  ∃ i vals agg,
    GetVotesByChannelIdAndSequence w (uint8 channelId) i = Ok [] ∧
    AggregateSignatureAndValidatorBitSet w [] vals = Ok agg.

(** A pass that ends in a run-time panic has met such votes. *)
Definition panics_at_votes (w : World) (channelId : Z) : Abort → St → Prop :=
  λ ab _, ab = APanic → empty_votes_accepted w channelId.

(** [ClaimPackages], lines 299-315: the message and the options of the
    broadcast. *)
Definition claimMsg (w : World) (payloadBts aggregatedSig : bytes)
    (voteAddressSet : list Z) (claimTs oracleSeq : Z) : MsgClaim :=
  {| FromAddress := address w;
     SrcChainId := getSrcChainId w;
     DestChainId := getDestChainId w;
     Sequence := oracleSeq;
     Timestamp := uint64 claimTs;
     Payload := payloadBts;
     VoteAddressSet := voteAddressSet;
     AggSignature := aggregatedSig |}.
Definition claimOpt (w : World) (nonce : Z) : TxOption :=
  {| NoSimulate := true;
     opt_GasLimit := GreenfieldConfig_GasLimit w;
     opt_FeeAmount := int64 (GreenfieldConfig_FeeAmount w);
     Nonce := nonce |}.

(* ===================================================================== *)
(** ** assembler/bsc_assembler.go: the assembler and its loop *)
(* ===================================================================== *)

(** [NewBSCAssembler] (lines 34-45): [BlsPubKey] is the key of the
    executor it is given; the sequence status and the nonce have their
    zero values and the alert set is empty. *)
Definition NewBSCAssembler (BlsPubKey : bytes) : BSCAssembler :=
  {| blsPubKey := BlsPubKey;
     inturnRelayerSequenceStatus := {| HasRetrieved := false; NextDeliverySeq := 0 |};
     relayerNonce := 0;
     alertSet := ∅ |}.

(** A tick of the ticker of [assemblePackagesAndClaimForOracleChannel]:
    the surroundings of the pass that it starts, and what the other
    routines of the relayer have done to the package table and to the
    executor since the pass before. *)
Record Tick : Type := {
  tick_world : World;
  tick_store : list BscRelayPackage → list BscRelayPackage;
  tick_exec : GreenfieldExecutor → GreenfieldExecutor
}.

Definition between (t : Tick) : M unit :=
  λ st, (Val tt, {| asm := asm st; exec := tick_exec t (exec st);
                    store := tick_store t (store st); trace := trace st |}).

(** [assemblePackagesAndClaimForOracleChannel] (lines 52-59) over the
    ticks [ticks]: a pass per tick, the error of a pass is logged and the
    loop goes on.  The result is the list of the errors logged. *)
Fixpoint assemblePackagesAndClaimForOracleChannel (fuel : nat) (ticks : list Tick)
    (channelId : Z) : M (list error) :=
  match ticks with
  | [] => ret []
  | t :: ticks' =>
      between t;;
      err <- call (process fuel (tick_world t) channelId);;
      errs <- assemblePackagesAndClaimForOracleChannel fuel ticks' channelId;;
      ret (match err with
           | Some e => e :: errs
           | None => errs
           end)
  end.

(** A relayer as it is started: a new assembler with its executor, the
    package table as it is found, and nothing done yet. *)
Definition started (BlsPubKey : bytes) (e : GreenfieldExecutor)
    (rows : list BscRelayPackage) : St :=
  {| asm := NewBSCAssembler BlsPubKey; exec := e; store := rows; trace := [] |}.

(* ===================================================================== *)
(** ** db/dao/greenfield_dao.go: the least saved height *)
(* ===================================================================== *)

(** The aggregate [MIN(column)] over the selected values: SQL NULL on the
    empty selection. *)
Definition sql_min (vals : list Z) : NullInt64 :=
  match vals with
  | [] => sql_null
  | v :: vs => {| Int64 := foldr Z.min v vs; Valid := true |}
  end.

(** [GreenfieldDao.GetLeastSavedTransactionHeight] (lines 42-50).
    [scanErr] is the error, if any, of [res.Row().Scan(&result)]; the
    field [Valid] of the result is not consulted. *)
Definition GetLeastSavedTransactionHeight
    (scanErr : option error) (table : list GreenfieldRelayTransaction)
    : Z * option error :=
  let result := sql_min (gtx_Height <$> filter (λ r, gtx_Status r = Saved) table) in
  match scanErr with
  | Some err => (0, Some err)
  | None => (uint64 (Int64 result), None)
  end.

(** A slice of bytes. *)
Definition is_bytes (bs : bytes) : Prop := Forall (λ b, 0 <= b < 256) bs.
(* ===================================================================== *)
(** ** Further worlds and tables *)
(* ===================================================================== *)

(** The world [w] with another answer to [GetNonce]. *)
Definition with_GetNonce (r : Result Z) (w : World) : World :=
  {| GreenfieldSequenceUpdateLatency := GreenfieldSequenceUpdateLatency w;
     BSCToGreenfieldInturnRelayerTimeout := BSCToGreenfieldInturnRelayerTimeout w;
     BSCConfig_ChainId := BSCConfig_ChainId w;
     GreenfieldConfig_ChainId := GreenfieldConfig_ChainId w;
     GreenfieldConfig_GasLimit := GreenfieldConfig_GasLimit w;
     GreenfieldConfig_FeeAmount := GreenfieldConfig_FeeAmount w;
     address := address w;
     now_cursor := now_cursor w;
     now_timeout := now_timeout w;
     txDelayed := txDelayed w;
     GetInturnRelayer := GetInturnRelayer w;
     GetNonce := r;
     GetNonceOnNextBlock := GetNonceOnNextBlock w;
     Validators_rpc := Validators_rpc w;
     BroadcastTx := BroadcastTx w;
     GetNextDeliveryOracleSequenceWithRetry := GetNextDeliveryOracleSequenceWithRetry w;
     GetNextDeliveryOracleSequenceWithRetry_calibration := GetNextDeliveryOracleSequenceWithRetry_calibration w;
     GetNextSendSequenceForChannelWithRetry_metrics := GetNextSendSequenceForChannelWithRetry_metrics w;
     GetNextSendSequenceForChannelWithRetry := GetNextSendSequenceForChannelWithRetry w;
     GetLatestOracleSequenceByStatus := GetLatestOracleSequenceByStatus w;
     GetPackagesByOracleSequence_err := GetPackagesByOracleSequence_err w;
     UpdateBatchPackages_err := UpdateBatchPackages_err w;
     GetVotesByChannelIdAndSequence := GetVotesByChannelIdAndSequence w;
     AggregateSignatureAndValidatorBitSet := AggregateSignatureAndValidatorBitSet w |}.

(** The world [w] with other answers to the two calibration queries. *)
Definition with_calibration (nonce seq : Result Z) (w : World) : World :=
  {| GreenfieldSequenceUpdateLatency := GreenfieldSequenceUpdateLatency w;
     BSCToGreenfieldInturnRelayerTimeout := BSCToGreenfieldInturnRelayerTimeout w;
     BSCConfig_ChainId := BSCConfig_ChainId w;
     GreenfieldConfig_ChainId := GreenfieldConfig_ChainId w;
     GreenfieldConfig_GasLimit := GreenfieldConfig_GasLimit w;
     GreenfieldConfig_FeeAmount := GreenfieldConfig_FeeAmount w;
     address := address w;
     now_cursor := now_cursor w;
     now_timeout := now_timeout w;
     txDelayed := txDelayed w;
     GetInturnRelayer := GetInturnRelayer w;
     GetNonce := GetNonce w;
     GetNonceOnNextBlock := nonce;
     Validators_rpc := Validators_rpc w;
     BroadcastTx := BroadcastTx w;
     GetNextDeliveryOracleSequenceWithRetry := GetNextDeliveryOracleSequenceWithRetry w;
     GetNextDeliveryOracleSequenceWithRetry_calibration := seq;
     GetNextSendSequenceForChannelWithRetry_metrics := GetNextSendSequenceForChannelWithRetry_metrics w;
     GetNextSendSequenceForChannelWithRetry := GetNextSendSequenceForChannelWithRetry w;
     GetLatestOracleSequenceByStatus := GetLatestOracleSequenceByStatus w;
     GetPackagesByOracleSequence_err := GetPackagesByOracleSequence_err w;
     UpdateBatchPackages_err := UpdateBatchPackages_err w;
     GetVotesByChannelIdAndSequence := GetVotesByChannelIdAndSequence w;
     AggregateSignatureAndValidatorBitSet := AggregateSignatureAndValidatorBitSet w |}.

(** The world [w] with another vote store. *)
Definition with_votes (votes : Z → Z → Result (list Vote)) (w : World) : World :=
  {| GreenfieldSequenceUpdateLatency := GreenfieldSequenceUpdateLatency w;
     BSCToGreenfieldInturnRelayerTimeout := BSCToGreenfieldInturnRelayerTimeout w;
     BSCConfig_ChainId := BSCConfig_ChainId w;
     GreenfieldConfig_ChainId := GreenfieldConfig_ChainId w;
     GreenfieldConfig_GasLimit := GreenfieldConfig_GasLimit w;
     GreenfieldConfig_FeeAmount := GreenfieldConfig_FeeAmount w;
     address := address w;
     now_cursor := now_cursor w;
     now_timeout := now_timeout w;
     txDelayed := txDelayed w;
     GetInturnRelayer := GetInturnRelayer w;
     GetNonce := GetNonce w;
     GetNonceOnNextBlock := GetNonceOnNextBlock w;
     Validators_rpc := Validators_rpc w;
     BroadcastTx := BroadcastTx w;
     GetNextDeliveryOracleSequenceWithRetry := GetNextDeliveryOracleSequenceWithRetry w;
     GetNextDeliveryOracleSequenceWithRetry_calibration := GetNextDeliveryOracleSequenceWithRetry_calibration w;
     GetNextSendSequenceForChannelWithRetry_metrics := GetNextSendSequenceForChannelWithRetry_metrics w;
     GetNextSendSequenceForChannelWithRetry := GetNextSendSequenceForChannelWithRetry w;
     GetLatestOracleSequenceByStatus := GetLatestOracleSequenceByStatus w;
     GetPackagesByOracleSequence_err := GetPackagesByOracleSequence_err w;
     UpdateBatchPackages_err := UpdateBatchPackages_err w;
     GetVotesByChannelIdAndSequence := votes;
     AggregateSignatureAndValidatorBitSet := AggregateSignatureAndValidatorBitSet w |}.

(** The world [w] in which every update of package rows fails. *)
Definition with_update_error (e : error) (w : World) : World :=
  {| GreenfieldSequenceUpdateLatency := GreenfieldSequenceUpdateLatency w;
     BSCToGreenfieldInturnRelayerTimeout := BSCToGreenfieldInturnRelayerTimeout w;
     BSCConfig_ChainId := BSCConfig_ChainId w;
     GreenfieldConfig_ChainId := GreenfieldConfig_ChainId w;
     GreenfieldConfig_GasLimit := GreenfieldConfig_GasLimit w;
     GreenfieldConfig_FeeAmount := GreenfieldConfig_FeeAmount w;
     address := address w;
     now_cursor := now_cursor w;
     now_timeout := now_timeout w;
     txDelayed := txDelayed w;
     GetInturnRelayer := GetInturnRelayer w;
     GetNonce := GetNonce w;
     GetNonceOnNextBlock := GetNonceOnNextBlock w;
     Validators_rpc := Validators_rpc w;
     BroadcastTx := BroadcastTx w;
     GetNextDeliveryOracleSequenceWithRetry := GetNextDeliveryOracleSequenceWithRetry w;
     GetNextDeliveryOracleSequenceWithRetry_calibration := GetNextDeliveryOracleSequenceWithRetry_calibration w;
     GetNextSendSequenceForChannelWithRetry_metrics := GetNextSendSequenceForChannelWithRetry_metrics w;
     GetNextSendSequenceForChannelWithRetry := GetNextSendSequenceForChannelWithRetry w;
     GetLatestOracleSequenceByStatus := GetLatestOracleSequenceByStatus w;
     GetPackagesByOracleSequence_err := GetPackagesByOracleSequence_err w;
     UpdateBatchPackages_err := λ _ _, Some e;
     GetVotesByChannelIdAndSequence := GetVotesByChannelIdAndSequence w;
     AggregateSignatureAndValidatorBitSet := AggregateSignatureAndValidatorBitSet w |}.

(** The world [w] with another verdict on delayed packages. *)
Definition with_delays (delayed : Z → Z → bool) (w : World) : World :=
  {| GreenfieldSequenceUpdateLatency := GreenfieldSequenceUpdateLatency w;
     BSCToGreenfieldInturnRelayerTimeout := BSCToGreenfieldInturnRelayerTimeout w;
     BSCConfig_ChainId := BSCConfig_ChainId w;
     GreenfieldConfig_ChainId := GreenfieldConfig_ChainId w;
     GreenfieldConfig_GasLimit := GreenfieldConfig_GasLimit w;
     GreenfieldConfig_FeeAmount := GreenfieldConfig_FeeAmount w;
     address := address w;
     now_cursor := now_cursor w;
     now_timeout := now_timeout w;
     txDelayed := delayed;
     GetInturnRelayer := GetInturnRelayer w;
     GetNonce := GetNonce w;
     GetNonceOnNextBlock := GetNonceOnNextBlock w;
     Validators_rpc := Validators_rpc w;
     BroadcastTx := BroadcastTx w;
     GetNextDeliveryOracleSequenceWithRetry := GetNextDeliveryOracleSequenceWithRetry w;
     GetNextDeliveryOracleSequenceWithRetry_calibration := GetNextDeliveryOracleSequenceWithRetry_calibration w;
     GetNextSendSequenceForChannelWithRetry_metrics := GetNextSendSequenceForChannelWithRetry_metrics w;
     GetNextSendSequenceForChannelWithRetry := GetNextSendSequenceForChannelWithRetry w;
     GetLatestOracleSequenceByStatus := GetLatestOracleSequenceByStatus w;
     GetPackagesByOracleSequence_err := GetPackagesByOracleSequence_err w;
     UpdateBatchPackages_err := UpdateBatchPackages_err w;
     GetVotesByChannelIdAndSequence := GetVotesByChannelIdAndSequence w;
     AggregateSignatureAndValidatorBitSet := AggregateSignatureAndValidatorBitSet w |}.

(** The world [w] with other answers of the [Validators] RPC. *)
Definition with_Validators_rpc (rpc : nat → Result (list Validator)) (w : World) : World :=
  {| GreenfieldSequenceUpdateLatency := GreenfieldSequenceUpdateLatency w;
     BSCToGreenfieldInturnRelayerTimeout := BSCToGreenfieldInturnRelayerTimeout w;
     BSCConfig_ChainId := BSCConfig_ChainId w;
     GreenfieldConfig_ChainId := GreenfieldConfig_ChainId w;
     GreenfieldConfig_GasLimit := GreenfieldConfig_GasLimit w;
     GreenfieldConfig_FeeAmount := GreenfieldConfig_FeeAmount w;
     address := address w;
     now_cursor := now_cursor w;
     now_timeout := now_timeout w;
     txDelayed := txDelayed w;
     GetInturnRelayer := GetInturnRelayer w;
     GetNonce := GetNonce w;
     GetNonceOnNextBlock := GetNonceOnNextBlock w;
     Validators_rpc := rpc;
     BroadcastTx := BroadcastTx w;
     GetNextDeliveryOracleSequenceWithRetry := GetNextDeliveryOracleSequenceWithRetry w;
     GetNextDeliveryOracleSequenceWithRetry_calibration := GetNextDeliveryOracleSequenceWithRetry_calibration w;
     GetNextSendSequenceForChannelWithRetry_metrics := GetNextSendSequenceForChannelWithRetry_metrics w;
     GetNextSendSequenceForChannelWithRetry := GetNextSendSequenceForChannelWithRetry w;
     GetLatestOracleSequenceByStatus := GetLatestOracleSequenceByStatus w;
     GetPackagesByOracleSequence_err := GetPackagesByOracleSequence_err w;
     UpdateBatchPackages_err := UpdateBatchPackages_err w;
     GetVotesByChannelIdAndSequence := GetVotesByChannelIdAndSequence w;
     AggregateSignatureAndValidatorBitSet := AggregateSignatureAndValidatorBitSet w |}.

(** The destination rejects the claims, and the nonce at the next block
    cannot be fetched. *)
Definition world_collision_blind : World :=
  with_calibration (Err (ErrExternal "next block")) (Ok 8) world_collision.

(** Another relayer is in turn, its timeout has elapsed, and the
    destination rejects the claims. *)
Definition world_standby_rejected : World :=
  world "ffff" 300 30 120 7 10 8 8 reject_all.

(** The relayer is in turn and no sequence is voted. *)
Definition world_idle : World :=
  world "abcd" 100 30 120 7 10 7 (-1) accept_all.

(** A relayer whose alert set holds sequences 3 and 5. *)
Definition alerted (rows : list BscRelayPackage) : St :=
  {| asm := {| blsPubKey := own_key;
               inturnRelayerSequenceStatus :=
                 {| HasRetrieved := true; NextDeliverySeq := 7 |};
               relayerNonce := 10;
               alertSet := {[ 3; 5 ]} |};
     exec := executor_cold;
     store := rows;
     trace := [] |}.

(** A world of the stand-by relayer in which every package counts as
    delayed. *)
Definition world_standby_late : World :=
  with_delays (λ _ _, true) world_standby.


(** The relayer is in turn and the vote store has no vote for any
    sequence. *)
Definition world_no_votes : World := with_votes (λ _ _, Ok []) (world_inturn 8).

(** The relayer is in turn, the destination accepts its claims and the
    package store refuses every update. *)
Definition world_store_down : World :=
  with_update_error (ErrExternal "db is down") (world_inturn 8).

(** Two ticks of an in-turn relayer: at the first the table is as it
    is found and sequence 8 is the latest voted; before the second the
    listener has stored sequence 9, voted. *)
Definition ticks_inturn : list Tick :=
  [ {| tick_world := world_inturn 8; tick_store := λ rows, rows; tick_exec := λ e, e |};
    {| tick_world := world "abcd" 110 30 120 9 12 10 9 accept_all;
       tick_store := λ rows, rows ++ [mkPkg 3 9 70 AllVoted];
       tick_exec := λ e, e |} ].

(** A tick at which the relayer, in turn again, finds the destination
    expecting sequence 9 and its account at nonce 12; the listener has
    stored sequence 9, voted. *)
Definition tick_inturn_again : Tick :=
  {| tick_world := world "abcd" 400 30 120 9 12 10 9 accept_all;
     tick_store := λ rows, rows ++ [mkPkg 3 9 70 AllVoted];
     tick_exec := λ e, e |}.

(** The world [w] with another answer to the query of the next send
    sequence made for the metrics. *)
Definition with_metrics_sequence (r : Result Z) (w : World) : World :=
  {| GreenfieldSequenceUpdateLatency := GreenfieldSequenceUpdateLatency w;
     BSCToGreenfieldInturnRelayerTimeout := BSCToGreenfieldInturnRelayerTimeout w;
     BSCConfig_ChainId := BSCConfig_ChainId w;
     GreenfieldConfig_ChainId := GreenfieldConfig_ChainId w;
     GreenfieldConfig_GasLimit := GreenfieldConfig_GasLimit w;
     GreenfieldConfig_FeeAmount := GreenfieldConfig_FeeAmount w;
     address := address w;
     now_cursor := now_cursor w;
     now_timeout := now_timeout w;
     txDelayed := txDelayed w;
     GetInturnRelayer := GetInturnRelayer w;
     GetNonce := GetNonce w;
     GetNonceOnNextBlock := GetNonceOnNextBlock w;
     Validators_rpc := Validators_rpc w;
     BroadcastTx := BroadcastTx w;
     GetNextDeliveryOracleSequenceWithRetry := GetNextDeliveryOracleSequenceWithRetry w;
     GetNextDeliveryOracleSequenceWithRetry_calibration := GetNextDeliveryOracleSequenceWithRetry_calibration w;
     GetNextSendSequenceForChannelWithRetry_metrics := r;
     GetNextSendSequenceForChannelWithRetry := GetNextSendSequenceForChannelWithRetry w;
     GetLatestOracleSequenceByStatus := GetLatestOracleSequenceByStatus w;
     GetPackagesByOracleSequence_err := GetPackagesByOracleSequence_err w;
     UpdateBatchPackages_err := UpdateBatchPackages_err w;
     GetVotesByChannelIdAndSequence := GetVotesByChannelIdAndSequence w;
     AggregateSignatureAndValidatorBitSet := AggregateSignatureAndValidatorBitSet w |}.

(** The relayer is in turn and the source chain does not answer the
    query made for the metrics. *)
Definition world_metrics_down : World :=
  with_metrics_sequence (Err (ErrExternal "source rpc")) (world_inturn 8).

(** A destination chain whose [Validators] request is answered at the
    second attempt only. *)
Definition world_flaky_rpc : World :=
  with_Validators_rpc
    (λ n, if Nat.eqb n 1 then Ok [validator1; validator2] else Err (ErrExternal "rpc"))
    world_standby.

(** Rows of heights 103 and 104 are saved, the row of height 101 is
    voted. *)
Definition table_heights : list GreenfieldRelayTransaction :=
  [mkTx 1 1 3 AllVoted; mkTx 4 1 6 Saved; mkTx 3 1 5 Saved].
(* ===================================================================== *)
(** * Properties *)
(* ===================================================================== *)

(** ** Machine integers *)

Lemma uint64_id x : is_uint64 x → uint64 x = x.
Proof. unfold is_uint64, uint64. intros. by apply Z.mod_small. Qed.

Lemma int64_id x : is_int64 x → int64 x = x.
Proof.
  unfold is_int64, int64, two64, two63. intros.
  rewrite Z.mod_small; lia.
Qed.

(** Converting a [uint64] to [int64] and back gives the value again. *)
Lemma uint64_int64 x : is_uint64 x → uint64 (int64 x) = x.
Proof.
  unfold is_uint64, uint64, int64, two64, two63. intros Hx.
  destruct (decide (x < 2 ^ 63)) as [Hlt|Hge].
  - rewrite (Z.mod_small (x + 2 ^ 63)) by lia.
    rewrite Z.mod_small; lia.
  - replace ((x + 2 ^ 63) mod 2 ^ 64) with (x - 2 ^ 63).
    + replace (x - 2 ^ 63 - 2 ^ 63) with (x + (-1) * 2 ^ 64) by lia.
      rewrite Z.mod_add by lia. rewrite Z.mod_small; lia.
    + replace (x + 2 ^ 63) with (x - 2 ^ 63 + 1 * 2 ^ 64) by lia.
      rewrite Z.mod_add by lia. rewrite Z.mod_small; lia.
Qed.

Lemma uint64_succ x : 0 <= x → x + 1 < two64 → uint64 (x + 1) = x + 1.
Proof. intros. apply uint64_id. unfold is_uint64. lia. Qed.

(** ** The latest-sequence query of [GreenfieldDao] *)

Lemma foldr_max_ge v vs x : x ∈ v :: vs → x <= foldr Z.max v vs.
Proof.
  induction vs as [|u vs IH]; simpl.
  - intros ->%list_elem_of_singleton. lia.
  - rewrite !elem_of_cons. intros [->|[->|Hx]].
    + assert (v <= foldr Z.max v vs) by (apply IH; left). lia.
    + lia.
    + assert (x <= foldr Z.max v vs) by (apply IH; by right). lia.
Qed.

Lemma foldr_max_elem v vs : foldr Z.max v vs ∈ v :: vs.
Proof.
  induction vs as [|u vs IH]; simpl.
  - left.
  - destruct (Z.max_spec u (foldr Z.max v vs)) as [[_ ->]|[_ ->]].
    + apply elem_of_cons in IH as [->|IH].
      * left.
      * right. by right.
    + right. left.
Qed.

Lemma elem_of_selected table ch status s :
  s ∈ gtx_Sequence <$> where_channel_status ch status table ↔
  ∃ r, r ∈ table ∧ gtx_ChannelId r = ch ∧ gtx_Status r = status ∧ gtx_Sequence r = s.
Proof.
  unfold where_channel_status. rewrite list_elem_of_fmap. split.
  - intros (r & -> & Hr). apply list_elem_of_filter in Hr as [[? ?] ?]. eauto 6.
  - intros (r & Hr & Hc & Hs & <-). exists r. split; [done|].
    apply list_elem_of_filter. done.
Qed.

Lemma latest_sequence_selected table ch status :
  latest_with_status table ch status
    (fst (GetLatestSequenceByChannelIdAndStatus None table ch status)).
Proof.
  unfold GetLatestSequenceByChannelIdAndStatus, latest_with_status, sql_max.
  destruct (gtx_Sequence <$> where_channel_status ch status table) as [|v vs] eqn:Hsel;
    simpl.
  - split; [done|]. intros (r & Hr & Hc & Hs). exfalso.
    assert (gtx_Sequence r ∈ gtx_Sequence <$> where_channel_status ch status table) as Hin
      by (apply elem_of_selected; eauto 6).
    rewrite Hsel in Hin. by apply not_elem_of_nil in Hin.
  - split.
    + intros Hno. exfalso. apply Hno.
      assert (v ∈ gtx_Sequence <$> where_channel_status ch status table) as Hin
        by (rewrite Hsel; left).
      apply elem_of_selected in Hin as (r & ? & ? & ? & ?). eauto.
    + intros _. split.
      * pose proof (foldr_max_elem v vs) as Hin. rewrite <- Hsel in Hin.
        apply elem_of_selected in Hin as (r & ? & ? & ? & ?). eauto 6.
      * intros r Hr Hc Hs. apply foldr_max_ge. rewrite <- Hsel.
        apply elem_of_selected. eauto 6.
Qed.

Lemma latest_with_status_spec table ch status res :
  status_per_sequence table →
  latest_with_status table ch status res →
  spec_latest_sequence table ch status res.
Proof.
  intros Hhom [Hnone Hsome]. split; [done|].
  intros Hex. destruct (Hsome Hex) as [(r & Hr & Hc & Hs & Hseq) Hmax]. split.
  - split; [eauto|].
    intros r' Hr' Hc' Hseq'. rewrite <- Hs. symmetry. apply Hhom; congruence.
  - intros s [(r' & Hr' & Hc' & Hseq') Hall]. rewrite <- Hseq'.
    apply Hmax; [done..|]. by apply Hall.
Qed.

(** C9, as stated, fails: on [table_mixed] the query answers 5 for
    status [AllVoted] on channel 1, although one of the two rows of
    sequence 5 is only [Saved]; the greatest sequence all of whose rows
    are [AllVoted] is 3. *)
Lemma latest_sequence_not_all_rows :
  fst (GetLatestSequenceByChannelIdAndStatus None table_mixed 1 AllVoted) = 5 ∧
  all_rows_in_status table_mixed 1 AllVoted 3 ∧
  ¬ spec_latest_sequence table_mixed 1 AllVoted
      (fst (GetLatestSequenceByChannelIdAndStatus None table_mixed 1 AllVoted)).
Proof.
  split; [reflexivity|]. split.
  - split.
    + exists (mkTx 3 1 3 AllVoted). split; [|done]. unfold table_mixed. set_solver.
    + intros r Hr _ Hseq. unfold table_mixed in Hr.
      repeat (apply elem_of_cons in Hr as [->|Hr]); try done.
      by apply not_elem_of_nil in Hr.
  - intros [_ Hsome].
    destruct Hsome as [[_ Hall] _].
    + exists (mkTx 1 1 5 AllVoted). split; [|done]. unfold table_mixed. set_solver.
    + specialize (Hall (mkTx 2 1 5 Saved)). simpl in Hall.
      assert (Saved = AllVoted) as Heq; [|done].
      apply Hall; [|done..]. unfold table_mixed. set_solver.
Qed.

(** C9 (amended): without a scan error the query returns no error and
    [-1] when no row of the channel has the given status; otherwise it
    returns the greatest sequence among the rows of the channel that have
    the status.  When rows sharing channel and sequence share their
    status, that is the greatest sequence whose rows are all in the
    status.  A scan error is returned with the value 0. *)
Theorem latest_sequence_by_channel_and_status table ch status :
  snd (GetLatestSequenceByChannelIdAndStatus None table ch status) = None ∧
  latest_with_status table ch status
    (fst (GetLatestSequenceByChannelIdAndStatus None table ch status)) ∧
  (status_per_sequence table →
   spec_latest_sequence table ch status
     (fst (GetLatestSequenceByChannelIdAndStatus None table ch status))) ∧
  (∀ err, GetLatestSequenceByChannelIdAndStatus (Some err) table ch status
          = (0, Some err)).
Proof.
  split; [|split; [|split]].
  - unfold GetLatestSequenceByChannelIdAndStatus.
    by destruct (Valid _).
  - apply latest_sequence_selected.
  - intros Hhom. apply latest_with_status_spec; [done|].
    apply latest_sequence_selected.
  - done.
Qed.

Lemma status_per_sequence_table_plain : status_per_sequence table_plain.
Proof.
  intros r r' Hr Hr'. unfold table_plain in *.
  repeat (apply elem_of_cons in Hr as [->|Hr]);
    try (by apply not_elem_of_nil in Hr);
    repeat (apply elem_of_cons in Hr' as [->|Hr']);
    try (by apply not_elem_of_nil in Hr'); simpl; intros; congruence.
Defined.

(** On [table_plain] the query answers 4 for [AllVoted] on channel 1. *)
Lemma latest_sequence_by_channel_and_status_witness :
  fst (GetLatestSequenceByChannelIdAndStatus None table_plain 1 AllVoted) = 4 ∧
  spec_latest_sequence table_plain 1 AllVoted
    (fst (GetLatestSequenceByChannelIdAndStatus None table_plain 1 AllVoted)).
Proof.
  split; [reflexivity|].
  apply (latest_sequence_by_channel_and_status table_plain 1 AllVoted).
  exact status_per_sequence_table_plain.
Defined.

(** ** The validator cache of [GreenfieldExecutor] *)

(** Reading through the cache never writes the cache. *)
Lemma QueryCachedLatestValidators_cache w e :
  validators (snd (QueryCachedLatestValidators w e)) = validators e.
Proof.
  unfold QueryCachedLatestValidators, queryLatestValidators.
  destruct (negb _); [done|]. by destruct (Validators_rpc w _).
Qed.

Lemma GetValidatorsBlsPublicKey_cache w e :
  validators (snd (GetValidatorsBlsPublicKey w e)) = validators e.
Proof.
  unfold GetValidatorsBlsPublicKey.
  pose proof (QueryCachedLatestValidators_cache w e) as H.
  by destruct (QueryCachedLatestValidators w e) as [[?|?] ?].
Qed.

Lemma QueryCachedLatestValidators_empty w e :
  validators e = [] →
  QueryCachedLatestValidators w e =
    (Validators_rpc w (validatorsRequests e),
     {| validators := []; validatorsRequests := S (validatorsRequests e) |}).
Proof.
  intros He. unfold QueryCachedLatestValidators, queryLatestValidators.
  rewrite He. simpl. by destruct (Validators_rpc w _).
Qed.

Lemma QueryCachedLatestValidators_filled w e :
  validators e ≠ [] →
  QueryCachedLatestValidators w e = (Ok (validators e), e).
Proof.
  intros He. unfold QueryCachedLatestValidators.
  by destruct (validators e).
Qed.



(** ** Reasoning about computations of a pass *)

Section wp_rules.
Context {A B : Type}.
Implicit Types (Q : A → St → Prop) (E : Abort → St → Prop) (st : St).

Lemma wp_ret a Q E st : Q a st → wp (ret a) Q E st.
Proof. done. Qed.

Lemma wp_fail e Q E st : E (AFail e) st → wp (fail e) Q E st.
Proof. done. Qed.

Lemma wp_halt Q E st : E AHalt st → wp halt Q E st.
Proof. done. Qed.

Lemma wp_panic Q E st : E APanic st → wp panic Q E st.
Proof. done. Qed.

Lemma wp_outOfFuel Q E st : E AOutOfFuel st → wp outOfFuel Q E st.
Proof. done. Qed.

Lemma wp_bind (m : M A) (k : A → M B) (R : B → St → Prop) E st :
  wp m (λ a st', wp (k a) R E st') E st → wp (bind m k) R E st.
Proof. unfold wp, bind. by destruct (m st) as [[]]. Qed.

Lemma wp_mono (m : M A) Q Q' E E' st :
  wp m Q E st → (∀ a st', Q a st' → Q' a st') → (∀ ab st', E ab st' → E' ab st') →
  wp m Q' E' st.
Proof. unfold wp. destruct (m st) as [[]]; auto. Qed.

Lemma wp_try (r : Result A) Q E st :
  (∀ a, r = Ok a → Q a st) → (∀ e, r = Err e → E (AFail e) st) → wp (try r) Q E st.
Proof. intros HQ HE. destruct r; unfold wp; simpl; [by eapply HQ|by eapply HE]. Qed.

Lemma wp_index0 (l : list A) Q E st :
  (∀ x l', l = x :: l' → Q x st) → (l = [] → E APanic st) → wp (index0 l) Q E st.
Proof. intros HQ HE. destruct l; unfold wp; simpl; [by eapply HE|by eapply HQ]. Qed.

Lemma wp_liftExec (f : GreenfieldExecutor → Result A * GreenfieldExecutor) Q E st :
  (∀ a, fst (f (exec st)) = Ok a → Q a (withExec (snd (f (exec st))) st)) →
  (∀ e, fst (f (exec st)) = Err e → E (AFail e) (withExec (snd (f (exec st))) st)) →
  wp (liftExec f) Q E st.
Proof.
  intros HQ HE. unfold wp, liftExec, bind, get, setExec. simpl.
  destruct (fst (f (exec st))); simpl; [by eapply HQ|by eapply HE].
Qed.

(** What [m] does, read off a run. *)
Lemma wp_val (m : M A) Q E st a st' :
  wp m Q E st → m st = (Val a, st') → Q a st'.
Proof. unfold wp. intros H Heq. by rewrite Heq in H. Qed.
End wp_rules.

Lemma wp_check (r : option error) (Q : unit → St → Prop) E st :
  (r = None → Q tt st) → (∀ e, r = Some e → E (AFail e) st) → wp (check r) Q E st.
Proof. intros HQ HE. destruct r; unfold wp; simpl; [by eapply HE|by eapply HQ]. Qed.

Lemma wp_get (Q : St → St → Prop) E st : Q st st → wp get Q E st.
Proof. done. Qed.

Lemma wp_emit ev (Q : unit → St → Prop) E st : Q tt (logged ev st) → wp (emit ev) Q E st.
Proof. done. Qed.

Lemma wp_setStore rows (Q : unit → St → Prop) E st :
  Q tt (withStore rows st) → wp (setStore rows) Q E st.
Proof. done. Qed.

Lemma wp_modifyAsm f (Q : unit → St → Prop) E st :
  Q tt (withAsm (f (asm st)) st) → wp (modifyAsm f) Q E st.
Proof. done. Qed.

(** The caller of a function that returns [error] receives [nil] when the
    callee completes or returns early, and the error when it fails. *)
Lemma wp_call (m : M unit) (Q : option error → St → Prop) E st :
  wp m (λ _ st', Q None st')
       (λ ab st', match ab with
                  | AFail e => Q (Some e) st'
                  | AHalt => Q None st'
                  | _ => E ab st'
                  end) st →
  wp (call m) Q E st.
Proof. unfold wp, call. by destruct (m st) as [[]]. Qed.

Lemma wp_returning (m : M unit) (Q : unit → St → Prop) E st :
  wp m Q (λ ab st', match ab with AHalt => Q tt st' | _ => E ab st' end) st →
  wp (returning m) Q E st.
Proof. unfold wp, returning. by destruct (m st) as [[[]| | | |]]. Qed.

(** One step of symbolic execution. *)
Ltac wp_step :=
  lazymatch goal with
  | |- wp (bind _ _) _ _ _ => apply wp_bind
  | |- wp (ret _) _ _ _ => apply wp_ret
  | |- wp (fail _) _ _ _ => apply wp_fail
  | |- wp halt _ _ _ => apply wp_halt
  | |- wp panic _ _ _ => apply wp_panic
  | |- wp outOfFuel _ _ _ => apply wp_outOfFuel
  | |- wp get _ _ _ => apply wp_get
  | |- wp (emit _) _ _ _ => apply wp_emit
  | |- wp (setStore _) _ _ _ => apply wp_setStore
  | |- wp (modifyAsm _) _ _ _ => apply wp_modifyAsm
  | |- wp (try _) _ _ _ => apply wp_try; intros
  | |- wp (check _) _ _ _ => apply wp_check; intros
  | |- wp (index0 _) _ _ _ => apply wp_index0; intros
  | |- wp (liftExec _) _ _ _ => apply wp_liftExec; intros
  | |- wp (if ?b then _ else _) _ _ _ => destruct b eqn:?
  | |- wp (match ?l with [] => _ | _ :: _ => _ end) _ _ _ => destruct l eqn:?
  | |- wp (match ?r with Some _ => _ | None => _ end) _ _ _ => destruct r eqn:?
  | |- _ => progress (cbv beta zeta; cbn [fst snd])
  end.

(** ** Invariants of a pass *)

Section pass_invariant.
Context (w : World) (b : bool) (I : St → Prop) (canLoad : Z → Prop).

Hypothesis I_asm : ∀ a st, I st → I (withAsm a st).
Hypothesis I_exec : ∀ st,
  I st → I (withExec (snd (QueryCachedLatestValidators w (exec st))) st).
Hypothesis I_quiet : ∀ ev st, quiet ev → I st → I (logged ev st).
Hypothesis I_load : ∀ i st, canLoad i → I st → I (logged (EvGetPackages i) st).
Hypothesis I_broadcast : ∀ msg opt st p ps,
  packages_by_sequence (store st) (Sequence msg) = p :: ps →
  passes w b (Sequence msg) p →
  I st → I (logged (EvBroadcast msg opt (store st)) st).
Hypothesis I_store : ∀ ids h st,
  I st →
  I (withStore (if b then mark_batch_status_and_claimed_tx_hash ids Delivered h (store st)
                else mark_batch_claimed_tx_hash ids h (store st)) st).

Ltac inv_solve :=
  repeat first
    [ assumption
    | apply I_asm
    | apply I_exec
    | apply I_quiet; [exact Logic.I|] ].

Ltac inv_auto := repeat (first [wp_step | progress inv_solve]).

Lemma ClaimPackages_inv payload sig bitset ts i nonce st p ps :
  packages_by_sequence (store st) i = p :: ps → passes w b i p → I st →
  wp (ClaimPackages w payload sig bitset ts i nonce) (λ _, I) (λ _, I) st.
Proof.
  intros Hpkgs Hpass HI. unfold ClaimPackages.
  wp_step. wp_step. wp_step. wp_step.
  assert (I (logged (EvBroadcast
            {| FromAddress := address w; SrcChainId := getSrcChainId w;
               DestChainId := getDestChainId w; Sequence := i;
               Timestamp := uint64 ts; Payload := payload;
               VoteAddressSet := bitset; AggSignature := sig |}
            {| NoSimulate := true; opt_GasLimit := GreenfieldConfig_GasLimit w;
               opt_FeeAmount := int64 (GreenfieldConfig_FeeAmount w);
               Nonce := nonce |} (store st)) st)) as HI'
    by (by eapply I_broadcast).
  inv_auto.
Qed.

Lemma processPkgs_inv pkgs ch i nonce st p ps :
  packages_by_sequence (store st) i = p :: ps → passes w b i p → I st →
  wp (processPkgs w pkgs ch i nonce b) (λ _, I) (λ _, I) st.
Proof.
  intros Hpkgs Hpass HI. unfold processPkgs.
  repeat (wp_step; try by inv_solve).
  eapply wp_mono.
  { eapply ClaimPackages_inv; [exact Hpkgs|exact Hpass|inv_solve]. }
  2: done.
  intros txHash st' HI'. simpl in HI'.
  wp_step. wp_step.
  unfold UpdateBatchPackagesClaimedTxHash, UpdateBatchPackagesStatusAndClaimedTxHash.
  assert (I (logged (EvSetBSCProcessedBlockHeight (Height x0)) st')) as HI''
    by inv_solve.
  pose proof (I_store (Id <$> pkgs) txHash _ HI'') as Hs.
  destruct b eqn:Hb; simpl; inv_auto.
Qed.

Lemma passes_intro i p :
  bool_decide (Status p ≠ AllVoted) && bool_decide (Status p ≠ Delivered) = false →
  negb b && (now_timeout w i <? add64 (TxTime p) (BSCToGreenfieldInturnRelayerTimeout w))
    = false →
  passes w b i p.
Proof.
  intros Hstatus Htime. split.
  - apply andb_false_iff in Hstatus as [H|H]; apply bool_decide_eq_false in H.
    + left. by destruct (decide (Status p = AllVoted)).
    + right. by destruct (decide (Status p = Delivered)).
  - intros Hb. rewrite Hb in Htime. simpl in Htime. lia.
Qed.

Lemma claimOrCalibrate_inv ch i pkgs st p ps :
  packages_by_sequence (store st) i = p :: ps → passes w b i p → I st →
  wp (claimOrCalibrate w ch b i pkgs) (λ _, I) (λ _, I) st.
Proof.
  intros Hpkgs Hpass HI. unfold claimOrCalibrate.
  wp_step. wp_step. wp_step.
  apply wp_call.
  eapply wp_mono; [by eapply processPkgs_inv| |].
  - intros u st' HI'. inv_auto.
  - intros [] st' HI'; inv_auto.
Qed.

Lemma loopBody_inv ch i st :
  canLoad i → I st → wp (loopBody w ch b i) (λ _, I) (λ _, I) st.
Proof.
  intros Hload HI. unfold loopBody, GetPackagesByOracleSequence.
  assert (I (logged (EvGetPackages i) st)) as HI' by by apply I_load.
  repeat (wp_step; try by inv_solve). simpl in *.
  eapply (wp_mono _ (λ _ st', I st' ∧ store st' = store st) _ (λ _, I)).
  { unfold raiseDelayAlert. inv_auto; split; (done || inv_solve). }
  2: done.
  intros _ st' [HI'' Hstore]. cbv beta.
  wp_step; [by inv_solve|]. wp_step; [by inv_solve|].
  eapply claimOrCalibrate_inv; [|by apply passes_intro|done].
  by rewrite Hstore.
Qed.

Lemma forLoop_inv ch endSequence :
  (∀ i, i <= uint64 endSequence → canLoad i) →
  ∀ fuel i st, I st → wp (forLoop fuel w ch b endSequence i) (λ _, I) (λ _, I) st.
Proof.
  intros Hload fuel. induction fuel as [|fuel IH]; intros i st HI; simpl.
  - wp_step; inv_auto.
  - wp_step; [|inv_auto]. wp_step.
    eapply wp_mono; [apply loopBody_inv; [apply Hload; lia|done]| |done].
    intros u st' HI'. by apply IH.
Qed.

Lemma window_inv ch st :
  I st →
  wp (window w ch)
     (λ win st', I st' ∧ role_is w st (fst (fst win)) ∧
                 (fst (fst win) = false →
                  ∃ ns, GetNextSendSequenceForChannelWithRetry w = Ok ns ∧
                        snd win = int64 ns))
     (λ _, I) st.
Proof.
  intros HI. unfold window, resolveRole.
  repeat (wp_step; try by inv_solve).
  eapply (wp_mono _ (λ _, I) _ (λ _, I)).
  { unfold establishCursor. inv_auto. }
  2: done.
  intros startSeq st1 HI1. cbv beta.
  unfold updateMetrics. repeat (wp_step; try by inv_solve).
  eapply (wp_mono _ (λ e st', I st' ∧
            (bytes_Equal (blsPubKey (asm st)) a0 = false →
             ∃ ns, GetNextSendSequenceForChannelWithRetry w = Ok ns ∧ e = int64 ns)) _ (λ _, I)).
  { unfold selectEndSequence. inv_auto;
      (split; [by inv_solve|intros; first [discriminate|eauto]]). }
  2: done.
  intros e st2 [HI2 Hend]. cbv beta.
  wp_step. eapply (wp_mono _ (λ _, I) _ (λ _, I)).
  { unfold reconcileAlerts. inv_auto. }
  2: done.
  intros u st3 HI3. cbv beta. wp_step. simpl.
  split; [done|]. split; [|done]. by exists a, a0.
Qed.

Lemma process_inv fuel ch st :
  (∀ b', role_is w st b' → b' = b) →
  (∀ i, (b = false → ∀ ns, GetNextSendSequenceForChannelWithRetry w = Ok ns →
                     i <= uint64 (int64 ns)) → canLoad i) →
  I st → wp (process fuel w ch) (λ _, I) (λ _, I) st.
Proof.
  intros Hrole Hload HI. unfold process. apply wp_returning.
  eapply (wp_mono _ (λ _, I) _ (λ _, I)); [|done|by intros []].
  wp_step. eapply wp_mono; [by apply window_inv| |done].
  intros [[b' startSeq] endSequence] st' (HI' & Hb' & Hend). simpl in *.
  apply Hrole in Hb' as ->.
  apply forLoop_inv; [|done].
  intros i Hi. apply Hload. intros Hb ns Hns.
  destruct (Hend Hb) as (ns' & Hns' & ->). congruence.
Qed.
End pass_invariant.

Lemma role_is_fun w st b1 b2 : role_is w st b1 → role_is w st b2 → b1 = b2.
Proof. intros (r & k & ? & ? & <-) (r' & k' & ? & ? & <-). congruence. Qed.

(** Either the role of the pass is determined, or it cannot be resolved
    at all. *)
Lemma role_cases w st : ∃ b, ∀ b', role_is w st b' → b' = b.
Proof.
  destruct (GetInturnRelayer w) as [r|e] eqn:Hr.
  - destruct (hex_DecodeString (BlsPubKey r)) as [k|e] eqn:Hk.
    + exists (bytes_Equal (blsPubKey (asm st)) k).
      intros b' (r' & k' & ? & ? & <-). congruence.
    + exists true. intros b' (r' & k' & ? & ? & _). congruence.
  - exists true. intros b' (r' & k' & ? & _). congruence.
Qed.


Lemma wp_invariant {A} (m : M A) (I : St → Prop) st :
  wp m (λ _, I) (λ _, I) st → I (snd (m st)).
Proof. unfold wp. by destruct (m st) as [[]]. Qed.

(** ** Claims are built over voted or delivered rows *)

Ltac in_trace :=
  repeat first [apply list_elem_of_here | apply list_elem_of_further].

Lemma claims_ok_logged ok ev tr :
  claims_ok ok tr →
  (∀ msg opt rows, ev = EvBroadcast msg opt rows → ok rows (Sequence msg)) →
  claims_ok ok (tr ++ [ev]).
Proof.
  intros Htr Hev msg opt rows [Hin|Hin%list_elem_of_singleton]%elem_of_app.
  - by eapply Htr.
  - by eapply Hev.
Qed.

(** C1, as stated, fails.  A relayer that has just become in-turn
    over [rows_redelivered] takes sequence 7 from the chain and
    broadcasts a claim for it although its row is [Delivered]; over
    [rows_partly_voted] it broadcasts a claim for sequence 7 although
    the second row of the sequence is only [Saved]. *)
Lemma claim_over_rows_not_all_voted :
  ¬ claims_ok all_voted
      (trace (snd (process 2 (world_inturn 8) 0 (fresh rows_redelivered)))) ∧
  ¬ claims_ok all_voted
      (trace (snd (process 2 (world_inturn 7) 0 (fresh rows_partly_voted)))).
Proof.
  split.
  - intros H.
    assert (∃ msg opt, EvBroadcast msg opt rows_redelivered
                         ∈ trace (snd (process 2 (world_inturn 8) 0 (fresh rows_redelivered)))
                       ∧ Sequence msg = 7) as (msg & opt & Hin & Hseq).
    { vm_compute. do 2 eexists. split; [in_trace|reflexivity]. }
    apply H in Hin. rewrite Hseq in Hin.
    specialize (Hin (mkPkg 1 7 50 Delivered)).
    assert (Status (mkPkg 1 7 50 Delivered) = AllVoted) as Habs; [|done].
    apply Hin. vm_compute. in_trace.
  - intros H.
    assert (∃ msg opt, EvBroadcast msg opt rows_partly_voted
                         ∈ trace (snd (process 2 (world_inturn 7) 0 (fresh rows_partly_voted)))
                       ∧ Sequence msg = 7) as (msg & opt & Hin & Hseq).
    { vm_compute. do 2 eexists. split; [in_trace|reflexivity]. }
    apply H in Hin. rewrite Hseq in Hin.
    specialize (Hin (mkPkg 3 7 50 Saved)).
    assert (Status (mkPkg 3 7 50 Saved) = AllVoted) as Habs; [|done].
    apply Hin. vm_compute. in_trace.
Qed.

(** C1 (amended): in every pass, whenever a claim transaction is
    broadcast for a sequence, the store holds rows for that sequence at
    that moment and the first of them is [AllVoted] or [Delivered]. *)
Theorem claims_over_voted_or_delivered fuel w ch st :
  claims_ok first_voted_or_delivered (trace st) →
  claims_ok first_voted_or_delivered (trace (snd (process fuel w ch st))).
Proof.
  intros Hst. destruct (role_cases w st) as [b Hb].
  apply (wp_invariant _ (λ st, claims_ok first_voted_or_delivered (trace st))).
  apply (process_inv w b _ (λ _, True)); try done.
  - intros ev st' Hq H. apply claims_ok_logged; [done|].
    intros msg opt rows ->. done.
  - intros i st' _ H. apply claims_ok_logged; [done|]. intros; discriminate.
  - intros msg opt st' p ps Hpkgs [Hstatus _] H. apply claims_ok_logged; [done|].
    intros msg' opt' rows' [= <- <- <-]. by exists p, ps.
Qed.

Lemma claims_over_voted_or_delivered_witness :
  claims_ok first_voted_or_delivered
    (trace (snd (process 2 (world_inturn 8) 0 (fresh rows_redelivered)))).
Proof.
  apply (claims_over_voted_or_delivered 2 (world_inturn 8) 0 (fresh rows_redelivered)).
  intros msg opt rows Hin. simpl in Hin. by apply not_elem_of_nil in Hin.
Defined.

(** ** The batch processor *)

Lemma broadcasts_snoc tr ev :
  broadcasts (tr ++ [ev]) =
    broadcasts tr ++ match broadcast_of ev with Some c => [c] | None => [] end.
Proof. unfold broadcasts. rewrite omap_app. simpl. by destruct (broadcast_of ev). Qed.

(** What [processPkgs] has done when it returns [nil], and what it has
    left alone when it does not. *)
Lemma processPkgs_spec w pkgs ch i nonce b st :
  wp (processPkgs w pkgs ch i nonce b)
     (λ _ st', ∃ msg opt txRes pkg0,
        head pkgs = Some pkg0 ∧
        BroadcastTx w msg opt = Ok txRes ∧ Code txRes = 0 ∧
        Sequence msg = i ∧ Nonce opt = nonce ∧
        trace st' = trace st ++ [EvBroadcast msg opt (store st);
                                 EvSetBSCProcessedBlockHeight (Height pkg0)] ∧
        store st' =
          (if b
           then mark_batch_status_and_claimed_tx_hash (Id <$> pkgs) Delivered
                  (TxHash txRes) (store st)
           else mark_batch_claimed_tx_hash (Id <$> pkgs) (TxHash txRes) (store st)) ∧
        asm st' = (if b then set_NextDeliverySeq (uint64 (i + 1)) (asm st) else asm st))
     (λ ab st', ab ≠ AHalt ∧ ab ≠ AOutOfFuel ∧
                asm st' = asm st ∧ store st' = store st ∧
                (broadcasts (trace st') = broadcasts (trace st) ∨
                 broadcasts (trace st') = broadcasts (trace st) ++ [(i, nonce)]))
     st.
Proof.
  unfold processPkgs, ClaimPackages, UpdateBatchPackagesClaimedTxHash,
    UpdateBatchPackagesStatusAndClaimedTxHash.
  repeat wp_step; simpl;
    try (repeat split; try done;
         rewrite ?broadcasts_snoc; simpl; rewrite ?app_nil_r; by auto).
  all: destruct b; simpl in *; try discriminate; subst pkgs;
    do 4 eexists; (split; [reflexivity|]); (split; [eassumption|]);
    (split; [match goal with
             | H : negb _ = false |- _ => apply negb_false_iff in H; by apply Z.eqb_eq in H
             end|]);
    repeat split; try done; by rewrite <- !app_assoc.
Qed.

(** ** A stand-by relayer records hashes only *)

Lemma without_hash_mark_claimed ids h (rows : list BscRelayPackage) :
  without_hash <$> mark_batch_claimed_tx_hash ids h rows = without_hash <$> rows.
Proof.
  unfold mark_batch_claimed_tx_hash.
  induction rows as [|p rows IH]; [done|]. simpl. f_equal; [|done].
  by case_bool_decide.
Qed.

Lemma status_without_hash (rows rows' : list BscRelayPackage) :
  without_hash <$> rows = without_hash <$> rows' → Status <$> rows = Status <$> rows'.
Proof.
  intros H.
  assert (∀ l : list BscRelayPackage,
            Status <$> l = Status <$> (without_hash <$> l)) as Hc.
  { intros l. induction l as [|p l IH]; [done|]. simpl. by f_equal. }
  by rewrite (Hc rows), (Hc rows'), H.
Qed.

Lemma world_standby_role rows : role_is world_standby (fresh rows) false.
Proof.
  exists {| BlsPubKey := "ffff"; RelayInterval_ := {| Start := 50; End_ := 200 |} |},
         [255; 255].
  repeat split.
Defined.

(** C6: a stand-by pass leaves every package row as it was except for
    its claimed transaction hash, so that no status changes and no row
    becomes [Delivered]; when the batch processor of a stand-by relayer
    returns [nil], the broadcast was accepted and the table differs only
    by the hash of that transaction recorded on the rows of the batch. *)
Theorem standby_never_marks_delivered fuel w ch st :
  role_is w st false →
  without_hash <$> store (snd (process fuel w ch st)) = without_hash <$> store st ∧
  Status <$> store (snd (process fuel w ch st)) = Status <$> store st ∧
  (∀ pkgs ch' i nonce st0 st1,
     processPkgs w pkgs ch' i nonce false st0 = (Val tt, st1) →
     ∃ msg opt txRes,
       BroadcastTx w msg opt = Ok txRes ∧ Code txRes = 0 ∧ Sequence msg = i ∧
       store st1 = mark_batch_claimed_tx_hash (Id <$> pkgs) (TxHash txRes) (store st0) ∧
       Status <$> store st1 = Status <$> store st0).
Proof.
  intros Hrole.
  assert (without_hash <$> store (snd (process fuel w ch st)) = without_hash <$> store st)
    as Hkeep.
  { apply (wp_invariant _ (λ st', without_hash <$> store st' = without_hash <$> store st)).
    apply (process_inv w false _ (λ _, True)); try done.
    - intros ids h st' H. simpl. by rewrite without_hash_mark_claimed.
    - intros b' Hb'. by eapply role_is_fun. }
  split; [done|]. split; [by apply status_without_hash|].
  intros pkgs ch' i nonce st0 st1 Hrun.
  pose proof (wp_val _ _ _ _ _ _ (processPkgs_spec w pkgs ch' i nonce false st0) Hrun)
    as (msg & opt & txRes & pkg0 & _ & Hb & Hcode & Hseq & _ & _ & Hstore & _).
  exists msg, opt, txRes. repeat split; try done.
  apply status_without_hash. rewrite Hstore. apply without_hash_mark_claimed.
Qed.

Lemma standby_never_marks_delivered_witness :
  Status <$> store (snd (process 3 world_standby 0 (fresh rows_seq7))) = [AllVoted] ∧
  ClaimedTxHash <$> store (snd (process 3 world_standby 0 (fresh rows_seq7))) = ["c1a1"].
Proof.
  split.
  - exact (proj1 (proj2 (standby_never_marks_delivered 3 world_standby 0 (fresh rows_seq7)
                           (world_standby_role rows_seq7)))).
  - reflexivity.
Defined.

(** C10: with an empty cache, [QueryCachedLatestValidators] issues one
    [Validators] request and returns its answer, and the cache is still
    empty afterwards, so that the next call issues a request again; no
    reader writes the cache and no pass of the assembler does, only a
    tick of the refresh loop whose request succeeds. *)
Theorem empty_validator_cache_is_not_filled w e :
  validators e = [] →
  let r1 := QueryCachedLatestValidators w e in
  let r2 := QueryCachedLatestValidators w (snd r1) in
  fst r1 = Validators_rpc w (validatorsRequests e) ∧
  validators (snd r1) = [] ∧
  validatorsRequests (snd r1) = S (validatorsRequests e) ∧
  fst r2 = Validators_rpc w (S (validatorsRequests e)) ∧
  validators (snd r2) = [] ∧
  validatorsRequests (snd r2) = S (S (validatorsRequests e)) ∧
  (∀ e0, validators (snd (QueryCachedLatestValidators w e0)) = validators e0) ∧
  (∀ e0, validators (snd (GetValidatorsBlsPublicKey w e0)) = validators e0) ∧
  (∀ fuel ch st,
     validators (exec (snd (process fuel w ch st))) = validators (exec st)) ∧
  (∀ e0 vals, Validators_rpc w (validatorsRequests e0) = Ok vals →
     validators (UpdateCachedLatestValidators_tick w e0) = vals) ∧
  (∀ e0 err, Validators_rpc w (validatorsRequests e0) = Err err →
     validators (UpdateCachedLatestValidators_tick w e0) = validators e0).
Proof.
  intros He r1 r2. subst r1 r2.
  rewrite (QueryCachedLatestValidators_empty w e He). simpl.
  rewrite QueryCachedLatestValidators_empty by done. simpl.
  repeat split.
  - apply QueryCachedLatestValidators_cache.
  - apply GetValidatorsBlsPublicKey_cache.
  - intros fuel ch st. destruct (role_cases w st) as [b Hb].
    apply (wp_invariant _ (λ st', validators (exec st') = validators (exec st))).
    apply (process_inv w b _ (λ _, True)); try done.
    intros st' H. simpl. by rewrite QueryCachedLatestValidators_cache.
  - intros e0 vals Hrpc. unfold UpdateCachedLatestValidators_tick, queryLatestValidators.
    by rewrite Hrpc.
  - intros e0 err Hrpc. unfold UpdateCachedLatestValidators_tick, queryLatestValidators.
    by rewrite Hrpc.
Qed.

Lemma empty_validator_cache_is_not_filled_witness :
  fst (QueryCachedLatestValidators world_standby executor_cold)
    = Ok [validator1; validator2] ∧
  validators (snd (QueryCachedLatestValidators world_standby executor_cold)) = [].
Proof.
  pose proof (empty_validator_cache_is_not_filled world_standby executor_cold eq_refl)
    as (H1 & H2 & _).
  split; [exact H1|exact H2].
Defined.

(** ** The window of a stand-by pass *)

Lemma loads_within_logged bound ev tr :
  loads_within bound tr →
  (∀ i, ev = EvGetPackages i → i <= bound) →
  loads_within bound (tr ++ [ev]).
Proof.
  intros Htr Hev i [Hin|Hin%list_elem_of_singleton]%elem_of_app.
  - by apply Htr.
  - by apply Hev.
Qed.

(** C3, as stated, fails.  In the stand-by pass of [world_standby] over
    [rows_seq7] the source answers 8 as next send sequence, and the pass
    asks the store for sequence 8: the loop body runs for a sequence
    above 8 - 1. *)
Lemma standby_loads_next_send_sequence :
  role_is world_standby (fresh rows_seq7) false ∧
  GetNextSendSequenceForChannelWithRetry world_standby = Ok 8 ∧
  EvGetPackages 8 ∈ trace (snd (process 3 world_standby 0 (fresh rows_seq7))) ∧
  ¬ loads_within (8 - 1) (trace (snd (process 3 world_standby 0 (fresh rows_seq7)))).
Proof.
  assert (EvGetPackages 8 ∈ trace (snd (process 3 world_standby 0 (fresh rows_seq7))))
    as Hin by (vm_compute; in_trace).
  split; [apply world_standby_role|]. split; [done|]. split; [done|].
  intros H. apply H in Hin. lia.
Qed.

(** C3 (amended): in a stand-by pass the end of the iteration window is
    the sequence returned by the next-send-sequence query itself: the
    pass asks the store only for sequences up to that value, and the loop
    standing at that value runs its body once more. *)
Theorem standby_window_end fuel w ch st ns :
  role_is w st false →
  GetNextSendSequenceForChannelWithRetry w = Ok ns →
  is_uint64 ns →
  loads_within ns (trace st) →
  (∀ st', selectEndSequence w false st' = (Val (int64 ns), st')) ∧
  uint64 (int64 ns) = ns ∧
  loads_within ns (trace (snd (process fuel w ch st))) ∧
  (∀ st', forLoop (S fuel) w ch false (int64 ns) ns st' =
          (loopBody w ch false ns;;
           forLoop fuel w ch false (int64 ns) (uint64 (ns + 1))) st').
Proof.
  intros Hrole Hns Hrange Hst.
  pose proof (uint64_int64 ns Hrange) as Hconv.
  split; [|split; [done|split]].
  - intros st'. unfold selectEndSequence, bind, try. by rewrite Hns.
  - apply (wp_invariant _ (λ st', loads_within ns (trace st'))).
    apply (process_inv w false _ (λ i, i <= ns)); try done.
    + intros ev st' Hq H. apply loads_within_logged; [done|].
      intros i ->. done.
    + intros i st' Hi H. apply loads_within_logged; [done|].
      by intros i' [= <-].
    + intros msg opt st' p ps _ _ H. apply loads_within_logged; [done|].
      intros; discriminate.
    + intros b' Hb'. by eapply role_is_fun.
    + intros i Hi. rewrite <- Hconv. by apply Hi.
  - intros st'. simpl. rewrite Hconv.
    by destruct (Z.leb_spec ns ns); [|lia].
Qed.

Lemma standby_window_end_witness :
  loads_within 8 (trace (snd (process 3 world_standby 0 (fresh rows_seq7)))).
Proof.
  refine (proj1 (proj2 (proj2
    (standby_window_end 3 world_standby 0 (fresh rows_seq7) 8
       (world_standby_role rows_seq7) eq_refl _ _)))).
  - unfold is_uint64, two64. lia.
  - intros i Hin. simpl in Hin. by apply not_elem_of_nil in Hin.
Defined.

(** ** Following the loop of a pass *)

Lemma forLoop_unfold fuel w ch b e i st :
  i <= uint64 e →
  forLoop (S fuel) w ch b e i st =
    (loopBody w ch b i;; forLoop fuel w ch b e (uint64 (i + 1))) st.
Proof. intros Hi. simpl. by destruct (Z.leb_spec i (uint64 e)); [|lia]. Qed.

Lemma forLoop_reaches w ch b e start st0 n i st :
  reaches w ch b e start st0 n i st →
  ∀ fuel, forLoop (n + fuel) w ch b e start st0 = forLoop fuel w ch b e i st.
Proof.
  induction 1 as [|n i st st' Hreach IH Hi Hbody]; intros fuel; [done|].
  replace (S n + fuel)%nat with (n + S fuel)%nat by lia.
  rewrite IH, forLoop_unfold by done. unfold bind. by rewrite Hbody.
Qed.

Lemma process_at w ch st0 b e n i st fuel :
  pass_at w ch st0 b e n i st →
  process (n + fuel) w ch st0 = returning (forLoop fuel w ch b e i) st.
Proof.
  intros (start & st1 & Hwin & Hreach).
  unfold process, returning, bind. rewrite Hwin. simpl.
  by rewrite (forLoop_reaches _ _ _ _ _ _ _ _ _ Hreach).
Qed.

(** The loop body at a sequence without rows, and at a sequence with
    rows up to the point where the claim is built. *)
Lemma loopBody_gap w ch b i st :
  GetPackagesByOracleSequence_err w i = None →
  packages_by_sequence (store st) i = [] →
  loopBody w ch b i st = (Halt, logged (EvGetPackages i) st).
Proof.
  intros Herr Hpkgs. unfold loopBody, GetPackagesByOracleSequence, bind, emit, check, get, ret.
  rewrite Herr. simpl. by rewrite Hpkgs.
Qed.

Lemma atClaim_frame w i pkg0 st :
  store (atClaim w i pkg0 st) = store st ∧
  exec (atClaim w i pkg0 st) = exec st ∧
  relayerNonce (asm (atClaim w i pkg0 st)) = relayerNonce (asm st) ∧
  inturnRelayerSequenceStatus (asm (atClaim w i pkg0 st))
    = inturnRelayerSequenceStatus (asm st) ∧
  broadcasts (trace (atClaim w i pkg0 st)) = broadcasts (trace st).
Proof.
  unfold atClaim, raiseDelayAlert.
  destruct (txDelayed w i (TxTime pkg0)); simpl;
    rewrite ?broadcasts_snoc; simpl; by rewrite ?app_nil_r.
Qed.

Lemma raiseDelayAlert_val w i pkg0 st :
  raiseDelayAlert w i (TxTime pkg0) (logged (EvGetPackages i) st)
    = (Val tt, atClaim w i pkg0 st).
Proof. unfold atClaim, raiseDelayAlert. by destruct (txDelayed w i (TxTime pkg0)). Qed.

Lemma loopBody_rows w ch b i st pkg0 rest :
  GetPackagesByOracleSequence_err w i = None →
  packages_by_sequence (store st) i = pkg0 :: rest →
  loopBody w ch b i st =
    (if bool_decide (Status pkg0 ≠ AllVoted) && bool_decide (Status pkg0 ≠ Delivered)
     then fail (ErrNotEnoughVotes i)
     else if negb b && (now_timeout w i
                          <? add64 (TxTime pkg0) (BSCToGreenfieldInturnRelayerTimeout w))
     then halt
     else claimOrCalibrate w ch b i (pkg0 :: rest)) (atClaim w i pkg0 st).
Proof.
  intros Herr Hpkgs.
  unfold loopBody, GetPackagesByOracleSequence, bind, emit, check, get, ret.
  rewrite Herr. cbn -[raiseDelayAlert claimOrCalibrate packages_by_sequence].
  rewrite Hpkgs.
  by rewrite raiseDelayAlert_val.
Qed.

(** ** A gap in the store ends the pass *)

(** C8: when the loop of a pass stands at a sequence of the window for
    which the store returns no rows, the pass returns [nil]; all it has
    done since is that read of the store, so that no claim is broadcast
    for this sequence nor for a later one. *)
Theorem gap_defers_pass w ch st0 b e n i st fuel :
  pass_at w ch st0 b e n i st →
  i <= uint64 e →
  GetPackagesByOracleSequence_err w i = None →
  packages_by_sequence (store st) i = [] →
  process (n + S fuel) w ch st0 = (Val tt, logged (EvGetPackages i) st) ∧
  broadcasts (trace (snd (process (n + S fuel) w ch st0))) = broadcasts (trace st).
Proof.
  intros Hat Hi Herr Hpkgs.
  assert (process (n + S fuel) w ch st0 = (Val tt, logged (EvGetPackages i) st)) as Hrun.
  { rewrite (process_at _ _ _ _ _ _ _ _ _ Hat). unfold returning.
    rewrite forLoop_unfold by done. unfold bind.
    by rewrite loopBody_gap. }
  split; [done|]. rewrite Hrun. simpl. rewrite broadcasts_snoc. simpl.
  by rewrite app_nil_r.
Qed.

Lemma gap_defers_pass_witness :
  fst (process 2 world_gap 0 (fresh rows_gap)) = Val tt ∧
  broadcasts (trace (snd (process 2 world_gap 0 (fresh rows_gap)))) = [(5, 10)].
Proof.
  assert (∃ st, pass_at world_gap 0 (fresh rows_gap) true 7 1 6 st ∧
                packages_by_sequence (store st) 6 = [] ∧
                broadcasts (trace st) = [(5, 10)]) as (st & Hat & Hpkgs & Hb).
  { eexists. split; [|split].
    - eexists _, _. split; [vm_compute; reflexivity|].
      change 6 with (uint64 (5 + 1)).
      eapply reaches_next; [apply reaches_start|vm_compute; by intros [=]|].
      vm_compute. reflexivity.
    - reflexivity.
    - reflexivity. }
  destruct (gap_defers_pass world_gap 0 (fresh rows_gap) true 7 1 6 st 0 Hat)
    as [Hrun Hcl]; [vm_compute; by intros [=]|reflexivity|exact Hpkgs|].
  split.
  - exact (f_equal fst Hrun).
  - exact (eq_trans Hcl Hb).
Defined.

(** ** The in-turn timeout binds the stand-by relayer *)

Lemma status_test_spec (p : BscRelayPackage) :
  bool_decide (Status p ≠ AllVoted) && bool_decide (Status p ≠ Delivered)
    = negb (bool_decide (Status p = AllVoted ∨ Status p = Delivered)).
Proof. by destruct (Status p). Qed.

(** C5: no claim broadcast by a stand-by pass is for a sequence whose
    first row was still within the in-turn timeout; when the loop of a
    stand-by pass stands at a sequence whose first row is within the
    timeout, the pass returns at once ([nil], or the error of a sequence
    that is not voted) and broadcasts nothing for this sequence nor for
    a later one. *)
Theorem standby_waits_for_inturn_timeout w ch st0 :
  role_is w st0 false →
  (∀ fuel, claims_ok (waited w) (trace st0) →
           claims_ok (waited w) (trace (snd (process fuel w ch st0)))) ∧
  (∀ e n i st fuel pkg0 rest,
     pass_at w ch st0 false e n i st →
     i <= uint64 e →
     GetPackagesByOracleSequence_err w i = None →
     packages_by_sequence (store st) i = pkg0 :: rest →
     now_timeout w i < add64 (TxTime pkg0) (BSCToGreenfieldInturnRelayerTimeout w) →
     process (n + S fuel) w ch st0 =
       (if bool_decide (Status pkg0 = AllVoted ∨ Status pkg0 = Delivered)
        then Val tt else Fail (ErrNotEnoughVotes i),
        atClaim w i pkg0 st) ∧
     broadcasts (trace (atClaim w i pkg0 st)) = broadcasts (trace st)).
Proof.
  intros Hrole. split.
  - intros fuel Hst.
    apply (wp_invariant _ (λ st, claims_ok (waited w) (trace st))).
    apply (process_inv w false _ (λ _, True)); try done.
    + intros ev st' Hq H. apply claims_ok_logged; [done|].
      intros msg opt rows ->. done.
    + intros i st' _ H. apply claims_ok_logged; [done|]. intros; discriminate.
    + intros msg opt st' p ps Hpkgs [_ Htime] H. apply claims_ok_logged; [done|].
      intros msg' opt' rows' [= <- <- <-]. exists p, ps. split; [done|]. by apply Htime.
    + intros b' Hb'. by eapply role_is_fun.
  - intros e n i st fuel pkg0 rest Hat Hi Herr Hpkgs Htime.
    split; [|apply atClaim_frame].
    rewrite (process_at _ _ _ _ _ _ _ _ _ Hat). unfold returning.
    rewrite forLoop_unfold by done. unfold bind.
    rewrite (loopBody_rows _ _ _ _ _ _ _ Herr Hpkgs), status_test_spec.
    destruct (bool_decide (Status pkg0 = AllVoted ∨ Status pkg0 = Delivered)); simpl.
    + by destruct (Z.ltb_spec (now_timeout w i)
                     (add64 (TxTime pkg0) (BSCToGreenfieldInturnRelayerTimeout w)));
        [|lia].
    + done.
Qed.

Lemma world_standby_early_role rows : role_is world_standby_early (fresh rows) false.
Proof.
  exists {| BlsPubKey := "ffff"; RelayInterval_ := {| Start := 50; End_ := 200 |} |},
         [255; 255].
  repeat split.
Defined.

Lemma standby_waits_for_inturn_timeout_witness :
  fst (process 1 world_standby_early 0 (fresh rows_seq7)) = Val tt ∧
  broadcasts (trace (snd (process 1 world_standby_early 0 (fresh rows_seq7)))) = [].
Proof.
  destruct (standby_waits_for_inturn_timeout world_standby_early 0 (fresh rows_seq7)
              (world_standby_early_role rows_seq7)) as [_ Hstep].
  assert (∃ st, pass_at world_standby_early 0 (fresh rows_seq7) false 8 0 7 st ∧
                packages_by_sequence (store st) 7 = [mkPkg 1 7 50 AllVoted] ∧
                broadcasts (trace st) = []) as (st & Hat & Hpkgs & Hb).
  { eexists. split; [|split].
    - eexists _, _. split; [vm_compute; reflexivity|]. apply reaches_start.
    - reflexivity.
    - reflexivity. }
  destruct (Hstep 8 0%nat 7 st 0%nat (mkPkg 1 7 50 AllVoted) [] Hat) as [Hrun Hcl];
    [vm_compute; by intros [=]|reflexivity|exact Hpkgs|vm_compute; reflexivity|].
  split.
  - exact (f_equal fst Hrun).
  - exact (eq_trans (f_equal (λ r, broadcasts (trace (snd r))) Hrun) (eq_trans Hcl Hb)).
Defined.

(** ** Calibration of the in-turn relayer *)

(** C2: when the loop of an in-turn pass stands at a voted sequence and
    the batch processor fails for it, and the nonce at the next block
    and the next delivery oracle sequence can be fetched, the pass
    returns the error of the batch processor with the nonce and the
    next delivery sequence of the cursor overwritten by the fetched
    values; nothing else of the cursor nor of the store has changed, and
    the sequence was broadcast at most once, with the nonce the cursor
    had. *)
Theorem inturn_failure_calibrates w ch st0 e n i st fuel pkg0 rest err st1 newNonce newSeq :
  pass_at w ch st0 true e n i st →
  i <= uint64 e →
  GetPackagesByOracleSequence_err w i = None →
  packages_by_sequence (store st) i = pkg0 :: rest →
  Status pkg0 = AllVoted ∨ Status pkg0 = Delivered →
  processPkgs w (pkg0 :: rest) (uint8 ch) i (relayerNonce (asm st)) true
    (atClaim w i pkg0 st) = (Fail err, st1) →
  GetNonceOnNextBlock w = Ok newNonce →
  GetNextDeliveryOracleSequenceWithRetry_calibration w = Ok newSeq →
  ∃ st',
    process (n + S fuel) w ch st0 = (Fail err, st') ∧
    relayerNonce (asm st') = newNonce ∧
    NextDeliverySeq (inturnRelayerSequenceStatus (asm st')) = newSeq ∧
    HasRetrieved (inturnRelayerSequenceStatus (asm st'))
      = HasRetrieved (inturnRelayerSequenceStatus (asm st)) ∧
    store st' = store st ∧
    (broadcasts (trace st') = broadcasts (trace st) ∨
     broadcasts (trace st') = broadcasts (trace st) ++ [(i, relayerNonce (asm st))]).
Proof.
  intros Hat Hi Herr Hpkgs Hstatus Hfail Hnonce Hseq.
  destruct (atClaim_frame w i pkg0 st) as (Hstore & _ & Hn & Hcur & Hb).
  pose proof (processPkgs_spec w (pkg0 :: rest) (uint8 ch) i (relayerNonce (asm st)) true
                (atClaim w i pkg0 st)) as Hspec.
  unfold wp in Hspec. rewrite Hfail in Hspec.
  destruct Hspec as (_ & _ & Hasm & Hstore1 & Hb1).
  eexists. split.
  - rewrite (process_at _ _ _ _ _ _ _ _ _ Hat). unfold returning.
    rewrite forLoop_unfold by done. unfold bind at 1.
    rewrite (loopBody_rows _ _ _ _ _ _ _ Herr Hpkgs), status_test_spec.
    rewrite bool_decide_eq_true_2 by done. simpl.
    unfold claimOrCalibrate, bind, get, call. rewrite Hn, Hfail. simpl.
    rewrite Hnonce. simpl. rewrite Hseq. simpl. reflexivity.
  - simpl. rewrite Hasm, Hcur, Hstore1, Hstore, <- Hb. done.
Qed.

Lemma inturn_failure_calibrates_witness :
  ∃ st',
    process 1 world_collision 0 (fresh rows_voted)
      = (Fail (ErrClaim 32 "account sequence mismatch"), st') ∧
    relayerNonce (asm st') = 13 ∧
    NextDeliverySeq (inturnRelayerSequenceStatus (asm st')) = 8.
Proof.
  pose (st := snd (window world_collision 0 (fresh rows_voted))).
  pose (st1 := snd (processPkgs world_collision [mkPkg 1 7 50 AllVoted] (uint8 0) 7
                      (relayerNonce (asm st)) true
                      (atClaim world_collision 7 (mkPkg 1 7 50 AllVoted) st))).
  assert (pass_at world_collision 0 (fresh rows_voted) true 8 0 7 st) as Hat.
  { exists 7, st. split; [vm_compute; reflexivity|apply reaches_start]. }
  destruct (inturn_failure_calibrates world_collision 0 (fresh rows_voted) 8 0 7 st 0
              (mkPkg 1 7 50 AllVoted) [] (ErrClaim 32 "account sequence mismatch")
              st1 13 8 Hat)
    as (st' & Hrun & Hnonce & Hseq & _);
    [vm_compute; by intros [=]|reflexivity|reflexivity|by left
    |vm_compute; reflexivity|reflexivity|reflexivity|].
  exists st'. split; [exact Hrun|]. split; [exact Hnonce|exact Hseq].
Defined.

(** ** A successful in-turn claim *)

Lemma packages_by_sequence_marked ids h (rows : list BscRelayPackage) i :
  (∀ p, p ∈ rows → OracleSequence p = i → Id p ∈ ids) →
  packages_by_sequence (mark_batch_status_and_claimed_tx_hash ids Delivered h rows) i
    = delivered_by h <$> packages_by_sequence rows i.
Proof.
  unfold packages_by_sequence, mark_batch_status_and_claimed_tx_hash.
  induction rows as [|p rows IH]; intros Hids; [done|].
  assert (∀ q, q ∈ rows → OracleSequence q = i → Id q ∈ ids) as Hrows
    by (intros q Hq; apply Hids; by right).
  cbn [fmap list_fmap]. rewrite !filter_cons.
  destruct (decide (OracleSequence p = i)) as [Hp|Hp].
  - rewrite bool_decide_eq_true_2 by (apply Hids; [left|done]).
    simpl. rewrite decide_True by done. cbn [fmap list_fmap]. f_equal. by apply IH.
  - case_bool_decide; simpl; rewrite decide_False by done; by apply IH.
Qed.

Lemma packages_by_sequence_ids (rows : list BscRelayPackage) i p :
  p ∈ rows → OracleSequence p = i → Id p ∈ Id <$> packages_by_sequence rows i.
Proof.
  intros Hp Hseq. apply list_elem_of_fmap. exists p. split; [done|].
  unfold packages_by_sequence. by apply list_elem_of_filter.
Qed.

(** When the loop body completes, the claim of the sequence went
    through. *)
Lemma loopBody_val_inv w ch b i st st' :
  loopBody w ch b i st = (Val tt, st') →
  ∃ pkg0 rest st1,
    packages_by_sequence (store st) i = pkg0 :: rest ∧
    processPkgs w (pkg0 :: rest) (uint8 ch) i (relayerNonce (asm st)) b
      (atClaim w i pkg0 st) = (Val tt, st1) ∧
    st' = withAsm (set_relayerNonce (uint64 (relayerNonce (asm st1) + 1)) (asm st1)) st1.
Proof.
  intros Hrun.
  destruct (GetPackagesByOracleSequence_err w i) as [e|] eqn:Herr.
  { unfold loopBody, GetPackagesByOracleSequence, bind, emit, check in Hrun.
    rewrite Herr in Hrun. discriminate. }
  destruct (packages_by_sequence (store st) i) as [|pkg0 rest] eqn:Hpkgs.
  { rewrite loopBody_gap in Hrun by done. discriminate. }
  rewrite (loopBody_rows _ _ _ _ _ _ _ Herr Hpkgs) in Hrun.
  destruct (bool_decide (Status pkg0 ≠ AllVoted) && bool_decide (Status pkg0 ≠ Delivered));
    [discriminate|].
  destruct (negb b && _); [discriminate|].
  destruct (atClaim_frame w i pkg0 st) as (_ & _ & Hn & _).
  unfold claimOrCalibrate, bind, get, call in Hrun. rewrite Hn in Hrun.
  pose proof (processPkgs_spec w (pkg0 :: rest) (uint8 ch) i (relayerNonce (asm st)) b
                (atClaim w i pkg0 st)) as Hspec.
  unfold wp in Hspec.
  destruct (processPkgs w (pkg0 :: rest) (uint8 ch) i (relayerNonce (asm st)) b
              (atClaim w i pkg0 st)) as [[[]|e| | |] st1] eqn:Hpp.
  - exists pkg0, rest, st1. split; [done|]. split; [done|].
    unfold modifyAsm in Hrun. by injection Hrun as <-.
  - destruct (negb b); [discriminate|]. unfold try, fail, modifyAsm in Hrun.
    destruct (GetNonceOnNextBlock w); [|discriminate].
    destruct (GetNextDeliveryOracleSequenceWithRetry_calibration w); discriminate.
  - by destruct Hspec as [? _].
  - discriminate.
  - discriminate.
Qed.

(** C4: when the loop body of an in-turn pass completes for sequence
    [i], that is, when the batch processor succeeded for it, the claim
    was broadcast with the nonce of the cursor and accepted; in one
    update of the table all rows of the batch are [Delivered] and carry
    the hash of that transaction; the next delivery sequence of the
    cursor is [i + 1] and its nonce is one more than before (in
    [uint64] arithmetic). *)
Theorem inturn_success_delivers w ch i st st' :
  loopBody w ch true i st = (Val tt, st') →
  ∃ msg opt txRes,
    EvBroadcast msg opt (store st) ∈ trace st' ∧
    Sequence msg = i ∧ Nonce opt = relayerNonce (asm st) ∧
    BroadcastTx w msg opt = Ok txRes ∧ Code txRes = 0 ∧
    store st' =
      mark_batch_status_and_claimed_tx_hash (Id <$> packages_by_sequence (store st) i)
        Delivered (TxHash txRes) (store st) ∧
    packages_by_sequence (store st') i
      = delivered_by (TxHash txRes) <$> packages_by_sequence (store st) i ∧
    (∀ p, p ∈ packages_by_sequence (store st') i →
          Status p = Delivered ∧ ClaimedTxHash p = TxHash txRes) ∧
    NextDeliverySeq (inturnRelayerSequenceStatus (asm st')) = uint64 (i + 1) ∧
    relayerNonce (asm st') = uint64 (relayerNonce (asm st) + 1).
Proof.
  intros Hrun.
  destruct (loopBody_val_inv _ _ _ _ _ _ Hrun) as (pkg0 & rest & st1 & Hpkgs & Hpp & ->).
  destruct (atClaim_frame w i pkg0 st) as (Hstore & _ & Hn & _).
  pose proof (wp_val _ _ _ _ _ _ (processPkgs_spec _ _ _ _ _ _ _) Hpp)
    as (msg & opt & txRes & p0 & _ & Hb & Hcode & Hseq & Hnonce & Htrace & Hstore1 & Hasm).
  rewrite Hstore in Htrace, Hstore1. rewrite <- Hpkgs in Hstore1.
  assert (packages_by_sequence (store st1) i
          = delivered_by (TxHash txRes) <$> packages_by_sequence (store st) i) as Hrows.
  { rewrite Hstore1. apply packages_by_sequence_marked.
    intros p Hp Hi. by apply packages_by_sequence_ids. }
  exists msg, opt, txRes. simpl. repeat split; try done.
  - rewrite Htrace. apply elem_of_app. right. left.
  - rewrite Hrows in H. by apply list_elem_of_fmap in H as (q & -> & _).
  - rewrite Hrows in H. by apply list_elem_of_fmap in H as (q & -> & _).
  - by rewrite Hasm.
  - rewrite Hasm. cbn [relayerNonce set_NextDeliverySeq]. by rewrite Hn.
Qed.

Lemma inturn_success_delivers_witness :
  Status <$> store (snd (loopBody (world_inturn 8) 0 true 7 (inturn_at 7 10 rows_voted)))
    = [Delivered; AllVoted] ∧
  NextDeliverySeq (inturnRelayerSequenceStatus
    (asm (snd (loopBody (world_inturn 8) 0 true 7 (inturn_at 7 10 rows_voted))))) = 8 ∧
  relayerNonce (asm (snd (loopBody (world_inturn 8) 0 true 7 (inturn_at 7 10 rows_voted))))
    = 11.
Proof.
  destruct (inturn_success_delivers (world_inturn 8) 0 7 (inturn_at 7 10 rows_voted)
              (snd (loopBody (world_inturn 8) 0 true 7 (inturn_at 7 10 rows_voted))))
    as (msg & opt & txRes & _ & _ & _ & _ & _ & _ & _ & _ & Hseq & Hnonce).
  - vm_compute. reflexivity.
  - split; [reflexivity|]. split; [exact Hseq|exact Hnonce].
Defined.

(** ** The first in-turn pass after a role flip *)

Lemma timeDiff_exact now start :
  0 <= now < two63 → 0 <= start < two63 →
  sub64 now (int64 start) = now - start.
Proof.
  intros Hnow Hstart. unfold sub64.
  rewrite (int64_id start) by (unfold is_int64; lia).
  apply int64_id. unfold is_int64. lia.
Qed.

(** C7: on an in-turn pass with [has_retrieved] unset and a grace period
    that is not negative, let [time_diff] be [now - relay_interval_start]
    as the code computes it (the difference itself for times that fit
    [int64]).  If [time_diff < 0] the pass fails with the clock-skew
    error; if [0 <= time_diff < grace_period] it returns [nil]; in both
    cases the pass has only reported the role to the metrics: cursor,
    nonce and store are untouched, [has_retrieved] is still false and
    nothing was broadcast.  Otherwise, when the delivery sequence and the
    nonce can be fetched, they are stored in the cursor and
    [has_retrieved] is set, and the window starts at the fetched
    sequence. *)
Theorem fresh_inturn_cursor fuel w ch st r k :
  GetInturnRelayer w = Ok r →
  hex_DecodeString (BlsPubKey r) = Ok k →
  bytes_Equal (blsPubKey (asm st)) k = true →
  HasRetrieved (inturnRelayerSequenceStatus (asm st)) = false →
  0 <= GreenfieldSequenceUpdateLatency w →
  let time_diff := sub64 (now_cursor w) (int64 (Start (RelayInterval_ r))) in
  let st1 :=
    logged (EvSetGnfdInturnRelayerMetrics true (Start (RelayInterval_ r))
              (End_ (RelayInterval_ r))) st in
  (0 <= now_cursor w < two63 → 0 <= Start (RelayInterval_ r) < two63 →
     time_diff = now_cursor w - Start (RelayInterval_ r)) ∧
  (time_diff < 0 →
     process fuel w ch st
       = (Fail (ErrClockSkew (now_cursor w) (Start (RelayInterval_ r))), st1)) ∧
  (0 <= time_diff < GreenfieldSequenceUpdateLatency w →
     process fuel w ch st = (Val tt, st1)) ∧
  (asm st1 = asm st ∧ store st1 = store st ∧
   broadcasts (trace st1) = broadcasts (trace st)) ∧
  (GreenfieldSequenceUpdateLatency w <= time_diff →
     ∀ seq nonce,
       GetNextDeliveryOracleSequenceWithRetry w = Ok seq →
       GetNonce w = Ok nonce →
       (role <- resolveRole w;; establishCursor w (fst role) (snd role)) st
         = (Val seq,
            withAsm {| blsPubKey := blsPubKey (asm st);
                       inturnRelayerSequenceStatus :=
                         {| HasRetrieved := true; NextDeliverySeq := seq |};
                       relayerNonce := nonce;
                       alertSet := alertSet (asm st) |} st1)).
Proof.
  intros Hr Hk Hrole Hfresh Hgrace time_diff st1.
  assert (resolveRole w st = (Val (true, r), st1)) as Hres.
  { unfold resolveRole, bind, try, get, emit, ret.
    rewrite Hr. simpl. rewrite Hk. simpl. by rewrite Hrole. }
  assert (HasRetrieved (inturnRelayerSequenceStatus (asm st1)) = false) as Hfresh1
    by done.
  split; [|split; [|split; [|split]]].
  - apply timeDiff_exact.
  - intros Hneg. unfold process, window, returning, bind. rewrite Hres. cbn [fst snd].
    unfold establishCursor, bind, get. rewrite Hfresh1. cbn [negb].
    fold time_diff.
    destruct (Z.ltb_spec time_diff (GreenfieldSequenceUpdateLatency w)); [|lia].
    by destruct (Z.ltb_spec time_diff 0); [|lia].
  - intros [Hpos Hlt]. unfold process, window, returning, bind. rewrite Hres.
    cbn [fst snd].
    unfold establishCursor, bind, get. rewrite Hfresh1. cbn [negb].
    fold time_diff.
    destruct (Z.ltb_spec time_diff (GreenfieldSequenceUpdateLatency w)); [|lia].
    by destruct (Z.ltb_spec time_diff 0); [lia|].
  - repeat split. subst st1. simpl. rewrite broadcasts_snoc. simpl.
    by rewrite app_nil_r.
  - intros Hge seq nonce Hseq Hnonce. unfold bind at 1. rewrite Hres. cbn [fst snd].
    unfold establishCursor, bind, get. rewrite Hfresh1. cbn [negb].
    fold time_diff.
    destruct (Z.ltb_spec time_diff (GreenfieldSequenceUpdateLatency w)); [lia|].
    unfold try. rewrite Hseq, Hnonce. reflexivity.
Qed.

Lemma fresh_inturn_cursor_witness :
  fst (process 1 world_skew 0 (fresh rows_voted)) = Fail (ErrClockSkew 40 50) ∧
  asm (snd (process 1 world_skew 0 (fresh rows_voted))) = asm (fresh rows_voted).
Proof.
  destruct (fresh_inturn_cursor 1 world_skew 0 (fresh rows_voted)
              {| BlsPubKey := "abcd"; RelayInterval_ := {| Start := 50; End_ := 200 |} |}
              [171; 205])
    as (_ & Hskew & _ & _ & _);
    [reflexivity|reflexivity|reflexivity|reflexivity|vm_compute; by intros [=]|].
  split.
  - exact (f_equal fst (Hskew eq_refl)).
  - exact (f_equal (λ x, asm (snd x)) (Hskew eq_refl)).
Defined.

(* ===================================================================== *)
(** * Further properties of the pipeline *)
(* ===================================================================== *)

(** ** One iteration of the loop, in full *)

Lemma broadcasts_app tr1 tr2 :
  broadcasts (tr1 ++ tr2) = broadcasts tr1 ++ broadcasts tr2.
Proof. unfold broadcasts. apply omap_app. Qed.

Lemma claimOrCalibrate_spec w ch b i pkgs sa :
  wp (claimOrCalibrate w ch b i pkgs)
     (λ _ st', body_done b i sa st' ∧ alertSet (asm st') = alertSet (asm sa))
     (λ ab st', body_aborted b i sa ab st' ∧ ab ≠ AHalt ∧
                alertSet (asm st') = alertSet (asm sa))
     sa.
Proof.
  unfold claimOrCalibrate.
  wp_step. wp_step. wp_step. apply wp_call.
  eapply wp_mono; [apply processPkgs_spec| |].
  - intros u st' (msg & opt & txRes & pkg0 & _ & _ & _ & Hseq & Hnonce & Htrace & _ & Hasm).
    wp_step. unfold body_done. cbn [asm trace withAsm relayerNonce set_relayerNonce
      blsPubKey inturnRelayerSequenceStatus alertSet].
    rewrite Htrace, broadcasts_app, Hasm. cbn. rewrite Hseq, Hnonce.
    by destruct b.
  - intros ab st' (Hhalt & Hfuel & Hasm & _ & Hb).
    destruct ab as [e| | |]; try done; cbv beta iota.
    + destruct b; cbn [negb];
        repeat wp_step; unfold body_aborted;
        cbn [asm trace withAsm relayerNonce set_relayerNonce set_NextDeliverySeq
               blsPubKey inturnRelayerSequenceStatus alertSet HasRetrieved];
        rewrite ?Hasm; by repeat split.
    + unfold body_aborted. rewrite Hasm. by repeat split.
Qed.

Lemma atClaim_alerts w i pkg0 st :
  blsPubKey (asm (atClaim w i pkg0 st)) = blsPubKey (asm st) ∧
  alertSet (asm (atClaim w i pkg0 st))
    = (if txDelayed w i (TxTime pkg0) then {[ i ]} ∪ alertSet (asm st)
       else alertSet (asm st)).
Proof. unfold atClaim, raiseDelayAlert. by destruct (txDelayed w i (TxTime pkg0)). Qed.

Lemma atClaim_alerts_grow w i pkg0 st :
  alertSet (asm st) ⊆ alertSet (asm (atClaim w i pkg0 st)).
Proof.
  destruct (atClaim_alerts w i pkg0 st) as [_ ->].
  destruct (txDelayed w i (TxTime pkg0)); set_solver.
Qed.

Lemma loopBody_load_error w ch b i st e :
  GetPackagesByOracleSequence_err w i = Some e →
  loopBody w ch b i st = (Fail e, logged (EvGetPackages i) st).
Proof.
  intros Herr. unfold loopBody, GetPackagesByOracleSequence, bind, emit, check.
  by rewrite Herr.
Qed.

Lemma broadcasts_load i st :
  broadcasts (trace (logged (EvGetPackages i) st)) = broadcasts (trace st).
Proof. simpl. rewrite broadcasts_snoc. simpl. by rewrite app_nil_r. Qed.

(** The loop body, whatever its outcome. *)
Lemma loopBody_spec w ch b i st :
  wp (loopBody w ch b i) (λ _, body_done b i st) (body_aborted b i st) st.
Proof.
  unfold wp.
  destruct (GetPackagesByOracleSequence_err w i) as [e|] eqn:Herr.
  { rewrite (loopBody_load_error _ _ _ _ _ _ Herr).
    unfold body_aborted. rewrite broadcasts_load. by repeat split; auto. }
  destruct (packages_by_sequence (store st) i) as [|pkg0 rest] eqn:Hpkgs.
  { rewrite loopBody_gap by done.
    unfold body_aborted. rewrite broadcasts_load. by repeat split; auto. }
  rewrite (loopBody_rows _ _ _ _ _ _ _ Herr Hpkgs).
  destruct (atClaim_frame w i pkg0 st) as (_ & _ & Hn & Hcur & Hb).
  destruct (atClaim_alerts w i pkg0 st) as [Hkey _].
  pose proof (atClaim_alerts_grow w i pkg0 st) as Hgrow.
  destruct (bool_decide (Status pkg0 ≠ AllVoted) && bool_decide (Status pkg0 ≠ Delivered)).
  { unfold fail, body_aborted. rewrite Hb, Hkey, Hcur, Hn. by repeat split; auto. }
  destruct (negb b && _).
  { unfold halt, body_aborted. rewrite Hb, Hkey, Hcur, Hn. by repeat split; auto. }
  pose proof (claimOrCalibrate_spec w ch b i (pkg0 :: rest) (atClaim w i pkg0 st)) as Hspec.
  unfold wp, body_done, body_aborted in Hspec.
  rewrite Hb, Hn, Hkey, Hcur in Hspec.
  destruct (claimOrCalibrate w ch b i (pkg0 :: rest) (atClaim w i pkg0 st))
    as [[u|e| | |] st'].
  - destruct Hspec as [(H1 & H2 & H3 & H4 & _ & H6) Ha].
    unfold body_done. rewrite Ha. by repeat split.
  - destruct Hspec as ((H0 & H1 & H2 & H3 & _ & H5 & H6) & _ & Ha).
    unfold body_aborted. rewrite Ha.
    repeat split; try done; try (by apply H5); by apply H6.
  - by destruct Hspec as (_ & ? & _).
  - destruct Hspec as ((H0 & H1 & H2 & H3 & _ & H5 & H6) & _ & Ha).
    unfold body_aborted. rewrite Ha.
    repeat split; try done; try (by apply H5); by apply H6.
  - by destruct Hspec as ((? & _) & _).
Qed.

(** ** The loop of a pass, in full *)

Lemma loop_effect_refl b i st returned : loop_effect b i st returned st.
Proof.
  exists 0%nat. simpl. rewrite app_nil_r, andb_false_r. by repeat split.
Qed.

Lemma loop_effect_step b i st st1 returned st' :
  body_done b i st st1 →
  loop_effect b (uint64 (i + 1)) st1 returned st' →
  loop_effect b i st returned st'.
Proof.
  intros (H1 & H2 & H3 & H4 & H5 & H6) (k & K1 & K2 & K3 & K4 & K5 & K6).
  exists (S k). simpl.
  split; [by rewrite K1, H1, H2, <- app_assoc|].
  split; [congruence|]. split; [congruence|]. split; [by etrans|].
  split.
  - intros Hb. rewrite (K5 Hb), H6, Hb. done.
  - intros Hr. pose proof (K6 Hr) as [K7 K8]. rewrite K7, K8, H2, H6.
    split; [done|]. rewrite andb_true_r. destruct b; simpl; [|done].
    by destruct k.
Qed.

Lemma loop_effect_abort b i st ab st' :
  body_aborted b i st ab st' →
  loop_effect b i st (bool_decide (ab = AHalt)) st'.
Proof.
  intros (H0 & H1 & H2 & H3 & H4 & H5 & H6).
  destruct (decide (ab = AHalt)) as [Hh|Hh].
  - destruct (H6 Hh) as (B1 & B2 & B3).
    exists 0%nat. simpl. rewrite app_nil_r, andb_false_r, B2. by repeat split.
  - rewrite bool_decide_eq_false_2 by done.
    destruct H1 as [H1|H1].
    + exists 0%nat. simpl. rewrite app_nil_r.
      repeat split; try done. intros Hb. by destruct (H5 Hb) as [-> _].
    + exists 1%nat. simpl.
      repeat split; try done. intros Hb. by destruct (H5 Hb) as [-> _].
Qed.

Lemma forLoop_spec w ch b e fuel : ∀ i st,
  wp (forLoop fuel w ch b e i)
     (λ _, loop_effect b i st true)
     (λ ab, loop_effect b i st (bool_decide (ab = AHalt))) st.
Proof.
  induction fuel as [|fuel IH]; intros i st; simpl.
  - destruct (i <=? uint64 e); apply loop_effect_refl.
  - destruct (i <=? uint64 e); [|apply loop_effect_refl].
    apply wp_bind. eapply wp_mono; [apply loopBody_spec| |].
    + intros u st1 Hdone. cbv beta.
      eapply wp_mono; [apply IH| |]; cbv beta; intros;
        (eapply loop_effect_step; [exact Hdone|eassumption]).
    + intros ab st1 Hab. by apply loop_effect_abort.
Qed.

(** ** Role, cursor and window *)

Lemma window_spec w ch st0 b :
  role_is w st0 b →
  wp (window w ch)
     (λ win st1, fst (fst win) = b ∧ window_effect b st0 st1 ∧
                 window_start w b st0 (snd (fst win)) st1)
     (λ ab st1, ab ≠ AOutOfFuel ∧ ab ≠ APanic ∧ window_effect b st0 st1)
     st0.
Proof.
  intros (r & k & Hr & Hk & Hb).
  unfold window, resolveRole, establishCursor, updateMetrics, selectEndSequence,
    reconcileAlerts.
  repeat wp_step;
    unfold window_effect, window_start;
    cbn [fst snd asm trace store logged withAsm relayerNonce set_relayerNonce
           set_NextDeliverySeq set_HasRetrieved set_alertSet blsPubKey
           inturnRelayerSequenceStatus alertSet HasRetrieved NextDeliverySeq] in *;
    rewrite ?broadcasts_snoc; cbn [broadcast_of]; rewrite ?app_nil_r;
    try congruence;
    repeat match goal with
    | H : GetInturnRelayer w = Ok ?a |- _ =>
        is_var a; assert (a = r) by congruence; subst a; clear H
    | H : hex_DecodeString _ = Ok ?a |- _ =>
        is_var a; assert (a = k) by congruence; subst a; clear H
    end;
    subst b;
    repeat match goal with
    | H : bytes_Equal _ _ = _ |- _ => rewrite H in *; clear H
    | H : negb _ = true |- _ => apply negb_true_iff in H
    | H : negb _ = false |- _ => apply negb_false_iff in H
    end;
    repeat split; intros; try done; try congruence.
Qed.

Lemma process_run fuel w ch st0 :
  process fuel w ch st0 =
    match window w ch st0 with
    | (Val win, st1) =>
        returning (forLoop fuel w ch (fst (fst win)) (snd win) (snd (fst win))) st1
    | (Fail e, st1) => (Fail e, st1)
    | (Halt, st1) => (Val tt, st1)
    | (Panic, st1) => (Panic, st1)
    | (OutOfFuel, st1) => (OutOfFuel, st1)
    end.
Proof.
  unfold process, returning, bind.
  by destruct (window w ch st0) as [[win|e| | |] st1].
Qed.

(** A pass, in full: either lines 62-150 end it, or they hand a window
    to the loop. *)
Lemma process_effect fuel w ch st0 b :
  role_is w st0 b →
  (∃ o st1, window w ch st0 = (o, st1) ∧ (∀ win, o ≠ Val win) ∧
            window_effect b st0 st1 ∧ snd (process fuel w ch st0) = st1) ∨
  (∃ start e st1,
     window w ch st0 = (Val (b, start, e), st1) ∧
     window_effect b st0 st1 ∧ window_start w b st0 start st1 ∧
     loop_effect b start st1 (returned_nil (fst (process fuel w ch st0)))
       (snd (process fuel w ch st0))).
Proof.
  intros Hrole. pose proof (window_spec w ch st0 b Hrole) as Hwin.
  unfold wp in Hwin. rewrite process_run.
  destruct (window w ch st0) as [[[[b' start] e]|err| | |] st1] eqn:Hw.
  - right. destruct Hwin as (Hb & Heff & Hstart). simpl in Hb, Hstart. subst b'.
    exists start, e, st1. split; [done|]. split; [done|]. split; [done|].
    cbn [fst snd].
    pose proof (forLoop_spec w ch b e fuel start st1) as Hloop.
    unfold wp in Hloop. unfold returning.
    destruct (forLoop fuel w ch b e start st1) as [[[]|err| | |] st']; exact Hloop.
  - left. exists (Fail err), st1. by destruct Hwin as (_ & _ & ?).
  - left. exists Halt, st1. by destruct Hwin as (_ & _ & ?).
  - by destruct Hwin as (_ & ? & _).
  - by destruct Hwin as (? & _).
Qed.

Lemma world_role key now latency timeout nd nonce ns latest bc st k :
  hex_DecodeString key = Ok k →
  role_is (world key now latency timeout nd nonce ns latest bc) st
    (bytes_Equal (blsPubKey (asm st)) k).
Proof.
  intros Hk.
  by exists {| BlsPubKey := key; RelayInterval_ := {| Start := 50; End_ := 200 |} |}, k.
Defined.

(** ** Claims leave in the order of sequences and nonces *)

(** X1: an in-turn pass that holds a cursor broadcasts its claims for
    consecutive oracle sequences with consecutive nonces, starting at the
    next delivery sequence and the nonce of the cursor; the cursor stays
    retrieved and, when the pass returns [nil], sequence and nonce of the
    cursor have advanced by the number of claims broadcast. *)
Theorem inturn_pass_claims_from_cursor fuel w ch st0 :
  role_is w st0 true →
  HasRetrieved (inturnRelayerSequenceStatus (asm st0)) = true →
  ∃ k : nat,
    broadcasts (trace (snd (process fuel w ch st0)))
      = broadcasts (trace st0)
        ++ consecutive (NextDeliverySeq (inturnRelayerSequenceStatus (asm st0)))
             (relayerNonce (asm st0)) k ∧
    HasRetrieved (inturnRelayerSequenceStatus (asm (snd (process fuel w ch st0)))) = true ∧
    blsPubKey (asm (snd (process fuel w ch st0))) = blsPubKey (asm st0) ∧
    (fst (process fuel w ch st0) = Val tt →
     relayerNonce (asm (snd (process fuel w ch st0)))
       = advance (relayerNonce (asm st0)) k ∧
     NextDeliverySeq (inturnRelayerSequenceStatus (asm (snd (process fuel w ch st0))))
       = advance (NextDeliverySeq (inturnRelayerSequenceStatus (asm st0))) k).
Proof.
  intros Hrole Hret.
  destruct (process_effect fuel w ch st0 true Hrole)
    as [(o & st1 & _ & _ & (Hkey & Hb & _ & Hcur) & ->)
       |(start & e & st1 & _ & (Hkey & Hb & _ & Hcur) & (Hret1 & Hstart & _) & Hloop)].
  - destruct (Hcur Hret) as [Hs Hn]. exists 0%nat. simpl.
    rewrite app_nil_r, Hs, Hn. by repeat split.
  - destruct (Hcur Hret) as [Hs Hn].
    destruct Hloop as (k & K1 & K2 & K3 & _ & _ & K6).
    rewrite Hs in Hstart. subst start.
    exists k. rewrite K1, K2, K3, Hb, Hn, Hkey.
    split; [done|]. split; [done|]. split; [done|].
    intros Hnil. rewrite Hnil in K6. destruct (K6 eq_refl) as [-> ->].
    rewrite Hn, Hs. split; [done|]. by destruct k.
Qed.

Lemma inturn_pass_claims_from_cursor_witness :
  broadcasts (trace (snd (process 3 (world_inturn 8) 0 (inturn_at 7 10 rows_voted))))
    = [(7, 10); (8, 11)] ∧
  ∃ k, broadcasts (trace (snd (process 3 (world_inturn 8) 0 (inturn_at 7 10 rows_voted))))
         = consecutive 7 10 k.
Proof.
  split; [reflexivity|].
  destruct (inturn_pass_claims_from_cursor 3 (world_inturn 8) 0 (inturn_at 7 10 rows_voted))
    as (k & Hk & _).
  - exact (world_role "abcd" 100 30 120 7 10 9 8 accept_all (inturn_at 7 10 rows_voted)
             [171; 205] eq_refl).
  - reflexivity.
  - exists k. exact Hk.
Defined.

(** X2: a stand-by pass broadcasts its claims for consecutive oracle
    sequences with consecutive nonces, starting at the next delivery
    sequence and the account nonce it has just fetched; it broadcasts
    nothing when one of the two cannot be fetched.  It leaves
    [HasRetrieved] cleared and never touches the next delivery sequence
    of the cursor nor the relayer's key. *)
Theorem standby_pass_claims_from_chain fuel w ch st0 :
  role_is w st0 false →
  HasRetrieved (inturnRelayerSequenceStatus (asm (snd (process fuel w ch st0)))) = false ∧
  NextDeliverySeq (inturnRelayerSequenceStatus (asm (snd (process fuel w ch st0))))
    = NextDeliverySeq (inturnRelayerSequenceStatus (asm st0)) ∧
  blsPubKey (asm (snd (process fuel w ch st0))) = blsPubKey (asm st0) ∧
  (∀ s n, GetNextDeliveryOracleSequenceWithRetry w = Ok s → GetNonce w = Ok n →
     ∃ k : nat,
       broadcasts (trace (snd (process fuel w ch st0)))
         = broadcasts (trace st0) ++ consecutive s n k ∧
       (fst (process fuel w ch st0) = Val tt →
        relayerNonce (asm (snd (process fuel w ch st0))) = advance n k)) ∧
  (∀ e, GetNextDeliveryOracleSequenceWithRetry w = Err e ∨ GetNonce w = Err e →
     broadcasts (trace (snd (process fuel w ch st0))) = broadcasts (trace st0)).
Proof.
  intros Hrole.
  destruct (process_effect fuel w ch st0 false Hrole)
    as [(o & st1 & Hw & Ho & (Hkey & Hb & _ & Hret & Hseq) & Hfin)
       |(start & e & st1 & _ & (Hkey & Hb & _ & Hret & Hseq) & (Hs & Hn) & Hloop)].
  - rewrite Hfin. split; [done|]. split; [done|]. split; [done|]. split.
    + intros s n Hs Hn. exists 0%nat. simpl. rewrite app_nil_r. split; [done|].
      intros Hnil. exfalso.
      pose proof (window_spec w ch st0 false Hrole) as Hspec.
      unfold wp in Hspec. rewrite Hw in Hspec.
      rewrite process_run, Hw in Hnil.
      destruct o as [win|err| | |]; try discriminate.
      * by destruct (Ho win).
      * (* the window ended the pass with [nil]: not in a stand-by pass *)
        clear Hnil. revert Hw. unfold window, resolveRole, establishCursor,
          updateMetrics, selectEndSequence, reconcileAlerts, bind, try, get, emit,
          modifyAsm, ret, halt, fail.
        destruct Hrole as (r & k & -> & Hk & Hkey'). cbn. rewrite Hk. cbn.
        rewrite Hkey'. cbn. rewrite Hs. cbn. rewrite Hn. cbn.
        destruct (GetNextSendSequenceForChannelWithRetry_metrics w); cbn; [|done].
        destruct (GetNextSendSequenceForChannelWithRetry w); cbn; [|done].
        destruct (negb _); [|done]. by destruct (_ <? _).
    + by intros.
  - destruct Hloop as (k & K1 & K2 & K3 & _ & K5 & K6).
    rewrite K2, K3, (K5 eq_refl), Hkey, Hret, Hseq.
    split; [done|]. split; [done|]. split; [done|]. split.
    + intros s n Hs' Hn'. assert (start = s) as -> by congruence.
      assert (relayerNonce (asm st1) = n) as Hn1 by congruence.
      exists k. rewrite K1, Hb, Hn1. split; [done|].
      intros Hnil. rewrite Hnil in K6. destruct (K6 eq_refl) as [-> _].
      by rewrite Hn1.
    + intros err [He|He]; congruence.
Qed.

Lemma standby_pass_claims_from_chain_witness :
  HasRetrieved (inturnRelayerSequenceStatus
    (asm (snd (process 3 world_standby 0 (inturn_at 5 3 rows_seq7))))) = false ∧
  NextDeliverySeq (inturnRelayerSequenceStatus
    (asm (snd (process 3 world_standby 0 (inturn_at 5 3 rows_seq7))))) = 5 ∧
  broadcasts (trace (snd (process 3 world_standby 0 (inturn_at 5 3 rows_seq7))))
    = [(7, 10)].
Proof.
  destruct (standby_pass_claims_from_chain 3 world_standby 0 (inturn_at 5 3 rows_seq7))
    as (H1 & H2 & _).
  - exact (world_role "ffff" 300 30 120 7 10 8 8 accept_all (inturn_at 5 3 rows_seq7)
             [255; 255] eq_refl).
  - split; [exact H1|]. split; [exact H2|reflexivity].
Defined.

(** X3: an in-turn pass that finds the cursor unset broadcasts its claims
    for consecutive oracle sequences with consecutive nonces, starting at
    the next delivery sequence and the account nonce fetched for the
    cursor; it broadcasts nothing when one of the two cannot be
    fetched. *)
Theorem fresh_inturn_pass_claims_from_chain fuel w ch st0 :
  role_is w st0 true →
  HasRetrieved (inturnRelayerSequenceStatus (asm st0)) = false →
  blsPubKey (asm (snd (process fuel w ch st0))) = blsPubKey (asm st0) ∧
  (∀ s n, GetNextDeliveryOracleSequenceWithRetry w = Ok s → GetNonce w = Ok n →
     ∃ k : nat,
       broadcasts (trace (snd (process fuel w ch st0)))
         = broadcasts (trace st0) ++ consecutive s n k) ∧
  (∀ e, GetNextDeliveryOracleSequenceWithRetry w = Err e ∨ GetNonce w = Err e →
     broadcasts (trace (snd (process fuel w ch st0))) = broadcasts (trace st0)).
Proof.
  intros Hrole Hfresh.
  destruct (process_effect fuel w ch st0 true Hrole)
    as [(o & st1 & _ & _ & (Hkey & Hb & _) & ->)
       |(start & e & st1 & _ & (Hkey & Hb & _) & (_ & _ & Hfetch) & Hloop)].
  - split; [done|]. split; [|done].
    intros s n _ _. exists 0%nat. simpl. by rewrite app_nil_r.
  - destruct (Hfetch Hfresh) as [Hs Hn].
    destruct Hloop as (k & K1 & K2 & _).
    split; [congruence|]. split.
    + intros s n Hs' Hn'. assert (start = s) as -> by congruence.
      assert (relayerNonce (asm st1) = n) as Hn1 by congruence.
      exists k. by rewrite K1, Hb, Hn1.
    + intros err [He|He]; congruence.
Qed.

Lemma fresh_inturn_pass_claims_from_chain_witness :
  ∃ k, broadcasts (trace (snd (process 3 (world_inturn 8) 0 (fresh rows_voted))))
         = consecutive 7 10 k.
Proof.
  destruct (fresh_inturn_pass_claims_from_chain 3 (world_inturn 8) 0 (fresh rows_voted))
    as (_ & Hk & _).
  - exact (world_role "abcd" 100 30 120 7 10 9 8 accept_all (fresh rows_voted)
             [171; 205] eq_refl).
  - reflexivity.
  - destruct (Hk 7 10 eq_refl eq_refl) as [k Hk']. exists k. exact Hk'.
Defined.

(** ** Failures while the cursor is fetched or calibrated *)

(** X4: the cursor of a fresh in-turn relayer is fetched all or nothing:
    when the grace period has elapsed and the next delivery sequence or,
    after it, the account nonce cannot be fetched, the pass returns that
    error having only reported its role to the metrics; neither the
    nonce nor any part of the cursor has been written, so that the next
    pass fetches again. *)
Theorem cursor_fetch_all_or_nothing fuel w ch st r k e :
  GetInturnRelayer w = Ok r →
  hex_DecodeString (BlsPubKey r) = Ok k →
  bytes_Equal (blsPubKey (asm st)) k = true →
  HasRetrieved (inturnRelayerSequenceStatus (asm st)) = false →
  GreenfieldSequenceUpdateLatency w
    <= sub64 (now_cursor w) (int64 (Start (RelayInterval_ r))) →
  GetNextDeliveryOracleSequenceWithRetry w = Err e ∨
    ((∃ s, GetNextDeliveryOracleSequenceWithRetry w = Ok s) ∧ GetNonce w = Err e) →
  process fuel w ch st
    = (Fail e,
       logged (EvSetGnfdInturnRelayerMetrics true (Start (RelayInterval_ r))
                 (End_ (RelayInterval_ r))) st) ∧
  asm (snd (process fuel w ch st)) = asm st.
Proof.
  intros Hr Hk Hrole Hfresh Hgrace Hfetch.
  assert (process fuel w ch st
          = (Fail e, logged (EvSetGnfdInturnRelayerMetrics true (Start (RelayInterval_ r))
                               (End_ (RelayInterval_ r))) st)) as Hrun.
  { unfold process, window, returning, bind, resolveRole, bind, try, get, emit, ret.
    rewrite Hr. cbn. rewrite Hk. cbn. rewrite Hrole. cbn [fst snd].
    unfold establishCursor, bind, get, try, fail. cbn [asm logged]. rewrite Hfresh.
    cbn [negb].
    destruct (Z.ltb_spec (sub64 (now_cursor w) (int64 (Start (RelayInterval_ r))))
                (GreenfieldSequenceUpdateLatency w)); [lia|].
    destruct Hfetch as [->|[[s ->] ->]]; reflexivity. }
  split; [done|]. by rewrite Hrun.
Qed.

Lemma cursor_fetch_all_or_nothing_witness :
  fst (process 3 (with_GetNonce (Err (ErrExternal "rpc")) (world_inturn 8)) 0
         (fresh rows_voted)) = Fail (ErrExternal "rpc") ∧
  asm (snd (process 3 (with_GetNonce (Err (ErrExternal "rpc")) (world_inturn 8)) 0
              (fresh rows_voted))) = asm (fresh rows_voted).
Proof.
  destruct (cursor_fetch_all_or_nothing 3
              (with_GetNonce (Err (ErrExternal "rpc")) (world_inturn 8)) 0
              (fresh rows_voted)
              {| BlsPubKey := "abcd"; RelayInterval_ := {| Start := 50; End_ := 200 |} |}
              [171; 205] (ErrExternal "rpc")) as [Hrun Hasm];
    [reflexivity|reflexivity|reflexivity|reflexivity|vm_compute; by intros [=]
    |right; split; [by exists 7|reflexivity]|].
  split; [exact (f_equal fst Hrun)|exact Hasm].
Defined.

(** X5: when the batch processor of the in-turn relayer has failed and
    the nonce at the next block cannot be fetched, the pass returns the
    error of that fetch, not the error of the batch processor, and the
    cursor is as the batch processor left it; when the nonce is fetched
    but the next delivery sequence is not, the pass returns the error of
    the second fetch with the nonce of the cursor already overwritten
    and its next delivery sequence not. *)
Theorem calibration_partial_failure w ch st0 e n i st fuel pkg0 rest err st1 :
  pass_at w ch st0 true e n i st →
  i <= uint64 e →
  GetPackagesByOracleSequence_err w i = None →
  packages_by_sequence (store st) i = pkg0 :: rest →
  Status pkg0 = AllVoted ∨ Status pkg0 = Delivered →
  processPkgs w (pkg0 :: rest) (uint8 ch) i (relayerNonce (asm st)) true
    (atClaim w i pkg0 st) = (Fail err, st1) →
  asm st1 = asm (atClaim w i pkg0 st) ∧
  (∀ nonceErr, GetNonceOnNextBlock w = Err nonceErr →
     process (n + S fuel) w ch st0 = (Fail nonceErr, st1)) ∧
  (∀ newNonce seqErr,
     GetNonceOnNextBlock w = Ok newNonce →
     GetNextDeliveryOracleSequenceWithRetry_calibration w = Err seqErr →
     process (n + S fuel) w ch st0
       = (Fail seqErr, withAsm (set_relayerNonce newNonce (asm st1)) st1)).
Proof.
  intros Hat Hi Herr Hpkgs Hstatus Hfail.
  destruct (atClaim_frame w i pkg0 st) as (_ & _ & Hn & _).
  pose proof (processPkgs_spec w (pkg0 :: rest) (uint8 ch) i (relayerNonce (asm st)) true
                (atClaim w i pkg0 st)) as Hspec.
  unfold wp in Hspec. rewrite Hfail in Hspec.
  destruct Hspec as (_ & _ & Hasm & _).
  assert (process (n + S fuel) w ch st0
          = (newNonce <- try (GetNonceOnNextBlock w);;
             modifyAsm (set_relayerNonce newNonce);;
             newSeq <- try (GetNextDeliveryOracleSequenceWithRetry_calibration w);;
             modifyAsm (set_NextDeliverySeq newSeq);;
             fail err) st1) as Hrun.
  { rewrite (process_at _ _ _ _ _ _ _ _ _ Hat). unfold returning.
    rewrite forLoop_unfold by done. unfold bind at 1.
    rewrite (loopBody_rows _ _ _ _ _ _ _ Herr Hpkgs), status_test_spec.
    rewrite bool_decide_eq_true_2 by done. cbn [negb andb].
    unfold claimOrCalibrate. unfold bind at 1 2. unfold get, call.
    rewrite Hn, Hfail. cbn [negb].
    by destruct ((newNonce <- try (GetNonceOnNextBlock w);;
                  modifyAsm (set_relayerNonce newNonce);;
                  newSeq <- try (GetNextDeliveryOracleSequenceWithRetry_calibration w);;
                  modifyAsm (set_NextDeliverySeq newSeq);;
                  fail err) st1) as [[[]| | | |] ?] eqn:Hc;
      revert Hc; unfold bind, try, modifyAsm, fail;
      destruct (GetNonceOnNextBlock w); cbn;
      try destruct (GetNextDeliveryOracleSequenceWithRetry_calibration w); cbn;
      intros [= <- <-] || intros [=]. }
  split; [done|]. split.
  - intros nonceErr Hne. rewrite Hrun. unfold bind, try. by rewrite Hne.
  - intros newNonce seqErr Hnn Hse. rewrite Hrun. unfold bind, try, modifyAsm.
    rewrite Hnn. cbn. by rewrite Hse.
Qed.

Lemma calibration_partial_failure_witness :
  fst (process 1 world_collision_blind 0 (fresh rows_voted))
    = Fail (ErrExternal "next block") ∧
  relayerNonce (asm (snd (process 1 world_collision_blind 0 (fresh rows_voted)))) = 10.
Proof.
  pose (st := snd (window world_collision_blind 0 (fresh rows_voted))).
  pose (st1 := snd (processPkgs world_collision_blind [mkPkg 1 7 50 AllVoted] (uint8 0) 7
                      (relayerNonce (asm st)) true
                      (atClaim world_collision_blind 7 (mkPkg 1 7 50 AllVoted) st))).
  assert (pass_at world_collision_blind 0 (fresh rows_voted) true 8 0 7 st) as Hat.
  { exists 7, st. split; [vm_compute; reflexivity|apply reaches_start]. }
  destruct (calibration_partial_failure world_collision_blind 0 (fresh rows_voted) 8 0 7 st 0
              (mkPkg 1 7 50 AllVoted) [] (ErrClaim 32 "account sequence mismatch")
              st1 Hat)
    as (_ & Hrun & _);
    [vm_compute; by intros [=]|reflexivity|reflexivity|by left
    |vm_compute; reflexivity|].
  split.
  - exact (f_equal fst (Hrun (ErrExternal "next block") eq_refl)).
  - exact (f_equal (λ x, relayerNonce (asm (snd x)))
             (Hrun (ErrExternal "next block") eq_refl)).
Defined.

(** X6: when the batch processor of a stand-by relayer fails, the pass
    returns that error at once: nothing is fetched for a calibration,
    and nonce, cursor and store are as they were when the batch
    processor was invoked. *)
Theorem standby_failure_returns_error w ch st0 e n i st fuel pkg0 rest err st1 :
  pass_at w ch st0 false e n i st →
  i <= uint64 e →
  GetPackagesByOracleSequence_err w i = None →
  packages_by_sequence (store st) i = pkg0 :: rest →
  Status pkg0 = AllVoted ∨ Status pkg0 = Delivered →
  ¬ now_timeout w i < add64 (TxTime pkg0) (BSCToGreenfieldInturnRelayerTimeout w) →
  processPkgs w (pkg0 :: rest) (uint8 ch) i (relayerNonce (asm st)) false
    (atClaim w i pkg0 st) = (Fail err, st1) →
  process (n + S fuel) w ch st0 = (Fail err, st1) ∧
  asm st1 = asm (atClaim w i pkg0 st) ∧
  relayerNonce (asm st1) = relayerNonce (asm st) ∧
  inturnRelayerSequenceStatus (asm st1) = inturnRelayerSequenceStatus (asm st) ∧
  store st1 = store st.
Proof.
  intros Hat Hi Herr Hpkgs Hstatus Htime Hfail.
  destruct (atClaim_frame w i pkg0 st) as (Hstore & _ & Hn & Hcur & _).
  pose proof (processPkgs_spec w (pkg0 :: rest) (uint8 ch) i (relayerNonce (asm st)) false
                (atClaim w i pkg0 st)) as Hspec.
  unfold wp in Hspec. rewrite Hfail in Hspec.
  destruct Hspec as (_ & _ & Hasm & Hstore1 & _).
  split; [|by rewrite Hasm, Hstore1].
  rewrite (process_at _ _ _ _ _ _ _ _ _ Hat). unfold returning.
  rewrite forLoop_unfold by done. unfold bind at 1.
  rewrite (loopBody_rows _ _ _ _ _ _ _ Herr Hpkgs), status_test_spec.
  rewrite bool_decide_eq_true_2 by done. cbn [negb andb].
  destruct (Z.ltb_spec (now_timeout w i)
              (add64 (TxTime pkg0) (BSCToGreenfieldInturnRelayerTimeout w))); [lia|].
  unfold claimOrCalibrate, bind, get, call. by rewrite Hn, Hfail.
Qed.

Lemma standby_failure_returns_error_witness :
  fst (process 1 world_standby_rejected 0 (fresh rows_seq7))
    = Fail (ErrClaim 32 "account sequence mismatch") ∧
  relayerNonce (asm (snd (process 1 world_standby_rejected 0 (fresh rows_seq7)))) = 10.
Proof.
  pose (st := snd (window world_standby_rejected 0 (fresh rows_seq7))).
  pose (st1 := snd (processPkgs world_standby_rejected [mkPkg 1 7 50 AllVoted] (uint8 0) 7
                      (relayerNonce (asm st)) false
                      (atClaim world_standby_rejected 7 (mkPkg 1 7 50 AllVoted) st))).
  assert (pass_at world_standby_rejected 0 (fresh rows_seq7) false 8 0 7 st) as Hat.
  { exists 7, st. split; [vm_compute; reflexivity|apply reaches_start]. }
  destruct (standby_failure_returns_error world_standby_rejected 0 (fresh rows_seq7) 8 0 7 st 0
              (mkPkg 1 7 50 AllVoted) [] (ErrClaim 32 "account sequence mismatch")
              st1 Hat)
    as (Hrun & _ & _);
    [vm_compute; by intros [=]|reflexivity|reflexivity|by left
    |vm_compute; by intros [=]|vm_compute; reflexivity|].
  split.
  - exact (f_equal fst Hrun).
  - exact (f_equal (λ x, relayerNonce (asm (snd x))) Hrun).
Defined.

(** X7: an in-turn pass that holds a cursor and finds no voted sequence
    (the store answers -1) returns [nil] having only reported to the
    metrics: the store is not read, nothing is broadcast and the cursor
    is untouched. *)
Theorem inturn_nothing_voted fuel w ch st r k ns :
  GetInturnRelayer w = Ok r →
  hex_DecodeString (BlsPubKey r) = Ok k →
  bytes_Equal (blsPubKey (asm st)) k = true →
  HasRetrieved (inturnRelayerSequenceStatus (asm st)) = true →
  GetNextSendSequenceForChannelWithRetry_metrics w = Ok ns →
  GetLatestOracleSequenceByStatus w (store st) AllVoted = Ok (-1) →
  process fuel w ch st
    = (Val tt,
       logged (EvSetNextSendSequenceForChannel (uint8 ch) ns)
         (logged (EvSetNextReceiveSequenceForChannel (uint8 ch)
                    (NextDeliverySeq (inturnRelayerSequenceStatus (asm st))))
            (logged (EvSetGnfdInturnRelayerMetrics true (Start (RelayInterval_ r))
                       (End_ (RelayInterval_ r))) st))) ∧
  asm (snd (process fuel w ch st)) = asm st ∧
  broadcasts (trace (snd (process fuel w ch st))) = broadcasts (trace st) ∧
  (∀ i, EvGetPackages i ∈ trace (snd (process fuel w ch st)) →
        EvGetPackages i ∈ trace st).
Proof.
  intros Hr Hk Hrole Hret Hns Hlatest.
  assert (process fuel w ch st
    = (Val tt,
       logged (EvSetNextSendSequenceForChannel (uint8 ch) ns)
         (logged (EvSetNextReceiveSequenceForChannel (uint8 ch)
                    (NextDeliverySeq (inturnRelayerSequenceStatus (asm st))))
            (logged (EvSetGnfdInturnRelayerMetrics true (Start (RelayInterval_ r))
                       (End_ (RelayInterval_ r))) st)))) as Hrun.
  { unfold process, window, returning, bind, resolveRole, bind, try, get, emit, ret.
    rewrite Hr. cbn. rewrite Hk. cbn. rewrite Hrole. cbn [fst snd].
    unfold establishCursor, bind, get, ret. cbn [asm logged]. rewrite Hret.
    cbn [negb]. unfold updateMetrics, bind, emit, try. rewrite Hns. cbn.
    unfold selectEndSequence, bind, get, try. cbn. rewrite Hlatest. reflexivity. }
  rewrite Hrun. split; [done|]. split; [done|]. split.
  - cbn [snd trace logged]. rewrite !broadcasts_snoc. cbn. by rewrite !app_nil_r.
  - intros i. cbn [snd trace logged].
    rewrite !elem_of_app, !list_elem_of_singleton.
    by intros [[[Hin|[=]]|[=]]|[=]].
Qed.

Lemma inturn_nothing_voted_witness :
  fst (process 3 world_idle 0 (inturn_at 7 10 rows_seq7)) = Val tt ∧
  asm (snd (process 3 world_idle 0 (inturn_at 7 10 rows_seq7)))
    = asm (inturn_at 7 10 rows_seq7).
Proof.
  destruct (inturn_nothing_voted 3 world_idle 0 (inturn_at 7 10 rows_seq7)
              {| BlsPubKey := "abcd"; RelayInterval_ := {| Start := 50; End_ := 200 |} |}
              [171; 205] 7) as (Hrun & Hasm & _);
    [reflexivity|reflexivity|reflexivity|reflexivity|reflexivity|reflexivity|].
  split; [exact (f_equal fst Hrun)|exact Hasm].
Defined.

(** ** Delay alerts *)

Lemma fold_max_lt (l : list Z) x :
  foldr (λ k m, if m <? k then k else m) 0 l < x ↔ 0 < x ∧ ∀ k, k ∈ l → k < x.
Proof.
  induction l as [|a l IH]; simpl.
  - split; [intros H; split; [done|] |by intros [? _]].
    intros k Hk. by apply not_elem_of_nil in Hk.
  - destruct (Z.ltb_spec (foldr (λ k m, if m <? k then k else m) 0 l) a) as [Hlt|Hge].
    + split.
      * intros Ha. assert (foldr (λ k m, if m <? k then k else m) 0 l < x) as Hl by lia.
        apply IH in Hl as [H0 Hl]. split; [done|].
        intros k [->|Hk]%elem_of_cons; auto.
      * intros [_ Hall]. apply Hall. left.
    + rewrite IH. split.
      * intros [H0 Hall]. split; [done|].
        intros k [->|Hk]%elem_of_cons; [|by apply Hall].
        assert (foldr (λ k m, if m <? k then k else m) 0 l < x) by (apply IH; done). lia.
      * intros [H0 Hall]. split; [done|]. intros k Hk. apply Hall. by right.
Qed.

(** X8: at the start of the loop the delay alerts are reconciled: when
    the alert set is not empty and every sequence in it is below the
    start of the window (which is then above 0), the delay flag is
    lowered and the set emptied as a whole; otherwise nothing is done,
    in particular while one flagged sequence is at or above the start. *)
Theorem reconcileAlerts_spec startSeq st :
  (alertSet (asm st) ≠ ∅ ∧ 0 < startSeq ∧ (∀ k, k ∈ alertSet (asm st) → k < startSeq) →
   reconcileAlerts startSeq st
     = (Val tt, withAsm (set_alertSet ∅ (asm st)) (logged (EvSetHasTxDelay false) st))) ∧
  (alertSet (asm st) = ∅ ∨ startSeq <= 0 ∨ (∃ k, k ∈ alertSet (asm st) ∧ startSeq <= k) →
   reconcileAlerts startSeq st = (Val tt, st)).
Proof.
  unfold reconcileAlerts, bind, get. cbn [asm].
  assert (set_fold (λ k m, if m <? k then k else m) 0 (alertSet (asm st)) < startSeq
          ↔ 0 < startSeq ∧ ∀ k, k ∈ alertSet (asm st) → k < startSeq) as Hmax.
  { unfold set_fold. simpl. rewrite fold_max_lt.
    split; intros [? Hall]; (split; [done|]); intros k Hk; apply Hall;
      by apply elem_of_elements. }
  split.
  - intros (Hne & H0 & Hall).
    assert (size (alertSet (asm st)) ≠ 0%nat) as Hsize
      by (intros Hs; by apply size_empty_iff, leibniz_equiv in Hs).
    destruct (Nat.eqb_spec (size (alertSet (asm st))) 0) as [|_]; [done|]. cbn [negb].
    by destruct (Z.ltb_spec (set_fold (λ k m, if m <? k then k else m) 0 (alertSet (asm st)))
                   startSeq) as [_|Hge]; [|apply Z.le_ngt in Hge; destruct Hge; apply Hmax].
  - intros Hcase.
    destruct (Nat.eqb_spec (size (alertSet (asm st))) 0) as [|Hsize]; [done|]. cbn [negb].
    destruct (Z.ltb_spec (set_fold (λ k m, if m <? k then k else m) 0 (alertSet (asm st)))
                startSeq) as [Hlt|_]; [|done].
    apply Hmax in Hlt as [H0 Hall]. exfalso.
    destruct Hcase as [He|[Hs|(k & Hk & Hle)]].
    + apply Hsize. rewrite He. apply size_empty.
    + lia.
    + apply Hall in Hk. lia.
Qed.

Lemma reconcileAlerts_spec_witness :
  alertSet (asm (snd (reconcileAlerts 7 (alerted [])))) = ∅ ∧
  alertSet (asm (snd (reconcileAlerts 5 (alerted [])))) = {[ 3; 5 ]}.
Proof.
  destruct (reconcileAlerts_spec 7 (alerted [])) as [Hclear _].
  destruct (reconcileAlerts_spec 5 (alerted [])) as [_ Hkeep].
  split.
  - rewrite Hclear; [reflexivity|]. split; [|split].
    + intros He. assert (3 ∈ (∅ : gset Z)) as Hin by (rewrite <- He; set_solver).
      by apply not_elem_of_empty in Hin.
    + lia.
    + intros k Hk. set_unfold in Hk. lia.
  - rewrite Hkeep; [reflexivity|]. right. right. exists 5. split; [|lia].
    set_solver.
Defined.

Lemma loopBody_alerts w ch b i st pkg0 rest :
  GetPackagesByOracleSequence_err w i = None →
  packages_by_sequence (store st) i = pkg0 :: rest →
  alertSet (asm (snd (loopBody w ch b i st))) = alertSet (asm (atClaim w i pkg0 st)).
Proof.
  intros Herr Hpkgs. rewrite (loopBody_rows _ _ _ _ _ _ _ Herr Hpkgs).
  destruct (bool_decide (Status pkg0 ≠ AllVoted) && bool_decide (Status pkg0 ≠ Delivered));
    [done|].
  destruct (negb b && _); [done|].
  pose proof (claimOrCalibrate_spec w ch b i (pkg0 :: rest) (atClaim w i pkg0 st)) as Hspec.
  unfold wp in Hspec.
  destruct (claimOrCalibrate w ch b i (pkg0 :: rest) (atClaim w i pkg0 st))
    as [[u|err| | |] st']; simpl; by destruct Hspec as (_ & ?); try by destruct H.
Qed.

Lemma forLoop_alerts fuel w ch b e i st :
  alertSet (asm st) ⊆ alertSet (asm (snd (forLoop fuel w ch b e i st))).
Proof.
  pose proof (forLoop_spec w ch b e fuel i st) as Hspec. unfold wp in Hspec.
  destruct (forLoop fuel w ch b e i st) as [[u|err| | |] st']; simpl;
    by destruct Hspec as (k & _ & _ & _ & ? & _).
Qed.

(** X9: when the loop of a pass stands at a sequence whose first row
    counts as delayed, that sequence is in the alert set when the pass
    ends, however it ends; and no sequence that was in the alert set
    when the loop stood there has left it. *)
Theorem delayed_sequence_is_flagged w ch st0 b e n i st fuel pkg0 rest :
  pass_at w ch st0 b e n i st →
  i <= uint64 e →
  GetPackagesByOracleSequence_err w i = None →
  packages_by_sequence (store st) i = pkg0 :: rest →
  txDelayed w i (TxTime pkg0) = true →
  i ∈ alertSet (asm (snd (process (n + S fuel) w ch st0))) ∧
  alertSet (asm st) ⊆ alertSet (asm (snd (process (n + S fuel) w ch st0))).
Proof.
  intros Hat Hi Herr Hpkgs Hlate.
  assert ({[ i ]} ∪ alertSet (asm st)
          ⊆ alertSet (asm (snd (process (n + S fuel) w ch st0)))) as Hsub.
  { rewrite (process_at _ _ _ _ _ _ _ _ _ Hat).
    pose proof (loopBody_alerts w ch b i st pkg0 rest Herr Hpkgs) as Hbody.
    destruct (atClaim_alerts w i pkg0 st) as [_ Hflag]. rewrite Hlate in Hflag.
    rewrite Hflag in Hbody.
    unfold returning. rewrite forLoop_unfold by done. unfold bind.
    destruct (loopBody w ch b i st) as [[u|err| | |] st1]; simpl in *;
      try (by rewrite Hbody).
    rewrite <- Hbody.
    pose proof (forLoop_alerts fuel w ch b e (uint64 (i + 1)) st1) as Hgrow.
    by destruct (forLoop fuel w ch b e (uint64 (i + 1)) st1) as [[[]|err| | |] st2]. }
  split; set_solver.
Qed.

Lemma delayed_sequence_is_flagged_witness :
  7 ∈ alertSet (asm (snd (process 1 world_standby_late 0 (fresh rows_seq7)))).
Proof.
  pose (st := snd (window world_standby_late 0 (fresh rows_seq7))).
  assert (pass_at world_standby_late 0 (fresh rows_seq7) false 8 0 7 st) as Hat.
  { exists 7, st. split; [vm_compute; reflexivity|apply reaches_start]. }
  destruct (delayed_sequence_is_flagged world_standby_late 0 (fresh rows_seq7) false 8 0 7 st 0
              (mkPkg 1 7 50 AllVoted) [] Hat) as [Hin _];
    [vm_compute; by intros [=]|reflexivity|reflexivity|reflexivity|].
  exact Hin.
Defined.

(** ** Index expressions *)

Lemma window_no_panic w ch st :
  wp (window w ch) (λ _ _, True) (panics_at_votes w ch) st.
Proof.
  unfold window, resolveRole, establishCursor, updateMetrics, selectEndSequence,
    reconcileAlerts, panics_at_votes.
  repeat wp_step; done.
Qed.

Lemma loopBody_panic w ch b i st :
  wp (loopBody w ch b i) (λ _ _, True) (panics_at_votes w ch) st.
Proof.
  unfold loopBody, GetPackagesByOracleSequence, raiseDelayAlert, claimOrCalibrate,
    panics_at_votes.
  repeat wp_step; try done.
  all: apply wp_call; unfold processPkgs, ClaimPackages,
         UpdateBatchPackagesClaimedTxHash, UpdateBatchPackagesStatusAndClaimedTxHash.
  all: repeat wp_step; try done.
  all: subst; eexists _, _, _; split; eassumption.
Qed.

Lemma forLoop_panic w ch b e fuel : ∀ i st,
  wp (forLoop fuel w ch b e i) (λ _ _, True) (panics_at_votes w ch) st.
Proof.
  induction fuel as [|fuel IH]; intros i st; simpl.
  - destruct (i <=? uint64 e); [|done]. by intros [=].
  - destruct (i <=? uint64 e); [|done].
    apply wp_bind. eapply wp_mono; [apply loopBody_panic| |done].
    intros _ st' _. apply IH.
Qed.

(** X10: the only index expression of a pass that can be out of range
    is [votes[0]]: a pass ends in a run-time panic only if the vote store
    answered with an empty list of votes for a sequence of the channel
    and the aggregation accepted an empty list.  In particular
    [pkgs[0]] never fails, an empty batch ends the pass with [nil]. *)
Theorem pass_panics_only_at_votes fuel w ch st0 :
  fst (process fuel w ch st0) = Panic →
  empty_votes_accepted w ch.
Proof.
  intros Hpanic.
  assert (wp (process fuel w ch) (λ _ _, True) (panics_at_votes w ch) st0) as Hwp.
  { unfold process. apply wp_returning, wp_bind.
    eapply wp_mono; [apply window_no_panic| |by intros []].
    intros [[b s] e] st1 _. simpl.
    eapply wp_mono; [apply forLoop_panic|done|by intros []]. }
  unfold wp in Hwp. destruct (process fuel w ch st0) as [[] ?]; try done.
  by apply Hwp.
Qed.

Lemma pass_panics_only_at_votes_witness :
  fst (process 3 world_no_votes 0 (inturn_at 7 10 rows_voted)) = Panic ∧
  empty_votes_accepted world_no_votes 0.
Proof.
  split; [reflexivity|].
  apply (pass_panics_only_at_votes 3 world_no_votes 0 (inturn_at 7 10 rows_voted)).
  reflexivity.
Defined.

(** ** The batch processor *)

(** X11: the batch processor broadcasts a claim only when the votes of
    the sequence were read, validators were available (cached, or
    fetched for the occasion), the aggregation succeeded, and neither
    the votes nor the batch are empty; the claim carries the payload of
    the first vote, the time of the first row of the batch as a
    [uint64], the aggregated signature and the validator bit set, and
    is sent without simulation under the nonce it was handed. *)
Theorem claim_is_built_from_votes w pkgs ch i nonce b st :
  broadcasts (trace (snd (processPkgs w pkgs ch i nonce b st))) ≠ broadcasts (trace st) →
  ∃ vote0 votes vals agg pkg0 rest tail,
    GetVotesByChannelIdAndSequence w ch i = Ok (vote0 :: votes) ∧
    fst (QueryCachedLatestValidators w (exec st)) = Ok vals ∧
    AggregateSignatureAndValidatorBitSet w (vote0 :: votes) vals = Ok agg ∧
    pkgs = pkg0 :: rest ∧
    trace (snd (processPkgs w pkgs ch i nonce b st))
      = trace st ++
        EvBroadcast (claimMsg w (vote_ClaimPayload vote0) (fst agg) (snd agg)
                       (TxTime pkg0) i)
                    (claimOpt w nonce) (store st) :: tail.
Proof.
  set (R := λ st' : St,
    broadcasts (trace st') ≠ broadcasts (trace st) →
    ∃ vote0 votes vals agg pkg0 rest tail,
      GetVotesByChannelIdAndSequence w ch i = Ok (vote0 :: votes) ∧
      fst (QueryCachedLatestValidators w (exec st)) = Ok vals ∧
      AggregateSignatureAndValidatorBitSet w (vote0 :: votes) vals = Ok agg ∧
      pkgs = pkg0 :: rest ∧
      trace st'
        = trace st ++
          EvBroadcast (claimMsg w (vote_ClaimPayload vote0) (fst agg) (snd agg)
                         (TxTime pkg0) i)
                      (claimOpt w nonce) (store st) :: tail).
  assert (wp (processPkgs w pkgs ch i nonce b) (λ _, R) (λ _, R) st) as Hwp.
  { unfold processPkgs, ClaimPackages, UpdateBatchPackagesClaimedTxHash,
      UpdateBatchPackagesStatusAndClaimedTxHash.
    repeat wp_step; subst R; cbn; try done.
    all: intros _; subst; do 6 eexists; eexists;
      (split; [eassumption|]); (split; [eassumption|]); (split; [eassumption|]);
      (split; [reflexivity|]); rewrite <- ?app_assoc; reflexivity. }
  unfold wp in Hwp.
  by destruct (processPkgs w pkgs ch i nonce b st) as [[] ?].
Qed.

Lemma claim_is_built_from_votes_witness :
  ∃ vote0 votes vals agg pkg0 rest tail,
    GetVotesByChannelIdAndSequence (world_inturn 8) 0 7 = Ok (vote0 :: votes) ∧
    fst (QueryCachedLatestValidators (world_inturn 8) (exec (inturn_at 7 10 rows_seq7)))
      = Ok vals ∧
    AggregateSignatureAndValidatorBitSet (world_inturn 8) (vote0 :: votes) vals = Ok agg ∧
    rows_seq7 = pkg0 :: rest ∧
    trace (snd (processPkgs (world_inturn 8) rows_seq7 0 7 10 true
                  (inturn_at 7 10 rows_seq7)))
      = trace (inturn_at 7 10 rows_seq7) ++
        EvBroadcast (claimMsg (world_inturn 8) (vote_ClaimPayload vote0) (fst agg) (snd agg)
                       (TxTime pkg0) 7)
                    (claimOpt (world_inturn 8) 10) (store (inturn_at 7 10 rows_seq7)) :: tail.
Proof.
  apply (claim_is_built_from_votes (world_inturn 8) rows_seq7 0 7 10 true
           (inturn_at 7 10 rows_seq7)).
  vm_compute. by intros [=].
Defined.

(** X12: when the destination chain has accepted the claim of a batch
    and the update of the package store fails, the batch processor
    returns the error of the store: the claim has been broadcast, no row
    carries its transaction hash or a new status, and the cursor of the
    relayer has not advanced. *)
Theorem update_failure_after_claim w pkg0 rest ch i nonce b st
    vote0 votes vals agg txRes err :
  GetVotesByChannelIdAndSequence w ch i = Ok (vote0 :: votes) →
  fst (QueryCachedLatestValidators w (exec st)) = Ok vals →
  AggregateSignatureAndValidatorBitSet w (vote0 :: votes) vals = Ok agg →
  BroadcastTx w (claimMsg w (vote_ClaimPayload vote0) (fst agg) (snd agg) (TxTime pkg0) i)
    (claimOpt w nonce) = Ok txRes →
  Code txRes = 0 →
  UpdateBatchPackages_err w (Id <$> pkg0 :: rest) (TxHash txRes) = Some err →
  fst (processPkgs w (pkg0 :: rest) ch i nonce b st) = Fail err ∧
  broadcasts (trace (snd (processPkgs w (pkg0 :: rest) ch i nonce b st)))
    = broadcasts (trace st) ++ [(i, nonce)] ∧
  store (snd (processPkgs w (pkg0 :: rest) ch i nonce b st)) = store st ∧
  asm (snd (processPkgs w (pkg0 :: rest) ch i nonce b st)) = asm st.
Proof.
  intros Hvotes Hvals Hagg Htx Hcode Hupd.
  unfold processPkgs, ClaimPackages, UpdateBatchPackagesClaimedTxHash,
    UpdateBatchPackagesStatusAndClaimedTxHash, liftExec, bind, try, get, setExec, emit,
    index0, check, ret, fail.
  rewrite Hvotes. cbn. rewrite Hvals. cbn. rewrite Hagg. cbn.
  unfold claimMsg, claimOpt in Htx. rewrite Htx. cbn. rewrite Hcode. cbn.
  destruct b; cbn in Hupd |- *; rewrite Hupd; cbn;
    (repeat split; try done);
    by rewrite !broadcasts_snoc, app_nil_r.
Qed.

Lemma update_failure_after_claim_witness :
  fst (processPkgs world_store_down rows_seq7 0 7 10 true (inturn_at 7 10 rows_seq7))
    = Fail (ErrExternal "db is down") ∧
  broadcasts
    (trace (snd (processPkgs world_store_down rows_seq7 0 7 10 true
                   (inturn_at 7 10 rows_seq7))))
    = [(7, 10)] ∧
  store (snd (processPkgs world_store_down rows_seq7 0 7 10 true (inturn_at 7 10 rows_seq7)))
    = rows_seq7.
Proof.
  destruct (update_failure_after_claim world_store_down (mkPkg 1 7 50 AllVoted) [] 0 7 10 true
              (inturn_at 7 10 rows_seq7) vote1 [] [validator1; validator2] ([170], [3])
              {| Code := 0; RawLog := ""; TxHash := "c1a1" |} (ErrExternal "db is down"))
    as (Hres & Hb & Hs & _); try reflexivity.
  split; [exact Hres|]. split; [exact Hb|exact Hs].
Defined.

(** ** The loop over the ticker *)

Lemma advance_add x k1 k2 : advance (advance x k1) k2 = advance x (k1 + k2).
Proof. revert x. induction k1 as [|k1 IH]; intros x; simpl; [done|apply IH]. Qed.

Lemma consecutive_add s n k1 k2 :
  consecutive s n k1 ++ consecutive (advance s k1) (advance n k1) k2
    = consecutive s n (k1 + k2).
Proof.
  revert s n. induction k1 as [|k1 IH]; intros s n; simpl; [done|].
  by rewrite IH.
Qed.

Lemma role_is_key w st st' b :
  blsPubKey (asm st') = blsPubKey (asm st) → role_is w st b → role_is w st' b.
Proof. intros Hkey (r & k & ? & ? & ?). exists r, k. by rewrite Hkey. Qed.

Lemma process_not_halt fuel w ch st : fst (process fuel w ch st) ≠ Halt.
Proof.
  rewrite process_run.
  destruct (window w ch st) as [[win|e| | |] st1]; try done.
  unfold returning. by destruct (forLoop _ _ _ _ _ _ _) as [[]].
Qed.

(** An in-turn pass that holds a cursor and returns [nil]. *)
Lemma inturn_pass_cursor fuel w ch st0 :
  role_is w st0 true →
  HasRetrieved (inturnRelayerSequenceStatus (asm st0)) = true →
  fst (process fuel w ch st0) = Val tt →
  ∃ k : nat,
    broadcasts (trace (snd (process fuel w ch st0)))
      = broadcasts (trace st0)
        ++ consecutive (NextDeliverySeq (inturnRelayerSequenceStatus (asm st0)))
             (relayerNonce (asm st0)) k ∧
    HasRetrieved (inturnRelayerSequenceStatus (asm (snd (process fuel w ch st0)))) = true ∧
    blsPubKey (asm (snd (process fuel w ch st0))) = blsPubKey (asm st0) ∧
    relayerNonce (asm (snd (process fuel w ch st0)))
      = advance (relayerNonce (asm st0)) k ∧
    NextDeliverySeq (inturnRelayerSequenceStatus (asm (snd (process fuel w ch st0))))
      = advance (NextDeliverySeq (inturnRelayerSequenceStatus (asm st0))) k.
Proof.
  intros Hrole Hret Hnil.
  destruct (process_effect fuel w ch st0 true Hrole)
    as [(o & st1 & _ & _ & (Hkey & Hb & _ & Hcur) & ->)
       |(start & e & st1 & _ & (Hkey & Hb & _ & Hcur) & (Hret1 & Hstart & _) & Hloop)].
  - destruct (Hcur Hret) as [Hs Hn]. exists 0%nat. simpl.
    rewrite app_nil_r, Hs, Hn. by repeat split.
  - destruct (Hcur Hret) as [Hs Hn].
    destruct Hloop as (k & K1 & K2 & K3 & _ & _ & K6).
    rewrite Hs in Hstart. subst start.
    rewrite Hnil in K6. destruct (K6 eq_refl) as [K7 K8].
    exists k. rewrite K1, K2, K3, K7, K8, Hb, Hn, Hkey, Hs.
    repeat split; try done. by destruct k.
Qed.

(** X13: an in-turn relayer that holds a cursor and whose passes log no
    error claims across its passes without a gap and without a repeat:
    over any number of ticks the claims broadcast are for consecutive
    oracle sequences with consecutive nonces from the cursor it started
    with, whatever the other routines did to the table between the
    passes, and its cursor and nonce have advanced by the number of
    claims. *)
Theorem inturn_ticks_claim_consecutively fuel ch : ∀ ticks st0 st',
  Forall (λ t, role_is (tick_world t) st0 true) ticks →
  HasRetrieved (inturnRelayerSequenceStatus (asm st0)) = true →
  assemblePackagesAndClaimForOracleChannel fuel ticks ch st0 = (Val [], st') →
  ∃ k : nat,
    broadcasts (trace st')
      = broadcasts (trace st0)
        ++ consecutive (NextDeliverySeq (inturnRelayerSequenceStatus (asm st0)))
             (relayerNonce (asm st0)) k ∧
    HasRetrieved (inturnRelayerSequenceStatus (asm st')) = true ∧
    relayerNonce (asm st') = advance (relayerNonce (asm st0)) k ∧
    NextDeliverySeq (inturnRelayerSequenceStatus (asm st'))
      = advance (NextDeliverySeq (inturnRelayerSequenceStatus (asm st0))) k.
Proof.
  induction ticks as [|t ticks IH]; intros st0 st' Hroles Hret Hrun.
  - injection Hrun as <-. exists 0%nat. simpl. by rewrite app_nil_r.
  - apply Forall_cons_1 in Hroles as [Hrole Hroles].
    simpl in Hrun. unfold bind at 1 2 in Hrun. unfold between at 1 in Hrun.
    unfold call in Hrun.
    set (st0' := {| asm := asm st0; exec := tick_exec t (exec st0);
                    store := tick_store t (store st0); trace := trace st0 |}) in *.
    assert (role_is (tick_world t) st0' true) as Hrole' by done.
    pose proof (process_not_halt fuel (tick_world t) ch st0') as Hnh.
    pose proof (inturn_pass_cursor fuel (tick_world t) ch st0' Hrole' Hret) as Hpass.
    destruct (process fuel (tick_world t) ch st0') as [[[]|err| | |] st1];
      simpl in Hnh, Hpass; try done.
    + destruct (Hpass eq_refl) as (k1 & P1 & P2 & P3 & P4 & P5).
      unfold bind, ret in Hrun.
      destruct (assemblePackagesAndClaimForOracleChannel fuel ticks ch st1)
        as [[errs|?| | |] st2] eqn:Hrest; try done.
      injection Hrun as -> ->.
      destruct (IH st1 st' ) as (k2 & Q1 & Q2 & Q3 & Q4); [|done|done|].
      { eapply Forall_impl; [|exact Hroles]. intros t' Ht'.
        by apply (role_is_key _ st0). }
      exists (k1 + k2)%nat. rewrite Q1, Q2, Q3, Q4, P1, P4, P5.
      rewrite <- app_assoc, consecutive_add, !advance_add. done.
    + unfold bind, ret in Hrun.
      by destruct (assemblePackagesAndClaimForOracleChannel fuel ticks ch st1)
        as [[errs|?| | |] st2].
Qed.

Lemma inturn_ticks_claim_consecutively_witness :
  broadcasts
    (trace (snd (assemblePackagesAndClaimForOracleChannel 3 ticks_inturn 0
                   (inturn_at 7 10 rows_voted))))
    = [(7, 10); (8, 11); (9, 12)] ∧
  ∃ k : nat,
    broadcasts
      (trace (snd (assemblePackagesAndClaimForOracleChannel 3 ticks_inturn 0
                     (inturn_at 7 10 rows_voted))))
    = consecutive 7 10 k.
Proof.
  split; [reflexivity|].
  destruct (inturn_ticks_claim_consecutively 3 0 ticks_inturn (inturn_at 7 10 rows_voted)
              (snd (assemblePackagesAndClaimForOracleChannel 3 ticks_inturn 0
                      (inturn_at 7 10 rows_voted)))) as (k & Hk & _).
  - repeat constructor.
    + exact (world_role "abcd" 100 30 120 7 10 9 8 accept_all (inturn_at 7 10 rows_voted)
               [171; 205] eq_refl).
    + exact (world_role "abcd" 110 30 120 9 12 10 9 accept_all (inturn_at 7 10 rows_voted)
               [171; 205] eq_refl).
  - reflexivity.
  - vm_compute. reflexivity.
  - exists k. exact Hk.
Defined.

Lemma ticker_inv (I : St → Prop) fuel ch :
  (∀ t st, I st → I (snd (between t st))) →
  (∀ t st, I st → I (snd (process fuel (tick_world t) ch st))) →
  ∀ ticks st, I st → I (snd (assemblePackagesAndClaimForOracleChannel fuel ticks ch st)).
Proof.
  intros Hbetween Hpass. induction ticks as [|t ticks IH]; intros st HI; [done|].
  simpl. unfold bind at 1 2. unfold call.
  specialize (Hbetween t st HI). destruct (between t st) as [[[]|?| | |] st0']; try done.
  specialize (Hpass t st0' Hbetween).
  destruct (process fuel (tick_world t) ch st0') as [[[]|err| | |] st1]; try done.
  all: specialize (IH st1 Hpass); unfold bind, ret;
    by destruct (assemblePackagesAndClaimForOracleChannel fuel ticks ch st1) as [[] ?].
Qed.

Lemma process_claims_ok fuel w ch st :
  claims_ok first_voted_or_delivered (trace st) →
  claims_ok first_voted_or_delivered (trace (snd (process fuel w ch st))).
Proof.
  intros Hst. destruct (role_cases w st) as [b Hb].
  apply (wp_invariant _ (λ st, claims_ok first_voted_or_delivered (trace st))).
  apply (process_inv w b _ (λ _, True)); try done.
  - intros ev st' Hq H. apply claims_ok_logged; [done|].
    intros msg opt rows ->. done.
  - intros i st' _ H. apply claims_ok_logged; [done|]. intros; discriminate.
  - intros msg opt st' p ps Hpkgs [Hstatus _] H. apply claims_ok_logged; [done|].
    intros msg' opt' rows' [= <- <- <-]. by exists p, ps.
Qed.

Lemma process_key fuel w ch st :
  blsPubKey (asm (snd (process fuel w ch st))) = blsPubKey (asm st).
Proof.
  assert (wp (window w ch) (λ _ st', blsPubKey (asm st') = blsPubKey (asm st))
             (λ _ st', blsPubKey (asm st') = blsPubKey (asm st)) st) as Hwin.
  { unfold window, resolveRole, establishCursor, updateMetrics, selectEndSequence,
      reconcileAlerts.
    repeat wp_step; done. }
  unfold wp in Hwin. rewrite process_run.
  destruct (window w ch st) as [[[[b start] e]|err| | |] st1]; try done.
  cbn [fst snd].
  pose proof (forLoop_spec w ch b e fuel start st1) as Hloop.
  unfold wp in Hloop. unfold returning.
  destruct (forLoop fuel w ch b e start st1) as [[[]|err| | |] st'];
    destruct Hloop as (k & _ & Hkey & _); simpl; congruence.
Qed.

(** X14: over any number of ticks from the creation of the assembler,
    whatever the other routines do to the package table and to the
    executor between the passes and whichever passes fail, every claim
    the loop has broadcast was built while the table held rows for its
    sequence the first of which was voted or delivered, and the key of
    the relayer is still the one the assembler was created with. *)
Theorem ticker_claims_over_voted_or_delivered fuel ticks ch key e rows :
  claims_ok first_voted_or_delivered
    (trace (snd (assemblePackagesAndClaimForOracleChannel fuel ticks ch
                   (started key e rows)))) ∧
  blsPubKey (asm (snd (assemblePackagesAndClaimForOracleChannel fuel ticks ch
                         (started key e rows)))) = key.
Proof.
  apply (ticker_inv (λ st', claims_ok first_voted_or_delivered (trace st') ∧
                            blsPubKey (asm st') = key)).
  - done.
  - intros t st' [Hok Hkey]. split; [by apply process_claims_ok|].
    by rewrite process_key.
  - split; [|done]. intros msg opt rows' Hin. by apply not_elem_of_nil in Hin.
Qed.

(** X15: a relayer that comes in turn after a pass in which it stood by
    does not resume from the cursor it held before: the in-turn pass
    fetches the next delivery sequence and the account nonce again and
    broadcasts its claims for consecutive sequences and nonces from
    these. *)
Theorem standby_then_inturn_refetches fuel1 fuel2 w1 t2 ch st0 s n :
  role_is w1 st0 false →
  role_is (tick_world t2) st0 true →
  GetNextDeliveryOracleSequenceWithRetry (tick_world t2) = Ok s →
  GetNonce (tick_world t2) = Ok n →
  ∃ k : nat,
    broadcasts
      (trace (snd (process fuel2 (tick_world t2) ch
                     (snd (between t2 (snd (process fuel1 w1 ch st0)))))))
    = broadcasts (trace (snd (process fuel1 w1 ch st0))) ++ consecutive s n k.
Proof.
  intros Hrole1 Hrole2 Hs Hn.
  set (st1 := snd (process fuel1 w1 ch st0)).
  assert (HasRetrieved (inturnRelayerSequenceStatus (asm st1)) = false) as Hfresh.
  { subst st1.
    destruct (process_effect fuel1 w1 ch st0 false Hrole1)
      as [(o & stw & _ & _ & (_ & _ & _ & Hret & _) & ->)
         |(start & e & stw & _ & (_ & _ & _ & Hret & _) & _ & Hloop)]; [done|].
    destruct Hloop as (k & _ & _ & K3 & _). by rewrite K3. }
  assert (role_is (tick_world t2) (snd (between t2 st1)) true) as Hrole2'.
  { apply (role_is_key _ st0); [|done]. subst st1. simpl. apply process_key. }
  destruct (process_effect fuel2 (tick_world t2) ch (snd (between t2 st1)) true Hrole2')
    as [(o & stw & _ & _ & (_ & Hb & _) & ->)
       |(start & e & stw & _ & (_ & Hb & _) & (_ & _ & Hfetch) & Hloop)].
  - exists 0%nat. simpl. by rewrite app_nil_r.
  - destruct (Hfetch Hfresh) as [Hs' Hn'].
    destruct Hloop as (k & K1 & _).
    assert (start = s) as -> by congruence.
    assert (relayerNonce (asm stw) = n) as Hn1 by congruence.
    exists k. by rewrite K1, Hb, Hn1.
Qed.

Lemma standby_then_inturn_refetches_witness :
  broadcasts
    (trace (snd (process 3 (tick_world tick_inturn_again) 0
                   (snd (between tick_inturn_again
                           (snd (process 3 world_standby 0 (inturn_at 5 3 rows_voted))))))))
    = [(7, 10); (8, 11); (9, 12)] ∧
  ∃ k : nat,
    broadcasts
      (trace (snd (process 3 (tick_world tick_inturn_again) 0
                     (snd (between tick_inturn_again
                             (snd (process 3 world_standby 0 (inturn_at 5 3 rows_voted))))))))
    = broadcasts (trace (snd (process 3 world_standby 0 (inturn_at 5 3 rows_voted))))
      ++ consecutive 9 12 k.
Proof.
  split; [reflexivity|].
  apply (standby_then_inturn_refetches 3 3 world_standby tick_inturn_again 0
           (inturn_at 5 3 rows_voted) 9 12).
  - exact (world_role "ffff" 300 30 120 7 10 8 8 accept_all (inturn_at 5 3 rows_voted)
             [255; 255] eq_refl).
  - exact (world_role "abcd" 400 30 120 9 12 10 9 accept_all (inturn_at 5 3 rows_voted)
             [171; 205] eq_refl).
  - reflexivity.
  - reflexivity.
Defined.

(** ** Termination of a pass *)

Lemma loopBody_fuel w ch b i st : fst (loopBody w ch b i st) ≠ OutOfFuel.
Proof.
  pose proof (loopBody_spec w ch b i st) as Hspec. unfold wp in Hspec.
  destruct (loopBody w ch b i st) as [[] ?]; try done.
  by destruct Hspec as [? _].
Qed.

Lemma forLoop_fuel w ch b e : ∀ fuel i st,
  0 <= i → uint64 e < two64 - 1 →
  uint64 e - i + 1 <= Z.of_nat fuel →
  fst (forLoop fuel w ch b e i st) ≠ OutOfFuel.
Proof.
  induction fuel as [|fuel IH]; intros i st Hi He Hfuel; simpl.
  - destruct (Z.leb_spec i (uint64 e)); [lia|done].
  - destruct (Z.leb_spec i (uint64 e)); [|done].
    unfold bind. pose proof (loopBody_fuel w ch b i st) as Hbody.
    destruct (loopBody w ch b i st) as [[] st1]; try done.
    rewrite uint64_succ by lia. apply IH; lia.
Qed.

(** X16: a pass terminates.  When the window it has chosen runs from
    [startSeq] to [uint64(endSequence)] and this end is not the greatest
    [uint64], so that the counter cannot wrap around below it, the loop
    is left after at most [uint64(endSequence) - startSeq + 1]
    iterations; a pass that chooses no window makes none. *)
Theorem pass_terminates fuel w ch st0 :
  (∀ b start e st1,
     window w ch st0 = (Val (b, start, e), st1) →
     0 <= start ∧ uint64 e < two64 - 1 ∧ uint64 e - start + 1 <= Z.of_nat fuel) →
  fst (process fuel w ch st0) ≠ OutOfFuel.
Proof.
  intros Hwin. rewrite process_run.
  pose proof (window_no_panic w ch st0) as Hw.
  assert (fst (window w ch st0) ≠ OutOfFuel) as Hwf.
  { assert (wp (window w ch) (λ _ _, True) (λ ab _, ab ≠ AOutOfFuel) st0) as Hwp.
    { unfold window, resolveRole, establishCursor, updateMetrics, selectEndSequence,
        reconcileAlerts.
      repeat wp_step; done. }
    unfold wp in Hwp. by destruct (window w ch st0) as [[] ?]. }
  destruct (window w ch st0) as [[[[b start] e]|err| | |] st1]; try done.
  destruct (Hwin b start e st1 eq_refl) as (Hs & He & Hfuel). cbn [fst snd].
  pose proof (forLoop_fuel w ch b e fuel start st1 Hs He Hfuel) as Hloop.
  unfold returning. by destruct (forLoop fuel w ch b e start st1) as [[] ?].
Qed.

Lemma pass_terminates_witness :
  fst (process 2 (world_inturn 8) 0 (inturn_at 7 10 rows_voted)) ≠ OutOfFuel.
Proof.
  apply (pass_terminates 2 (world_inturn 8) 0 (inturn_at 7 10 rows_voted)).
  intros b start e st1 Hw. vm_compute in Hw.
  injection Hw as <- <- <- <-. vm_compute. repeat split; by intros [=].
Defined.

(** ** The metrics *)

(** X17: a pass does not get past its metrics.  When the next send
    sequence cannot be fetched for the metrics, the pass ends without
    having read the package table, broadcast a claim or changed a row;
    this holds for the in-turn relayer as well, whose window does not
    depend on that sequence.  Such a pass returns an error, unless it
    has ended before with [nil] in the grace period of a relayer that
    is in turn without a cursor. *)
Theorem metrics_failure_blocks_pass fuel w ch st e :
  GetNextSendSequenceForChannelWithRetry_metrics w = Err e →
  (∃ evs, trace (snd (process fuel w ch st)) = trace st ++ evs ∧ Forall quiet evs) ∧
  store (snd (process fuel w ch st)) = store st ∧
  ((∃ err, fst (process fuel w ch st) = Fail err) ∨
   (fst (process fuel w ch st) = Val tt ∧
    HasRetrieved (inturnRelayerSequenceStatus (asm st)) = false ∧
    ∃ r, GetInturnRelayer w = Ok r ∧
         0 <= sub64 (now_cursor w) (int64 (Start (RelayInterval_ r)))
           < GreenfieldSequenceUpdateLatency w)).
Proof.
  intros Hm.
  assert (wp (window w ch) (λ _ _, False)
            (λ ab st',
               (∃ evs, trace st' = trace st ++ evs ∧ Forall quiet evs) ∧
               store st' = store st ∧
               ((∃ err, ab = AFail err) ∨
                (ab = AHalt ∧
                 HasRetrieved (inturnRelayerSequenceStatus (asm st)) = false ∧
                 ∃ r, GetInturnRelayer w = Ok r ∧
                      0 <= sub64 (now_cursor w) (int64 (Start (RelayInterval_ r)))
                        < GreenfieldSequenceUpdateLatency w))) st) as Hwp.
  { unfold window, resolveRole, establishCursor, updateMetrics, selectEndSequence,
      reconcileAlerts.
    repeat wp_step; try congruence.
    all: try (split;
      [first [by (exists []; rewrite app_nil_r)
             |eexists; split; [simpl; rewrite <- ?app_assoc; reflexivity
                              |simpl; repeat (constructor; [exact I|]); constructor]]|]).
    all: split; [done|]; try (left; by eexists).
    right. split; [done|]. simpl in *.
    split; [by destruct (HasRetrieved _)|].
    eexists; split; [eassumption|]. lia. }
  unfold wp in Hwp. rewrite process_run.
  destruct (window w ch st) as [[win|err| | |] st1]; try done; simpl.
  - destruct Hwp as (Ht & Hs & _). split; [done|]. split; [done|]. left. by exists err.
  - destruct Hwp as (Ht & Hs & [[? ?]|(_ & Hfresh & Hgrace)]); [done|].
    split; [done|]. split; [done|]. by right.
  - by destruct Hwp as (? & ? & [[? ?]|(? & ? & ?)]).
  - by destruct Hwp as (? & ? & [[? ?]|(? & ? & ?)]).
Qed.

Lemma metrics_failure_blocks_pass_witness :
  fst (process 3 world_metrics_down 0 (inturn_at 7 10 rows_voted))
    = Fail (ErrExternal "source rpc") ∧
  store (snd (process 3 world_metrics_down 0 (inturn_at 7 10 rows_voted))) = rows_voted.
Proof.
  split; [reflexivity|].
  exact (proj1 (proj2 (metrics_failure_blocks_pass 3 world_metrics_down 0
                         (inturn_at 7 10 rows_voted) (ErrExternal "source rpc") eq_refl))).
Defined.

(** ** The keys of the validators *)

Lemma fromHexChar_hexDigit n : 0 <= n < 16 → fromHexChar (hexDigit n) = Some n.
Proof.
  intros Hn.
  assert (n = 0 ∨ n = 1 ∨ n = 2 ∨ n = 3 ∨ n = 4 ∨ n = 5 ∨ n = 6 ∨ n = 7 ∨
          n = 8 ∨ n = 9 ∨ n = 10 ∨ n = 11 ∨ n = 12 ∨ n = 13 ∨ n = 14 ∨ n = 15)
    as Hcases by lia.
  destruct_or!; subst; reflexivity.
Qed.

Lemma hex_round_trip bs :
  is_bytes bs → hex_DecodeString (hex_EncodeToString bs) = Ok bs.
Proof.
  induction 1 as [|b bs Hb _ IH]; [done|].
  cbn [hex_EncodeToString hex_DecodeString].
  rewrite !fromHexChar_hexDigit, IH.
  - do 2 f_equal. pose proof (Z.div_mod b 16). lia.
  - apply Z.mod_pos_bound. lia.
  - split; [apply Z.div_pos; lia|apply Z.div_lt_upper_bound; lia].
Qed.

(** X18: the keys that [GetValidatorsBlsPublicKey] returns are those of
    the validators it has read through the cache, one per validator and
    in their order, and each of them decodes to the BLS key of its
    validator: the hexadecimal form loses nothing, so that the relayer's
    test of who is in turn, which decodes such a string and compares
    bytes, recognises exactly the validator whose key it is. *)
Theorem validator_keys_decode w e keys :
  fst (GetValidatorsBlsPublicKey w e) = Ok keys →
  ∃ vals,
    fst (QueryCachedLatestValidators w e) = Ok vals ∧
    length keys = length vals ∧
    (Forall (λ v, is_bytes (val_BlsKey v)) vals →
     hex_DecodeString <$> keys = (λ v, Ok (val_BlsKey v)) <$> vals) ∧
    (∀ (j : nat) key v own,
       keys !! j = Some key → vals !! j = Some v → is_bytes (val_BlsKey v) →
       ∃ k, hex_DecodeString key = Ok k ∧
            (bytes_Equal own k = true ↔ own = val_BlsKey v)).
Proof.
  unfold GetValidatorsBlsPublicKey.
  destruct (QueryCachedLatestValidators w e) as [[vals|err] e'] eqn:Hq; [|done].
  simpl. intros [= <-]. exists vals. split; [done|].
  split; [by rewrite length_fmap|]. split.
  - intros Hbytes. rewrite <- list_fmap_compose.
    apply Forall_fmap_ext_1. eapply Forall_impl; [|exact Hbytes].
    intros v Hv. simpl. by apply hex_round_trip.
  - intros j key v own Hkey Hv Hbytes.
    rewrite list_lookup_fmap, Hv in Hkey. injection Hkey as <-.
    exists (val_BlsKey v). split; [by apply hex_round_trip|].
    unfold bytes_Equal. by rewrite bool_decide_eq_true.
Qed.

Lemma validator_keys_decode_witness :
  ∃ vals,
    fst (QueryCachedLatestValidators world_standby executor_cold) = Ok vals ∧
    hex_DecodeString <$> ["0102"; "0304"] = (λ v, Ok (val_BlsKey v)) <$> vals.
Proof.
  destruct (validator_keys_decode world_standby executor_cold ["0102"; "0304"] eq_refl)
    as (vals & Hq & _ & Hdec & _).
  exists vals. split; [exact Hq|]. apply Hdec.
  vm_compute in Hq. injection Hq as <-.
  repeat constructor; lia.
Defined.

(** ** The refresh loop of the validator cache *)

(** X19: after [n] ticks of the refresh loop, [n] requests have been
    made; the cache holds the answer of the last request that
    succeeded, and what it held before when none did, a failed refresh
    never clears it; and when that answer is not empty, every reader
    gets it from the cache without a request of its own, whether the
    node answers or not. *)
Theorem refresh_loop_keeps_last_answer w : ∀ n e,
  validatorsRequests (UpdateCachedLatestValidatorsLoop n w e)
    = (n + validatorsRequests e)%nat ∧
  ((∀ j, (j < n)%nat → ∃ err, Validators_rpc w (validatorsRequests e + j) = Err err) →
   validators (UpdateCachedLatestValidatorsLoop n w e) = validators e) ∧
  (∀ j vals,
     (j < n)%nat →
     Validators_rpc w (validatorsRequests e + j) = Ok vals →
     (∀ j', (j < j' < n)%nat →
            ∃ err, Validators_rpc w (validatorsRequests e + j') = Err err) →
     validators (UpdateCachedLatestValidatorsLoop n w e) = vals ∧
     (vals ≠ [] →
      ∀ w', QueryCachedLatestValidators w' (UpdateCachedLatestValidatorsLoop n w e)
            = (Ok vals, UpdateCachedLatestValidatorsLoop n w e))).
Proof.
  induction n as [|n IH]; intros e.
  - split; [done|]. split; [done|]. intros j vals Hj. lia.
  - simpl.
    destruct (IH (UpdateCachedLatestValidators_tick w e)) as (Hreq & Hfail & Hlast).
    assert (validatorsRequests (UpdateCachedLatestValidators_tick w e)
            = S (validatorsRequests e)) as Htick.
    { unfold UpdateCachedLatestValidators_tick, queryLatestValidators.
      by destruct (Validators_rpc w _). }
    rewrite Htick in Hreq, Hfail, Hlast.
    split; [rewrite Hreq; lia|]. split.
    + intros Hall. rewrite Hfail.
      * destruct (Hall 0%nat) as [err Herr]; [lia|]. rewrite Nat.add_0_r in Herr.
        unfold UpdateCachedLatestValidators_tick, queryLatestValidators.
        by rewrite Herr.
      * intros j Hj. destruct (Hall (S j)) as [err Herr]; [lia|].
        exists err. by rewrite <- Herr, Nat.add_succ_r.
    + intros [|j] vals Hj Hok Hlater.
      * rewrite Nat.add_0_r in Hok.
        assert (validators (UpdateCachedLatestValidatorsLoop n w
                              (UpdateCachedLatestValidators_tick w e)) = vals) as Hv.
        { rewrite Hfail.
          - unfold UpdateCachedLatestValidators_tick, queryLatestValidators.
            by rewrite Hok.
          - intros j Hj'. destruct (Hlater (S j)) as [err Herr]; [lia|].
            exists err. by rewrite <- Herr, Nat.add_succ_r. }
        split; [done|]. intros Hne w'.
        rewrite QueryCachedLatestValidators_filled by (by rewrite Hv).
        by rewrite Hv.
      * apply (Hlast j vals); [lia|by rewrite <- Hok, Nat.add_succ_r|].
        intros j' Hj'. destruct (Hlater (S j')) as [err Herr]; [lia|].
        exists err. by rewrite <- Herr, Nat.add_succ_r.
Qed.

Lemma refresh_loop_keeps_last_answer_witness :
  validators (UpdateCachedLatestValidatorsLoop 3 world_flaky_rpc executor_cold)
    = [validator1; validator2] ∧
  validatorsRequests (UpdateCachedLatestValidatorsLoop 3 world_flaky_rpc executor_cold)
    = 3%nat.
Proof.
  destruct (refresh_loop_keeps_last_answer world_flaky_rpc 3 executor_cold)
    as (Hreq & _ & Hlast).
  split; [|exact Hreq].
  refine (proj1 (Hlast 1%nat [validator1; validator2] _ eq_refl _)); [lia|].
  intros j' Hj'. assert (j' = 2%nat) as -> by lia. by eexists.
Defined.

(** ** The least saved height *)

Lemma foldr_min_le v vs x : x ∈ v :: vs → foldr Z.min v vs <= x.
Proof.
  revert x. induction vs as [|u vs IH]; intros x Hx; simpl.
  - apply list_elem_of_singleton in Hx. lia.
  - apply elem_of_cons in Hx as [->|Hx].
    + specialize (IH v (list_elem_of_here _ _)). lia.
    + apply elem_of_cons in Hx as [->|Hx]; [lia|].
      specialize (IH x (list_elem_of_further _ _ _ Hx)). lia.
Qed.

Lemma foldr_min_elem v vs : foldr Z.min v vs ∈ v :: vs.
Proof.
  induction vs as [|u vs IH]; simpl; [apply list_elem_of_here|].
  destruct (Z.min_spec u (foldr Z.min v vs)) as [[_ ->]|[_ ->]].
  - apply list_elem_of_further, list_elem_of_here.
  - apply elem_of_cons in IH as [->|IH]; [apply list_elem_of_here|].
    by do 2 apply list_elem_of_further.
Qed.

(** X20: [GetLeastSavedTransactionHeight] answers with the height of a
    saved row that no saved row is below, as long as these heights are
    below 2^63; when no row is saved it answers 0 without an error, which
    is also its answer when a saved row has height 0; and when the scan
    fails it answers 0 with that error. *)
Theorem least_saved_transaction_height table :
  snd (GetLeastSavedTransactionHeight None table) = None ∧
  ((∀ r, r ∈ table → gtx_Status r ≠ Saved) →
   fst (GetLeastSavedTransactionHeight None table) = 0) ∧
  ((∃ r, r ∈ table ∧ gtx_Status r = Saved) →
   (∀ r, r ∈ table → gtx_Status r = Saved → 0 <= gtx_Height r < two63) →
   (∃ r, r ∈ table ∧ gtx_Status r = Saved ∧
         gtx_Height r = fst (GetLeastSavedTransactionHeight None table)) ∧
   (∀ r, r ∈ table → gtx_Status r = Saved →
         fst (GetLeastSavedTransactionHeight None table) <= gtx_Height r)) ∧
  (∀ err, GetLeastSavedTransactionHeight (Some err) table = (0, Some err)).
Proof.
  split; [done|]. unfold GetLeastSavedTransactionHeight. simpl. split; [|split; [|done]].
  - intros Hnone.
    destruct (filter (λ r, gtx_Status r = Saved) table) as [|r rs] eqn:Hf; [done|].
    exfalso. assert (r ∈ filter (λ r, gtx_Status r = Saved) table) as Hr.
    { rewrite Hf. apply list_elem_of_here. }
    apply list_elem_of_filter in Hr as [Hs Hr]. by apply (Hnone r).
  - intros (r0 & Hr0 & Hs0) Hrange.
    assert (∀ h, h ∈ gtx_Height <$> filter (λ r, gtx_Status r = Saved) table ↔
                 ∃ r, r ∈ table ∧ gtx_Status r = Saved ∧ gtx_Height r = h) as Hsel.
    { intros h. rewrite list_elem_of_fmap. split.
      - intros (r & -> & [Hs Hr]%list_elem_of_filter). by exists r.
      - intros (r & Hr & Hs & <-). exists r. split; [done|].
        by apply list_elem_of_filter. }
    destruct (gtx_Height <$> filter (λ r, gtx_Status r = Saved) table) as [|v vs] eqn:Hvals.
    { exfalso. eapply not_elem_of_nil. apply Hsel. by exists r0. }
    simpl.
    pose proof (foldr_min_elem v vs) as Hin. apply Hsel in Hin as (r & Hr & Hs & Hh).
    assert (uint64 (foldr Z.min v vs) = foldr Z.min v vs) as ->.
    { apply uint64_id. rewrite <- Hh. specialize (Hrange r Hr Hs).
      unfold is_uint64, two64, two63 in *. lia. }
    split; [by exists r|].
    intros r' Hr' Hs'. apply foldr_min_le, Hsel. by exists r'.
Qed.

Lemma least_saved_transaction_height_witness :
  fst (GetLeastSavedTransactionHeight None table_heights) = 103 ∧
  fst (GetLeastSavedTransactionHeight None [mkTx 1 1 3 AllVoted]) = 0.
Proof.
  destruct (least_saved_transaction_height [mkTx 1 1 3 AllVoted]) as (_ & Hnone & _).
  split; [reflexivity|]. apply Hnone.
  intros r Hr. apply list_elem_of_singleton in Hr as ->. by intros [=].
Defined.

(** ** The window of an in-turn pass *)

Lemma loads_within_quiet bound tr evs :
  loads_within bound tr → Forall quiet evs → loads_within bound (tr ++ evs).
Proof.
  intros Htr Hq i [Hin|Hin]%elem_of_app; [by apply Htr|].
  rewrite Forall_forall in Hq. apply list_elem_of_In in Hin. by apply Hq in Hin.
Qed.

Lemma window_quiet w ch st :
  wp (window w ch)
     (λ win st',
        (∃ evs, trace st' = trace st ++ evs ∧ Forall quiet evs) ∧
        role_is w st (fst (fst win)) ∧
        (fst (fst win) = true →
         GetLatestOracleSequenceByStatus w (store st) AllVoted = Ok (snd win)))
     (λ _ st', ∃ evs, trace st' = trace st ++ evs ∧ Forall quiet evs) st.
Proof.
  unfold window, resolveRole, establishCursor, updateMetrics, selectEndSequence,
    reconcileAlerts.
  repeat wp_step.
  all: try (split; [|split; [by eexists _, _|by (intros; simpl in *; congruence)]]).
  all: first [by (exists []; rewrite app_nil_r)
             |eexists; split; [simpl; rewrite <- ?app_assoc; reflexivity
                              |simpl; repeat (constructor; [exact I|]); constructor]].
Qed.

(** X21: an in-turn pass takes the end of its window from the package
    table, not from the source chain: it asks the table for no sequence
    above the latest voted sequence that the table reported when the
    pass began. *)
Theorem inturn_window_end fuel w ch st latest :
  role_is w st true →
  GetLatestOracleSequenceByStatus w (store st) AllVoted = Ok latest →
  loads_within (uint64 latest) (trace st) →
  loads_within (uint64 latest) (trace (snd (process fuel w ch st))).
Proof.
  intros Hrole Hlatest Hst. rewrite process_run.
  pose proof (window_quiet w ch st) as Hwin. unfold wp in Hwin.
  destruct (window w ch st) as [[[[b start] e]|err| | |] st1];
    try (destruct Hwin as (evs & Htr & Hq); simpl; rewrite Htr;
         by apply loads_within_quiet).
  destruct Hwin as ((evs & Htr & Hq) & Hb & He). simpl in Hb, He.
  pose proof (role_is_fun _ _ _ _ Hb Hrole) as ->.
  assert (e = latest) as -> by (specialize (He eq_refl); congruence).
  cbn [fst snd].
  assert (loads_within (uint64 latest) (trace st1)) as Hst1.
  { rewrite Htr. by apply loads_within_quiet. }
  assert (wp (forLoop fuel w ch true latest start)
             (λ _ st', loads_within (uint64 latest) (trace st'))
             (λ _ st', loads_within (uint64 latest) (trace st')) st1) as Hwp.
  { apply (forLoop_inv w true (λ st', loads_within (uint64 latest) (trace st'))
             (λ i, i <= uint64 latest)); try done.
    - intros ev st' Hqv H. apply loads_within_logged; [done|].
      intros i ->. done.
    - intros i st' Hi H. apply loads_within_logged; [done|].
      by intros i' [= <-].
    - intros msg opt st' p ps _ _ H. apply loads_within_logged; [done|].
      intros; discriminate. }
  unfold wp in Hwp. unfold returning.
  by destruct (forLoop fuel w ch true latest start st1) as [[[]| | | |] ?].
Qed.

Lemma inturn_window_end_witness :
  loads_within 8 (trace (snd (process 3 (world_inturn 8) 0 (inturn_at 7 10 rows_voted)))).
Proof.
  apply (inturn_window_end 3 (world_inturn 8) 0 (inturn_at 7 10 rows_voted) 8).
  - exact (world_role "abcd" 100 30 120 7 10 9 8 accept_all (inturn_at 7 10 rows_voted)
             [171; 205] eq_refl).
  - reflexivity.
  - intros i Hin. simpl in Hin. by apply not_elem_of_nil in Hin.
Defined.

(** ** Claims that the destination does not take *)

(** X22: a claim that the destination chain answers with a non-zero
    code is a failed claim, although the broadcast itself succeeded: the
    batch processor returns an error that carries the code and the log
    of the answer, and a broadcast that fails returns its own error;
    either way the claim has been sent, the processed height is not
    reported, no row is touched and the cursor stays. *)
Theorem rejected_claim_is_an_error w pkg0 rest ch i nonce b st vote0 votes vals agg :
  GetVotesByChannelIdAndSequence w ch i = Ok (vote0 :: votes) →
  fst (QueryCachedLatestValidators w (exec st)) = Ok vals →
  AggregateSignatureAndValidatorBitSet w (vote0 :: votes) vals = Ok agg →
  (∀ txRes,
     BroadcastTx w (claimMsg w (vote_ClaimPayload vote0) (fst agg) (snd agg) (TxTime pkg0) i)
       (claimOpt w nonce) = Ok txRes →
     Code txRes ≠ 0 →
     fst (processPkgs w (pkg0 :: rest) ch i nonce b st)
       = Fail (ErrClaim (Code txRes) (RawLog txRes))) ∧
  (∀ err,
     BroadcastTx w (claimMsg w (vote_ClaimPayload vote0) (fst agg) (snd agg) (TxTime pkg0) i)
       (claimOpt w nonce) = Err err →
     fst (processPkgs w (pkg0 :: rest) ch i nonce b st) = Fail err) ∧
  ((∀ txRes,
      BroadcastTx w (claimMsg w (vote_ClaimPayload vote0) (fst agg) (snd agg) (TxTime pkg0) i)
        (claimOpt w nonce) = Ok txRes → Code txRes ≠ 0) →
   trace (snd (processPkgs w (pkg0 :: rest) ch i nonce b st))
     = trace st ++
       [EvBroadcast (claimMsg w (vote_ClaimPayload vote0) (fst agg) (snd agg) (TxTime pkg0) i)
          (claimOpt w nonce) (store st)] ∧
   store (snd (processPkgs w (pkg0 :: rest) ch i nonce b st)) = store st ∧
   asm (snd (processPkgs w (pkg0 :: rest) ch i nonce b st)) = asm st).
Proof.
  intros Hvotes Hvals Hagg.
  unfold processPkgs, ClaimPackages, UpdateBatchPackagesClaimedTxHash,
    UpdateBatchPackagesStatusAndClaimedTxHash, liftExec, bind, try, get, setExec, emit,
    index0, check, ret, fail.
  rewrite Hvotes. cbn. rewrite Hvals. cbn. rewrite Hagg. cbn.
  unfold claimMsg, claimOpt.
  destruct (BroadcastTx w _ _) as [txRes|err]; cbn.
  - destruct (Z.eqb_spec (Code txRes) 0) as [Hz|Hnz]; cbn.
    + split; [by intros ? [= <-]|]. split; [done|].
      intros Hrej. by destruct (Hrej txRes eq_refl).
    + split; [by intros ? [= <-]|]. by split.
  - split; [done|]. split; [by intros ? [= <-]|]. done.
Qed.

Lemma rejected_claim_is_an_error_witness :
  fst (processPkgs world_collision rows_seq7 0 7 10 true (inturn_at 7 10 rows_seq7))
    = Fail (ErrClaim 32 "account sequence mismatch") ∧
  store (snd (processPkgs world_collision rows_seq7 0 7 10 true (inturn_at 7 10 rows_seq7)))
    = rows_seq7.
Proof.
  destruct (rejected_claim_is_an_error world_collision (mkPkg 1 7 50 AllVoted) [] 0 7 10 true
              (inturn_at 7 10 rows_seq7) vote1 [] [validator1; validator2] ([170], [3])
              eq_refl eq_refl eq_refl) as (Hrej & _ & Hkeep).
  split.
  - apply (Hrej {| Code := 32; RawLog := "account sequence mismatch"; TxHash := "" |});
      [reflexivity|by intros [=]].
  - apply Hkeep. intros txRes [= <-]. by intros [=].
Defined.
